(** * HMS component status tracker (status-tracker.py)

    A shallow embedding of the status store, the operational-status
    rule, the start/test recording operations and the work-ticket
    generator of [docs/categories/verification/status-tracker.py].

    - Python values are the values [json.load] can produce, with [int]
      for every number: floating point is left out, except for the one
      quotient [determine_priority] computes, which is kept exact and
      compared with 0.5 as its binary64 rounding is.  Dictionaries are
      finite maps with string keys, so Rocq equality of two values is
      Python's deep equality [==] (up to [True == 1]).  The wider type
      [pyvalue] has in addition what a caller may put into a record and
      [json.dump] accepts: tuples and keys that are no strings.
    - Functions that can raise return a [result]; functions that touch
      the disk, the clock or [uuid4] live in the monad [M] over a
      [world], in which a write made before an exception stays made.
    - A file is what [json.dump] wrote, read back by [json.load] as the
      same value, or text on which [json.load] raises
      [JSONDecodeError], or content on which the load raises something
      else: bytes that are no UTF-8, nesting beyond the recursion
      limit, an integer with too many digits, no permission to read.
      A directory can be missing: [open] for writing then raises
      [FileNotFoundError].
    - Component identifiers are used as file names as they are, and a
      directory is a map from names to files: this is what the file
      system does for a [portable_name], a name of letters, digits,
      [.], [_] and [-] that is short enough.  Names with a separator,
      or two names that differ in case only on a file system that
      ignores case, are outside this model.
    - Calls to [print] are left out: nothing below reads the terminal.
    - The ticket interface of [a2a-integration.py] and the readers of
      [component-summary-generator.py] come after the tracker, over the
      same values and the same [world].  What [os.listdir] returns is
      an argument of the function that calls it, since the order of the
      names is the system's choice. *)

From Stdlib Require Import ZArith QArith Qabs String Ascii.
From stdpp Require Import base option gmap strings list fin_maps pretty.

#[local] Set Warnings "-register-all".
Local Open Scope string_scope.
Local Open Scope Z_scope.

(** ** Python values and exceptions *)

Inductive json : Type :=
| JNull
| JBool (b : bool)
| JInt (n : Z)
| JStr (s : string)
| JArr (l : list json)
| JObj (m : gmap string json).

Inductive exn : Type :=
| KeyError (k : string)
| TypeError
| AttributeError
| ZeroDivisionError
| FileNotFoundError (path : string)
| OverflowError
| UnicodeDecodeError
| RecursionError
| ValueError
| PermissionError.

Inductive result (A : Type) : Type :=
| Ok (a : A)
| Raise (e : exn).
Arguments Ok {A} a.
Arguments Raise {A} e.

#[export] Instance result_ret : MRet result := fun A a => Ok a.
#[export] Instance result_bind : MBind result := fun A B f r =>
  match r with
  | Ok a => f a
  | Raise e => Raise e
  end.

(** [v[k]] *)
Definition getitem (v : json) (k : string) : result json :=
  match v with
  | JObj m => match m !! k with
              | Some x => Ok x
              | None => Raise (KeyError k)
              end
  | _ => Raise TypeError
  end.

(** [v[k] = x]; the updated object is returned. *)
Definition setitem (v : json) (k : string) (x : json) : result json :=
  match v with
  | JObj m => Ok (JObj (<[k := x]> m))
  | _ => Raise TypeError
  end.

(** [v.get(k, d)] *)
Definition dict_get (v : json) (k : string) (d : json) : result json :=
  match v with
  | JObj m => Ok (default d (m !! k))
  | _ => Raise AttributeError
  end.

(** [v.append(x)] *)
Definition py_append (v : json) (x : json) : result json :=
  match v with
  | JArr l => Ok (JArr (l ++ [x]))
  | _ => Raise AttributeError
  end.

(** [v[k1][k2]] and [v[k1][k2] = x]: the inner dictionary is the object
    held by [v], so the assignment is seen through [v]. *)
Definition getitem2 (v : json) (k1 k2 : string) : result json :=
  inner ← getitem v k1; getitem inner k2.

Definition setitem2 (v : json) (k1 k2 : string) (x : json) : result json :=
  inner ← getitem v k1;
  inner' ← setitem inner k2 x;
  setitem v k1 inner'.

(** The numbers among the values: [int], and [bool] as its subclass. *)
Definition as_int (v : json) : option Z :=
  match v with
  | JInt n => Some n
  | JBool b => Some (if b then 1 else 0)
  | _ => None
  end.

(** [a + b] *)
Definition py_add (a b : json) : result json :=
  match as_int a, as_int b with
  | Some x, Some y => Ok (JInt (x + y))
  | _, _ =>
      match a, b with
      | JStr s, JStr t => Ok (JStr (s ++ t))
      | JArr l, JArr r => Ok (JArr (l ++ r))
      | _, _ => Raise TypeError
      end
  end.

(** [a > b] where one operand is a number, as at both places the
    tracker compares: a non-number on the other side is a [TypeError]. *)
Definition py_gt (a b : json) : result bool :=
  match as_int a, as_int b with
  | Some x, Some y => Ok (y <? x)
  | _, _ => Raise TypeError
  end.

(** The quotients too large for a binary64: from [2^1024 - 2^970], the
    middle between the largest binary64 and [2^1024], the nearest
    binary64 would be infinite. *)
Definition too_large (q : Q) : bool :=
  Qle_bool (inject_Z (2 ^ 1024 - 2 ^ 970)) (Qabs q).

(** [a / b] of two integers.  Python returns the binary64 nearest to
    the quotient (ties to even), whatever the size of the integers, and
    raises [OverflowError] when that is not finite.  The result here is
    the quotient before it is rounded; what is done with it takes the
    rounding into account. *)
Definition py_truediv (a b : json) : result Q :=
  match as_int a, as_int b with
  | Some x, Some y =>
      if y =? 0 then Raise ZeroDivisionError
      else if too_large (inject_Z x / inject_Z y)%Q then Raise OverflowError
      else Ok (inject_Z x / inject_Z y)%Q
  | _, _ => Raise TypeError
  end.

(** [x > 0.5] for the binary64 [x] nearest to [q].  The binary64 next
    above [0.5] is [0.5 + 2^-53]; [q] is rounded to it, or to a larger
    one, exactly when [q] is above the middle [0.5 + 2^-54]: the middle
    itself goes to [0.5], whose last bit is even. *)
Definition gt_half (q : Q) : bool :=
  negb (Qle_bool q ((1 # 2) + (1 # 2 ^ 54))).

(** [v == s] for a string literal [s] *)
Definition eq_str (v : json) (s : string) : bool :=
  match v with
  | JStr t => bool_decide (t = s)
  | _ => false
  end.

(** ** The operational-status rule *)

(** The [if]/[elif] chain of [update_operational_status]. *)
Definition operational_status_of (start_status test_status : json) : string :=
  if eq_str start_status "unknown" || eq_str test_status "unknown" then "unknown"
  else if eq_str start_status "failed" then "offline"
  else if eq_str test_status "failing" then "degraded"
  else if eq_str start_status "running" && eq_str test_status "passing" then "operational"
  else "degraded".

Definition update_operational_status (status : json) : result json :=
  start_status ← getitem2 status "start" "status";
  test_status ← getitem2 status "tests" "status";
  setitem status "operational_status"
    (JStr (operational_status_of start_status test_status)).

(** ** The world: directories, clock and identifier source *)

(** What [open] and [json.load] raise on a file that is there, other
    than [JSONDecodeError]: bytes that are not UTF-8, brackets nested
    deeper than the interpreter recurses, an integer with more digits
    than [int] converts, a file the process may not read. *)
Inductive load_error : Type :=
| NotUtf8
| TooDeep
| IntegerTooLong
| NoPermission.

Definition raised_by (why : load_error) : exn :=
  match why with
  | NotUtf8 => UnicodeDecodeError
  | TooDeep => RecursionError
  | IntegerTooLong => ValueError
  | NoPermission => PermissionError
  end.

(** [IOError], which is [OSError] with its subclasses. *)
Definition is_os_error (e : exn) : bool :=
  match e with
  | FileNotFoundError _ | PermissionError => true
  | _ => false
  end.

(** A file written by [json.dump] holds a value and [json.load] reads
    it back; [FText] is text on which [json.load] raises
    [JSONDecodeError]; [FUnreadable] is a file on which [open] or
    [json.load] raises something else. *)
Inductive file : Type :=
| FJson (v : json)
| FText (text : string)
| FUnreadable (why : load_error).

(** [status_dir], [tickets_dir] and [logs_dir] are the contents of
    [STATUS_DIR], [WORK_TICKETS_DIR] and [LOGS_DIR] by file name, [None]
    for a directory that does not exist.  [clock n] is what the [n]-th
    [datetime.datetime.now().isoformat()] of the run returns and
    [uuids n] the hex digits of the [n]-th [uuid.uuid4()].  The files of
    [LOGS_DIR] are plain text. *)
Record world : Type := mkWorld {
  status_dir : option (gmap string file);
  tickets_dir : option (gmap string file);
  logs_dir : option (gmap string string);
  clock : nat → string;
  ticks : nat;
  uuids : nat → string;
  draws : nat
}.

Definition set_status_dir (d : option (gmap string file)) (w : world) : world :=
  mkWorld d (tickets_dir w) (logs_dir w) (clock w) (ticks w) (uuids w) (draws w).
Definition set_tickets_dir (d : option (gmap string file)) (w : world) : world :=
  mkWorld (status_dir w) d (logs_dir w) (clock w) (ticks w) (uuids w) (draws w).
Definition set_logs_dir (d : option (gmap string string)) (w : world) : world :=
  mkWorld (status_dir w) (tickets_dir w) d (clock w) (ticks w) (uuids w) (draws w).

(** Computations that read and write the world and may raise; what was
    written before an exception stays written. *)
Definition M (A : Type) : Type := world → result A * world.

#[export] Instance M_ret : MRet M := fun A a w => (Ok a, w).
#[export] Instance M_bind : MBind M := fun A B f m w =>
  match m w with
  | (Ok a, w') => f a w'
  | (Raise e, w') => (Raise e, w')
  end.

Definition lift {A : Type} (r : result A) : M A := fun w => (r, w).

Definition tick (w : world) : world :=
  mkWorld (status_dir w) (tickets_dir w) (logs_dir w)
          (clock w) (S (ticks w)) (uuids w) (draws w).
Definition draw (w : world) : world :=
  mkWorld (status_dir w) (tickets_dir w) (logs_dir w)
          (clock w) (ticks w) (uuids w) (S (draws w)).

(** [datetime.datetime.now().isoformat()] *)
Definition now : M string := fun w => (Ok (clock w (ticks w)), tick w).

(** [uuid.uuid4()], as its 32 hex digits *)
Definition uuid4 : M string := fun w => (Ok (uuids w (draws w)), draw w).

(** [str(u)]: the digits in groups of 8-4-4-4-12 *)
Definition uuid_str (hex : string) : string :=
  substring 0 8 hex ++ "-" ++ substring 8 4 hex ++ "-" ++ substring 12 4 hex
    ++ "-" ++ substring 16 4 hex ++ "-" ++ substring 20 12 hex.

Definition STATUS_DIR : string := "status".
Definition LOGS_DIR : string := "logs".
Definition WORK_TICKETS_DIR : string := "work_tickets".
Definition STATUS_VERSION : string := "1.0".

(** [os.makedirs(directory, exist_ok=True)] for the three directories *)
Definition ensure_directories : M unit := fun w =>
  (Ok tt,
   mkWorld (Some (default ∅ (status_dir w))) (Some (default ∅ (tickets_dir w)))
           (Some (default ∅ (logs_dir w))) (clock w) (ticks w) (uuids w) (draws w)).

(** [with open(os.path.join(dir, name), 'w') as f: json.dump(v, f, indent=2)] *)
Definition write_json (dir_name : string)
    (get : world → option (gmap string file))
    (set : option (gmap string file) → world → world)
    (name : string) (v : json) : M unit := fun w =>
  match get w with
  | Some d => (Ok tt, set (Some (<[name := FJson v]> d)) w)
  | None => (Raise (FileNotFoundError (dir_name ++ "/" ++ name)), w)
  end.

(** ** The status store *)

(** The file name under [STATUS_DIR].  The code joins it to the
    directory with [os.path.join] as it is; the directory is a map from
    file names to files here, which is what the code does for a
    component whose name is a [portable_name]. *)
Definition get_status_file_path (component : string) : string :=
  component ++ "_status.json".

(** The characters of the POSIX portable file names: letters, digits,
    [.], [_] and [-]. *)
Definition portable_char (c : ascii) : bool :=
  let n := nat_of_ascii c in
  ((48 <=? n) && (n <=? 57) || (65 <=? n) && (n <=? 90) || (97 <=? n) && (n <=? 122)
   || (n =? 45) || (n =? 46) || (n =? 95))%nat.

(** A component that names one file of [STATUS_DIR]: no path separator
    or other character outside the portable ones, and not longer than a
    file name with the suffix [_status.json] may be (255 bytes). *)
Definition portable_name (component : string) : bool :=
  forallb portable_char (list_ascii_of_string component)
  && (String.length component <=? 243)%nat.

(** The name with its capital letters made small, as a file system that
    ignores case compares it. *)
Definition lower_char (c : ascii) : ascii :=
  let n := nat_of_ascii c in
  if ((65 <=? n) && (n <=? 90))%nat then ascii_of_nat (n + 32) else c.

Fixpoint lower (s : string) : string :=
  match s with
  | EmptyString => EmptyString
  | String c rest => String (lower_char c) (lower rest)
  end.

Definition default_status (component created_at last_updated : string) : json :=
  JObj (list_to_map [
    ("component", JStr component);
    ("version", JStr STATUS_VERSION);
    ("created_at", JStr created_at);
    ("last_updated", JStr last_updated);
    ("start", JObj (list_to_map [
        ("last_attempt", JNull);
        ("last_success", JNull);
        ("attempts", JInt 0);
        ("successes", JInt 0);
        ("failures", JInt 0);
        ("status", JStr "unknown")]));
    ("tests", JObj (list_to_map [
        ("last_run", JNull);
        ("last_success", JNull);
        ("total_runs", JInt 0);
        ("total_passed", JInt 0);
        ("total_failed", JInt 0);
        ("status", JStr "unknown");
        ("last_results", JObj ∅)]));
    ("issues", JArr []);
    ("operational_status", JStr "unknown")]).

(** The file of a component, when [os.path.exists] finds one. *)
Definition status_file (component : string) (w : world) : option file :=
  d ← status_dir w; d !! get_status_file_path component.

Definition new_status (component : string) : M json :=
  created_at ← now;
  last_updated ← now;
  mret (default_status component created_at last_updated).

(** A file on which [json.load] raises [JSONDecodeError] is reported
    with a warning and then treated like no file.  That is the only
    handler: any other exception of the load leaves the function. *)
Definition get_component_status (component : string) : M json := fun w =>
  match status_file component w with
  | Some (FJson v) => (Ok v, w)
  | Some (FText _) => new_status component w
  | Some (FUnreadable why) => (Raise (raised_by why), w)
  | None => new_status component w
  end.

(** The caller's dictionary is updated in place; it is returned here as
    it is after the call. *)
Definition update_component_status (component : string) (status : json) : M json :=
  t ← now;
  status ← lift (setitem status "last_updated" (JStr t));
  write_json STATUS_DIR status_dir set_status_dir
             (get_status_file_path component) status;;
  mret status.

(** ** Records as a caller may build them *)

(** [update_component_status] takes whatever dictionary its caller
    built.  A [pyvalue] is a value that [json.dump] writes: besides the
    values [json.load] returns these are tuples, written as arrays, and
    dictionaries with integer, Boolean or [None] keys, written as the
    strings [str(n)], [true], [false] and [null].  A dictionary is the
    list of its items in insertion order, its keys pairwise distinct.
    Floats are left out, as in [json]. *)
Inductive pykey : Type :=
| KStr (s : string)
| KInt (n : Z)
| KBool (b : bool)
| KNone.

#[export] Instance pykey_eq_dec : EqDecision pykey.
Proof. solve_decision. Defined.











(** ** Work tickets *)

(** [s.replace(old, new)] for a non-empty [old]: left to right, without
    overlap.  [skip] counts the characters of a match still to drop. *)
Fixpoint replace_from (old new s : string) (skip : nat) : string :=
  match s with
  | EmptyString => EmptyString
  | String ch rest =>
      match skip with
      | S k => replace_from old new rest k
      | O =>
          if String.prefix old s
          then new ++ replace_from old new rest (String.length old - 1)
          else String ch (replace_from old new rest O)
      end
  end.

Definition str_replace (s old new : string) : string := replace_from old new s O.

(** A value inside an f-string.  Lists and dictionaries are never
    formatted: the comparison before the f-string has raised for them. *)
Definition py_format (v : json) : string :=
  match v with
  | JNull => "None"
  | JBool true => "True"
  | JBool false => "False"
  | JInt n => pretty n
  | JStr s => s
  | JArr _ => EmptyString
  | JObj _ => EmptyString
  end.

Definition determine_responsible_agent (component issue_type : string) : string :=
  if bool_decide (issue_type = "start_failure") then "HMS-DEV"
  else if bool_decide (issue_type = "test_failure")
       then str_replace component "HMS-" "HMS-AGT-"
       else "HMS-DEV".

(** [issue.get("details", {}).get("results", {})] *)
Definition issue_results (issue : json) : result json :=
  details ← dict_get issue "details" (JObj ∅);
  dict_get details "results" (JObj ∅).

Definition determine_priority (component issue_type : string) (issue : json)
    : result string :=
  if bool_decide (issue_type = "start_failure") then Ok "high"
  else if bool_decide (issue_type = "test_failure") then
    results ← issue_results issue;
    failed ← dict_get results "failed" (JInt 0);
    passed ← dict_get results "passed" (JInt 0);
    sum ← py_add failed passed;
    skipped ← dict_get results "skipped" (JInt 0);
    total ← py_add sum skipped;
    has_tests ← py_gt total (JInt 0);
    if has_tests : bool then
      ratio ← py_truediv failed total;
      if gt_half ratio then Ok "high" else Ok "medium"
    else Ok "medium"
  else Ok "medium".

Definition generate_ticket_description (component issue_type : string) (issue : json)
    : result string :=
  if bool_decide (issue_type = "start_failure") then
    Ok ("The " ++ component ++ " component failed to start. This is affecting the operational status of the HMS ecosystem and should be resolved as soon as possible.")
  else if bool_decide (issue_type = "test_failure") then
    results ← issue_results issue;
    failed ← dict_get results "failed" (JInt 0);
    passed ← dict_get results "passed" (JInt 0);
    sum ← py_add failed passed;
    skipped ← dict_get results "skipped" (JInt 0);
    total ← py_add sum skipped;
    has_tests ← py_gt total (JInt 0);
    if has_tests : bool then
      Ok ("Tests for " ++ component ++ " are failing (" ++ py_format failed ++ "/"
            ++ py_format total ++ " tests failed). This may indicate issues with recent changes or integration problems.")
    else
      Ok ("Tests for " ++ component ++ " failed to run properly. This may indicate configuration or dependency issues.")
  else Ok ("Issue detected with " ++ component ++ ": " ++ issue_type).

Definition generate_suggested_actions (component issue_type : string) : list string :=
  if bool_decide (issue_type = "start_failure") then
    [ "Check the " ++ component ++ " logs for error messages";
      "Verify all dependencies for " ++ component ++ " are available and correctly configured";
      "Check for recent changes that might have affected the component's ability to start";
      "Verify environment variables and configuration files" ]
  else if bool_decide (issue_type = "test_failure") then
    [ "Review failing tests for " ++ component;
      "Check for recent code changes that might have broken tests";
      "Verify test environment and fixtures";
      "Check for integration issues with dependent components";
      "Run tests with verbose output to diagnose specific failures" ]
  else [ "Investigate the issue"; "Check component logs"; "Review recent changes" ].

(** [open(log_file, 'a')]: the directory must exist, the file is made
    when it is not there. *)
Definition open_append (name : string) : M unit := fun w =>
  match logs_dir w with
  | Some d => (Ok tt, set_logs_dir (Some (<[name := default EmptyString (d !! name)]> d)) w)
  | None => (Raise (FileNotFoundError (LOGS_DIR ++ "/" ++ name)), w)
  end.

(** [f.write(line)] on the file opened for appending *)
Definition write_append (name line : string) : M unit := fun w =>
  match logs_dir w with
  | Some d => (Ok tt, set_logs_dir (Some (<[name := default EmptyString (d !! name) ++ line]> d)) w)
  | None => (Raise (FileNotFoundError (LOGS_DIR ++ "/" ++ name)), w)
  end.

Definition notification_line (t agent ticket_id component issue_type : string) : string :=
  t ++ " - Notified " ++ agent ++ " about " ++ ticket_id ++ " (" ++ component
    ++ " - " ++ issue_type ++ ")" ++ String (ascii_of_nat 10) EmptyString.

Definition notify_agent_about_ticket (agent ticket_id : string) (ticket : json) : M unit :=
  open_append "notifications.log";;
  t ← now;
  component ← lift (getitem ticket "component");
  issue_type ← lift (getitem ticket "issue_type");
  write_append "notifications.log"
    (notification_line t agent ticket_id (py_format component) (py_format issue_type)).

Definition work_ticket (ticket_id component : string) (issue_id : json)
    (issue_type t assigned_agent priority : string) (issue : json)
    (description : string) (suggested_actions : list string) : json :=
  JObj (list_to_map [
    ("id", JStr ticket_id);
    ("component", JStr component);
    ("issue_id", issue_id);
    ("issue_type", JStr issue_type);
    ("created_at", JStr t);
    ("updated_at", JStr t);
    ("assigned_to", JStr assigned_agent);
    ("status", JStr "open");
    ("priority", JStr priority);
    ("details", JObj (list_to_map [
        ("component", JStr component);
        ("issue", issue);
        ("description", JStr description);
        ("suggested_actions", JArr (JStr <$> suggested_actions))]))]).

Definition generate_work_ticket (component issue_type : string) (issue : json)
    : M string :=
  let assigned_agent := determine_responsible_agent component issue_type in
  u ← uuid4;
  let ticket_id := "WRK-" ++ substring 0 8 u in
  t ← now;
  issue_id ← lift (getitem issue "id");
  priority ← lift (determine_priority component issue_type issue);
  description ← lift (generate_ticket_description component issue_type issue);
  let ticket :=
    work_ticket ticket_id component issue_id issue_type t assigned_agent priority
      issue description (generate_suggested_actions component issue_type) in
  write_json WORK_TICKETS_DIR tickets_dir set_tickets_dir (ticket_id ++ ".json") ticket;;
  notify_agent_about_ticket assigned_agent ticket_id ticket;;
  mret ticket_id.

(** ** Recording starts and test runs *)

(** [status[k1][k2] += 1] *)
Definition increment (status : json) (k1 k2 : string) : result json :=
  inner ← getitem status k1;
  old ← getitem inner k2;
  new ← py_add old (JInt 1);
  inner' ← setitem inner k2 new;
  setitem status k1 inner'.

(** [status["issues"].append(issue)] *)
Definition append_issue (status issue : json) : result json :=
  issues ← getitem status "issues";
  issues' ← py_append issues issue;
  setitem status "issues" issues'.

Definition new_issue (issue_id type component timestamp details_key : string)
    (details_value : json) : json :=
  JObj (list_to_map [
    ("id", JStr issue_id);
    ("type", JStr type);
    ("component", JStr component);
    ("timestamp", JStr timestamp);
    ("details", JObj {[ details_key := details_value ]});
    ("status", JStr "open")]).

(** [output] is [None] when the caller gives none. *)
Definition opt_str (output : option string) : json :=
  match output with
  | Some s => JStr s
  | None => JNull
  end.

Definition record_component_start (component : string) (success : bool)
    (output : option string) : M json :=
  status ← get_component_status component;
  t ← now;
  status ← lift (setitem2 status "start" "last_attempt" (JStr t));
  status ← lift (increment status "start" "attempts");
  status ←
    (if success then
       t ← now;
       status ← lift (setitem2 status "start" "last_success" (JStr t));
       status ← lift (increment status "start" "successes");
       lift (setitem2 status "start" "status" (JStr "running"))
     else
       status ← lift (increment status "start" "failures");
       status ← lift (setitem2 status "start" "status" (JStr "failed"));
       u ← uuid4;
       t ← now;
       let issue := new_issue (uuid_str u) "start_failure" component t
                              "output" (opt_str output) in
       status ← lift (append_issue status issue);
       failures ← lift (getitem2 status "start" "failures");
       successes ← lift (getitem2 status "start" "successes");
       overtaken ← lift (py_gt failures successes);
       (if overtaken : bool
        then generate_work_ticket component "start_failure" issue;; mret tt
        else mret tt);;
       mret status);
  status ← lift (update_operational_status status);
  update_component_status component status.

Definition default_results : json :=
  JObj (list_to_map [("passed", JInt 0); ("failed", JInt 0); ("skipped", JInt 0)]).

(** [if results is None: results = {...}].  The argument is [None] when
    the caller gives none and when it passes [None], which is also what
    [json.loads] makes of [null]. *)
Definition test_payload (results : option json) : json :=
  match results with
  | None | Some JNull => default_results
  | Some results => results
  end.

Definition record_test_run (component : string) (success : bool)
    (results : option json) : M json :=
  status ← get_component_status component;
  t ← now;
  status ← lift (setitem2 status "tests" "last_run" (JStr t));
  status ← lift (increment status "tests" "total_runs");
  let results := test_payload results in
  status ←
    (if success then
       status ← lift (setitem2 status "tests" "last_success" (JStr t));
       status ← lift (increment status "tests" "total_passed");
       lift (setitem2 status "tests" "status" (JStr "passing"))
     else
       status ← lift (increment status "tests" "total_failed");
       status ← lift (setitem2 status "tests" "status" (JStr "failing"));
       u ← uuid4;
       let issue := new_issue (uuid_str u) "test_failure" component t
                              "results" results in
       status ← lift (append_issue status issue);
       failed ← lift (getitem2 status "tests" "total_failed");
       passed ← lift (getitem2 status "tests" "total_passed");
       overtaken ← lift (py_gt failed passed);
       (if overtaken : bool
        then generate_work_ticket component "test_failure" issue;; mret tt
        else mret tt);;
       mret status);
  status ← lift (setitem2 status "tests" "last_results" results);
  status ← lift (update_operational_status status);
  update_component_status component status.

(** ** The rule as the specification words it *)

Inductive start_state : Type := StartUnknown | StartRunning | StartFailed.
Inductive test_state : Type := TestUnknown | TestPassing | TestFailing.
Inductive operational_state : Type := OpUnknown | OpOperational | OpDegraded | OpOffline.

Definition start_name (s : start_state) : string :=
  match s with
  | StartUnknown => "unknown"
  | StartRunning => "running"
  | StartFailed => "failed"
  end.

Definition test_name (t : test_state) : string :=
  match t with
  | TestUnknown => "unknown"
  | TestPassing => "passing"
  | TestFailing => "failing"
  end.

Definition operational_name (o : operational_state) : string :=
  match o with
  | OpUnknown => "unknown"
  | OpOperational => "operational"
  | OpDegraded => "degraded"
  | OpOffline => "offline"
  end.

#[export] Instance start_state_eq_dec : EqDecision start_state.
Proof. solve_decision. Defined.
#[export] Instance test_state_eq_dec : EqDecision test_state.
Proof. solve_decision. Defined.

(** Either unknown gives unknown; else a failed start gives offline;
    else failing tests give degraded; else running with passing tests
    gives operational; else degraded. *)
Definition OperationalStatusRule (s : start_state) (t : test_state)
    : operational_state :=
  if bool_decide (s = StartUnknown) || bool_decide (t = TestUnknown) then OpUnknown
  else if bool_decide (s = StartFailed) then OpOffline
  else if bool_decide (t = TestFailing) then OpDegraded
  else if bool_decide (s = StartRunning) && bool_decide (t = TestPassing)
       then OpOperational
  else OpDegraded.

(** ** Reading a record *)

(** The number under [k] of a results payload, [0] when the key is
    absent, as [results.get(k, 0)] reads it. *)
Definition count (results : json) (k : string) : option Z :=
  match dict_get results k (JInt 0) with
  | Ok v => as_int v
  | Raise _ => None
  end.

(** More than half of the tests failed, out of a positive total. *)
Definition mostly_failed (failed passed skipped : Z) : Prop :=
  0 < failed + passed + skipped ∧
  (1 # 2 < inject_Z failed / inject_Z (failed + passed + skipped))%Q.

(** The number stored at [status[k1][k2]]. *)
Definition field_int (status : json) (k1 k2 : string) : option Z :=
  match getitem2 status k1 k2 with
  | Ok v => as_int v
  | Raise _ => None
  end.

(** [operational_status] is what the rule gives for the two
    sub-statuses of the same record. *)
Definition derived (status : json) : Prop :=
  ∃ start_status test_status,
    getitem2 status "start" "status" = Ok start_status ∧
    getitem2 status "tests" "status" = Ok test_status ∧
    getitem status "operational_status"
    = Ok (JStr (operational_status_of start_status test_status)).

(** [operational_status] is what the rule table of the specification
    gives for the two sub-statuses of the same record, whichever values
    of the table these are. *)
Definition follows_rule (status : json) : Prop :=
  ∀ s t,
    getitem2 status "start" "status" = Ok (JStr (start_name s)) →
    getitem2 status "tests" "status" = Ok (JStr (test_name t)) →
    getitem status "operational_status"
    = Ok (JStr (operational_name (OperationalStatusRule s t))).

(** [attempts == successes + failures] *)
Definition start_invariant (status : json) : Prop :=
  ∃ a s f,
    field_int status "start" "attempts" = Some a ∧
    field_int status "start" "successes" = Some s ∧
    field_int status "start" "failures" = Some f ∧
    a = s + f.

(** [total_runs == total_passed + total_failed] *)
Definition tests_invariant (status : json) : Prop :=
  ∃ r p f,
    field_int status "tests" "total_runs" = Some r ∧
    field_int status "tests" "total_passed" = Some p ∧
    field_int status "tests" "total_failed" = Some f ∧
    r = p + f.


(** A computation that leaves [STATUS_DIR] as it found it, whether it
    returns or raises. *)
Definition keeps_status_dir {A : Type} (m : M A) : Prop :=
  ∀ w, status_dir (m w).2 = status_dir w.

(** A computation for a component that either returns a record, which
    is then the content of the component's file and satisfies [Q], the
    other files being untouched, or raises and leaves [STATUS_DIR] as
    it found it. *)
Definition saves_or_keeps (component : string) (Q : json → Prop) (m : M json)
    : Prop :=
  ∀ w,
    match m w with
    | (Ok status, w') =>
        status_dir w'
        = (λ d, <[get_status_file_path component := FJson status]> d)
            <$> status_dir w
        ∧ is_Some (status_dir w) ∧ Q status
    | (Raise _, w') => status_dir w' = status_dir w
    end.

(** ** Well-formed records and worlds *)

(** What the recording operations read from a record: the counters are
    numbers, both sub-statuses are there and [issues] is a list. *)
Definition wf_status (status : json) : Prop :=
  (∃ a s f,
     field_int status "start" "attempts" = Some a ∧
     field_int status "start" "successes" = Some s ∧
     field_int status "start" "failures" = Some f) ∧
  (∃ r p f,
     field_int status "tests" "total_runs" = Some r ∧
     field_int status "tests" "total_passed" = Some p ∧
     field_int status "tests" "total_failed" = Some f) ∧
  (∃ start_status, getitem2 status "start" "status" = Ok start_status) ∧
  (∃ test_status, getitem2 status "tests" "status" = Ok test_status) ∧
  (∃ issues, getitem status "issues" = Ok (JArr issues)).

(** Counts that binary64 holds: [failed] and the total are below
    [2^53], so [failed / total] is rounded without surprise. *)
Definition small_counts (failed passed skipped : Z) : Prop :=
  Z.abs failed < 2 ^ 53 ∧ failed + passed + skipped < 2 ^ 53.

(** A results payload whose three counts, where present, are numbers,
    and small ones. *)
Definition wf_results (results : json) : Prop :=
  ∃ f p s,
    count results "failed" = Some f ∧
    count results "passed" = Some p ∧
    count results "skipped" = Some s ∧
    small_counts f p s.

(** The three directories exist, as after [ensure_directories]. *)
Definition directories_exist (w : world) : Prop :=
  is_Some (status_dir w) ∧ is_Some (tickets_dir w) ∧ is_Some (logs_dir w).

(** The record that a load finds for a component is well-formed. *)
Definition tracked (component : string) (w : world) : Prop :=
  ∃ status w0, get_component_status component w = (Ok status, w0) ∧ wf_status status.

(** Nothing on disk is lost between two worlds: directories stay, no
    file disappears, and a log file only gets longer. *)
Definition no_file_lost {A : Type} (d d' : option (gmap string A)) : Prop :=
  ∀ files, d = Some files → ∃ files', d' = Some files' ∧ dom files ⊆ dom files'.

Definition world_grows (w w' : world) : Prop :=
  no_file_lost (status_dir w) (status_dir w') ∧
  no_file_lost (tickets_dir w) (tickets_dir w') ∧
  (∀ logs, logs_dir w = Some logs →
     ∃ logs', logs_dir w' = Some logs' ∧
       ∀ name text, logs !! name = Some text →
         ∃ more, logs' !! name = Some (text ++ more)).

(** A computation after which nothing on disk is lost, whether it
    returns or raises. *)
Definition only_grows {A : Type} (m : M A) : Prop :=
  ∀ w, world_grows w (m w).2.

(** A value that is a dictionary. *)
Definition is_object (v : json) : bool :=
  match v with
  | JObj _ => true
  | _ => false
  end.

(** [old] occurs somewhere in [s]. *)
Definition occurs_in (old s : string) : Prop :=
  ∃ a b, s = a ++ old ++ b.

(** * The ticket interface of the agent integration

    [a2a-integration.py] reads and updates the tickets the tracker
    writes; its [WORK_TICKETS_DIR] is the tracker's. *)

(** [s.endswith(suffix)] *)
Definition endswith (s suffix : string) : bool :=
  let n := String.length s in
  let k := String.length suffix in
  (k <=? n)%nat && bool_decide (substring (n - k) k s = suffix).

(** The truth value of an optional string argument: [None] and the
    empty string are false. *)
Definition truthy (s : option string) : bool :=
  match s with
  | Some s => negb (bool_decide (s = EmptyString))
  | None => false
  end.

(** [wanted and ticket.get(key) != wanted]: the ticket is looked at
    only when the filter is set. *)
Definition filtered_out (wanted : option string) (ticket : json) (key : string)
    : result bool :=
  match wanted with
  | Some s =>
      if truthy wanted
      then v ← dict_get ticket key JNull; mret (negb (eq_str v s))
      else Ok false
  | None => Ok false
  end.

(** The three filters of [get_work_tickets], in the order of the source;
    the result is the final value of [include]. *)
Definition include_ticket (agent_id component status : option string)
    (ticket : json) : result bool :=
  by_agent ← filtered_out agent_id ticket "assigned_to";
  by_component ← filtered_out component ticket "component";
  by_status ← filtered_out status ticket "status";
  mret (negb (by_agent || by_component || by_status)).

(** The loop over the ticket files.  The inner handler skips a file
    on which the load raises [JSONDecodeError] or [IOError]; any other
    exception, of the load or of the filters, leaves the loop for the
    outer handler, which keeps the tickets collected so far. *)
Fixpoint scan_tickets (files : gmap string file)
    (agent_id component status : option string)
    (ticket_files : list string) (tickets : list json) : list json :=
  match ticket_files with
  | [] => tickets
  | filename :: ticket_files =>
      match files !! filename with
      | Some (FJson ticket) =>
          match include_ticket agent_id component status ticket with
          | Ok true =>
              scan_tickets files agent_id component status ticket_files
                (tickets ++ [ticket])
          | Ok false =>
              scan_tickets files agent_id component status ticket_files tickets
          | Raise _ => tickets
          end
      | Some (FUnreadable why) =>
          if is_os_error (raised_by why)
          then scan_tickets files agent_id component status ticket_files tickets
          else tickets
      | Some (FText _) | None =>
          scan_tickets files agent_id component status ticket_files tickets
      end
  end.

(** [get_work_tickets(agent_id, component, status)], where [listing] is
    what [os.listdir(WORK_TICKETS_DIR)] returns: the names of the
    directory in an order the system chooses.  Without the directory
    [os.listdir] raises and the outer handler returns the empty list. *)
Definition get_work_tickets (listing : list string)
    (agent_id component status : option string) : M (list json) := fun w =>
  match tickets_dir w with
  | Some files =>
      (Ok (scan_tickets files agent_id component status
             (filter (λ f, endswith f ".json" = true) listing) []), w)
  | None => (Ok [], w)
  end.

(** The filter [wanted] lets a dictionary through. *)
Definition passes (wanted : option string) (ticket : gmap string json)
    (key : string) : Prop :=
  ∀ s, wanted = Some s → s ≠ EmptyString → ticket !! key = Some (JStr s).

(** [sub in s] for two strings *)
Fixpoint str_contains (s sub : string) : bool :=
  String.prefix sub s ||
  match s with
  | String _ rest => str_contains rest sub
  | EmptyString => false
  end.

(** [k in v] *)
Definition py_contains (v : json) (k : string) : result bool :=
  match v with
  | JObj m => Ok (bool_decide (is_Some (m !! k)))
  | JArr l => Ok (existsb (λ x, eq_str x k) l)
  | JStr s => Ok (str_contains s k)
  | _ => Raise TypeError
  end.

(** [for detail_key, detail_value in value.items():
       ticket["details"][detail_key] = detail_value] *)
Fixpoint merge_details (ticket : json) (items : list (string * json))
    : result json :=
  match items with
  | [] => Ok ticket
  | (detail_key, detail_value) :: items =>
      ticket ← setitem2 ticket "details" detail_key detail_value;
      merge_details ticket items
  end.

(** The body of the loop over [updates.items()]. *)
Definition apply_update (ticket : json) (key : string) (value : json)
    : result json :=
  match value with
  | JObj details =>
      if bool_decide (key = "details")
      then
        present ← py_contains ticket "details";
        ticket ← (if present : bool then Ok ticket
                  else setitem ticket "details" (JObj ∅));
        merge_details ticket (map_to_list details)
      else setitem ticket key value
  | _ => setitem ticket key value
  end.

Fixpoint apply_updates (ticket : json) (updates : list (string * json))
    : result json :=
  match updates with
  | [] => Ok ticket
  | (key, value) :: updates =>
      ticket ← apply_update ticket key value;
      apply_updates ticket updates
  end.

(** What a call of the integration module raises: an exception the
    tracker knows, or the one of [json.load]. *)
Inductive a2a_exn : Type :=
| TrackerExn (e : exn)
| JSONDecodeError.

Inductive a2a_result (A : Type) : Type :=
| Returns (a : A)
| Raises (e : a2a_exn).
Arguments Returns {A} a.
Arguments Raises {A} e.

Definition a2a_lift {A} (m : M A) : world → a2a_result A * world := fun w =>
  match m w with
  | (Ok a, w') => (Returns a, w')
  | (Raise e, w') => (Raises (TrackerExn e), w')
  end.

(** [update_work_ticket(ticket_id, updates)], where [updates] lists
    [updates.items()] in the order of the iteration.  The argument of
    [FileNotFoundError] is the message. *)
Definition update_work_ticket (ticket_id : string) (updates : list (string * json))
    : world → a2a_result json * world := fun w =>
  let filename := ticket_id ++ ".json" in
  match tickets_dir w ≫= (λ files, files !! filename) with
  | None =>
      (Raises (TrackerExn (FileNotFoundError ("Work ticket not found: " ++ ticket_id))),
       w)
  | Some (FText _) => (Raises JSONDecodeError, w)
  | Some (FUnreadable why) => (Raises (TrackerExn (raised_by why)), w)
  | Some (FJson ticket) =>
      a2a_lift
        (ticket ← lift (apply_updates ticket updates);
         t ← now;
         ticket ← lift (setitem ticket "updated_at" (JStr t));
         write_json WORK_TICKETS_DIR tickets_dir set_tickets_dir filename ticket;;
         mret ticket) w
  end.

(** The ticket a file of the directory adds to the result. *)
Definition selected_ticket (files : gmap string file)
    (agent_id component status : option string) (filename : string)
    : option json :=
  match files !! filename with
  | Some (FJson ticket) =>
      match include_ticket agent_id component status ticket with
      | Ok true => Some ticket
      | _ => None
      end
  | _ => None
  end.

(** Every ticket file that loads holds a dictionary, and the others
    are of the kinds the inner handler of the listing skips. *)
Definition tickets_are_objects (files : gmap string file) : Prop :=
  ∀ name f, files !! name = Some f →
    match f with
    | FJson v => is_object v = true
    | FText _ => True
    | FUnreadable why => is_os_error (raised_by why) = true
    end.

(** The dictionary under ["details"], empty when the key is missing. *)
Definition details_of (ticket : gmap string json) : gmap string json :=
  match ticket !! "details" with
  | Some (JObj details) => details
  | _ => ∅
  end.

(** The ticket has nothing but a dictionary under ["details"]. *)
Definition details_mergeable (ticket : gmap string json) : Prop :=
  ticket !! "details" = None ∨ ∃ details, ticket !! "details" = Some (JObj details).

(** * The summary generator

    The parts of [component-summary-generator.py] that read a status
    record or the analysis data of a repository. *)

(** [for x in v]: the elements of a list, the keys of a dictionary, the
    characters of a string.  The order of the keys plays no role where
    the loop is used. *)
Definition py_iter (v : json) : result (list json) :=
  match v with
  | JArr l => Ok l
  | JObj m => Ok (JStr <$> (map_to_list m).*1)
  | JStr s => Ok ((λ c, JStr (String c EmptyString)) <$> list_ascii_of_string s)
  | _ => Raise TypeError
  end.

(** The loop of [extract_active_issues]. *)
Fixpoint active_issues (issues active_issues0 : list json) : result (list json) :=
  match issues with
  | [] => Ok active_issues0
  | issue :: issues =>
      issue_status ← dict_get issue "status" JNull;
      active_issues issues
        (if eq_str issue_status "open" then active_issues0 ++ [issue]
         else active_issues0)
  end.

Definition extract_active_issues (status : json) : result (list json) :=
  issues ← dict_get status "issues" (JArr []);
  issues ← py_iter issues;
  active_issues issues [].

(** Every issue of the record is a dictionary with status open. *)
Definition issues_all_open (status : json) : Prop :=
  ∃ issues,
    getitem status "issues" = Ok (JArr issues) ∧
    Forall (λ issue, ∃ m, issue = JObj m ∧ m !! "status" = Some (JStr "open")) issues.

(** [except (KeyError, AttributeError)] *)
Definition key_or_attribute_error (e : exn) : bool :=
  match e with
  | KeyError _ | AttributeError => true
  | _ => false
  end.

(** [try: return body  except (KeyError, AttributeError): return fallback] *)
Definition try_return {A} (body : result A) (fallback : A) : result A :=
  match body with
  | Ok a => Ok a
  | Raise e => if key_or_attribute_error e then Ok fallback else Raise e
  end.

(** Statements that change a local value one after the other; the value
    is returned as the last statement that ran left it, with the
    exception that ended the run, if any. *)
Fixpoint run_statements {S} (state : S) (statements : list (S → result S))
    : S * option exn :=
  match statements with
  | [] => (state, None)
  | statement :: statements =>
      match statement state with
      | Ok state => run_statements state statements
      | Raise e => (state, Some e)
      end
  end.

(** [try: statements  except (KeyError, AttributeError): pass] followed
    by [return state]. *)
Definition try_pass {S} (outcome : S * option exn) : result S :=
  match outcome with
  | (state, None) => Ok state
  | (state, Some e) => if key_or_attribute_error e then Ok state else Raise e
  end.

(** [repo_data["summary"].get("body", {})] *)
Definition summary_body (repo_data : json) : result json :=
  summary ← getitem repo_data "summary";
  dict_get summary "body" (JObj ∅).

Definition summary_context (repo_data : json) : result json :=
  body ← summary_body repo_data;
  dict_get body "context" (JObj ∅).

Definition extract_component_description (repo_data : json) : result json :=
  try_return
    (context ← summary_context repo_data;
     dict_get context "description" (JStr "No description available"))
    (JStr "No description available").

Definition extract_integration_points (repo_data : json) : result json :=
  try_return
    (context ← summary_context repo_data;
     dict_get context "integration_points" (JArr []))
    (JArr []).

Definition empty_tech_stack : gmap string json :=
  list_to_map [("languages", JArr []); ("frameworks", JArr []);
               ("databases", JArr []); ("key_libraries", JArr [])].

(** [for key in tech_stack] *)
Definition tech_stack_keys : list string :=
  ["languages"; "frameworks"; "databases"; "key_libraries"].

(** [if key in tech_data: tech_stack[key] = tech_data[key]] *)
Definition copy_key (tech_data : json) (key : string) (tech_stack : json)
    : result json :=
  present ← py_contains tech_data key;
  if present : bool
  then value ← getitem tech_data key; setitem tech_stack key value
  else Ok tech_stack.

Definition extract_tech_stack (repo_data : json) : result json :=
  let tech_stack := JObj empty_tech_stack in
  match context ← summary_context repo_data;
        dict_get context "tech_stack" (JObj ∅) with
  | Ok tech_data =>
      try_pass
        (run_statements tech_stack
           (copy_key tech_data <$> tech_stack_keys))
  | Raise e => try_pass (tech_stack, Some e)
  end.

Definition unknown_architecture : gmap string json :=
  list_to_map [("pattern", JStr "unknown"); ("key_dirs", JArr []);
               ("entry_points", JArr [])].

(** [architecture[key] = structure.get(field, fallback)] *)
Definition copy_field (structure : json) (key field : string) (fallback : json)
    (architecture : json) : result json :=
  value ← dict_get structure field fallback;
  setitem architecture key value.

Definition extract_architecture (repo_data : json) : result json :=
  let architecture := JObj unknown_architecture in
  match body ← summary_body repo_data;
        dict_get body "structure" (JObj ∅) with
  | Ok structure =>
      try_pass
        (run_statements architecture
           [copy_field structure "pattern" "architecture_pattern" (JStr "unknown");
            copy_field structure "key_dirs" "domain_dirs" (JArr []);
            copy_field structure "entry_points" "entrypoints" (JArr [])])
  | Raise e => try_pass (architecture, Some e)
  end.

(** A value [key in v] can be asked of. *)
Definition is_container (v : json) : bool :=
  match v with
  | JObj _ | JArr _ | JStr _ => true
  | _ => false
  end.

(** * The components the tracker knows *)

Definition all_known_components : list string :=
  ["HMS-A2A"; "HMS-ABC"; "HMS-ACH"; "HMS-ACT"; "HMS-AGT"; "HMS-AGX"; "HMS-API";
   "HMS-CDF"; "HMS-CUR"; "HMS-DEV"; "HMS-DOC"; "HMS-DTA"; "HMS-EDU"; "HMS-EHR";
   "HMS-EMR"; "HMS-ESQ"; "HMS-ESR"; "HMS-ETL"; "HMS-FLD"; "HMS-GOV"; "HMS-LLM";
   "HMS-MBL"; "HMS-MCP"; "HMS-MED"; "HMS-MFE"; "HMS-MKT"; "HMS-NFO"; "HMS-OMS";
   "HMS-OPS"; "HMS-RED"; "HMS-SCM"; "HMS-SKL"; "HMS-SME"; "HMS-SVC"; "HMS-SYS";
   "HMS-UHC"; "HMS-UTL"].

(** [s.split(sep)[0]] for a separator that is not empty: the text before
    the first [sep], all of [s] when there is none. *)
Fixpoint split_first (s sep : string) : string :=
  if String.prefix sep s then EmptyString
  else match s with
       | String c rest => String c (split_first rest sep)
       | EmptyString => EmptyString
       end.

(** The loop over the summary files: a component is kept when its
    commit file exists. *)
Definition repo_components (entries : list string) : list string :=
  omap (λ file_name,
          let component := split_first file_name "_summary.json" in
          if bool_decide (component ++ "_last_commit.txt" ∈ entries)
          then Some component else None)
       (filter (λ f, endswith f "_summary.json" = true) entries).

(** [get_available_components()], where [repo_logs] is what
    [os.listdir(REPO_LOGS_DIR)] returns, [None] when the directory is
    missing.  The result is [list(set(...))]: each component once, in an
    order that is not specified, hence a set. *)
Definition get_available_components (repo_logs : option (list string))
    : gset string :=
  list_to_set (all_known_components ++ default [] (repo_components <$> repo_logs)).

(** * Lemmas and theorems *)

#[local] Arguments py_add : simpl never.
#[local] Arguments py_gt : simpl never.
#[local] Arguments py_truediv : simpl never.
#[local] Arguments gt_half : simpl never.

(** ** Results about the rule *)

Lemma Ok_inj {A : Type} (a b : A) : Ok a = Ok b → a = b.
Proof. by intros [= ->]. Qed.

Lemma JObj_inj (m1 m2 : gmap string json) : JObj m1 = JObj m2 → m1 = m2.
Proof. by intros [= ->]. Qed.

Lemma operational_status_of_rule (s : start_state) (t : test_state) :
  operational_status_of (JStr (start_name s)) (JStr (test_name t))
  = operational_name (OperationalStatusRule s t).
Proof. destruct s, t; reflexivity. Qed.

Lemma update_operational_status_Ok (m sm tm : gmap string json) (ss ts : json) :
  m !! "start" = Some (JObj sm) → sm !! "status" = Some ss →
  m !! "tests" = Some (JObj tm) → tm !! "status" = Some ts →
  update_operational_status (JObj m)
  = Ok (JObj (<["operational_status" := JStr (operational_status_of ss ts)]> m)).
Proof.
  intros Hs Hss Ht Hts.
  unfold update_operational_status, getitem2, getitem; simpl.
  rewrite Hs; simpl. rewrite Hss; simpl.
  rewrite Ht; simpl. rewrite Hts; reflexivity.
Qed.

(** The nine pairs, one by one. *)
Lemma operational_status_table :
  operational_status_of (JStr "unknown") (JStr "unknown") = "unknown" ∧
  operational_status_of (JStr "unknown") (JStr "passing") = "unknown" ∧
  operational_status_of (JStr "unknown") (JStr "failing") = "unknown" ∧
  operational_status_of (JStr "running") (JStr "unknown") = "unknown" ∧
  operational_status_of (JStr "running") (JStr "passing") = "operational" ∧
  operational_status_of (JStr "running") (JStr "failing") = "degraded" ∧
  operational_status_of (JStr "failed") (JStr "unknown") = "unknown" ∧
  operational_status_of (JStr "failed") (JStr "passing") = "offline" ∧
  operational_status_of (JStr "failed") (JStr "failing") = "offline".
Proof. repeat split. Qed.

(** C1: on a record whose start status is one of unknown, running,
    failed and whose test status is one of unknown, passing, failing,
    [update_operational_status] stores what the precedence rule of the
    specification gives for the pair, and nothing else changes. *)
Theorem C1_rule_follows_precedence (s : start_state) (t : test_state)
    (m sm tm : gmap string json) :
  m !! "start" = Some (JObj sm) → sm !! "status" = Some (JStr (start_name s)) →
  m !! "tests" = Some (JObj tm) → tm !! "status" = Some (JStr (test_name t)) →
  update_operational_status (JObj m)
  = Ok (JObj (<["operational_status" :=
                  JStr (operational_name (OperationalStatusRule s t))]> m)).
Proof.
  intros Hs Hss Ht Hts.
  rewrite (update_operational_status_Ok m sm tm _ _ Hs Hss Ht Hts).
  by rewrite operational_status_of_rule.
Qed.

Lemma C1_rule_follows_precedence_witness :
  let m : gmap string json :=
    {[ "start" := JObj {[ "status" := JStr "running" ]};
       "tests" := JObj {[ "status" := JStr "passing" ]} ]} in
  update_operational_status (JObj m)
  = Ok (JObj (<["operational_status" := JStr "operational"]> m)).
Proof.
  intros m.
  by eapply (C1_rule_follows_precedence StartRunning TestPassing m).
Defined.

(** C4 as stated fails: a running component whose tests never ran is
    reported unknown, not degraded. *)
Lemma C4_running_unknown_not_degraded :
  let m : gmap string json :=
    {[ "start" := JObj {[ "status" := JStr "running" ]};
       "tests" := JObj {[ "status" := JStr "unknown" ]} ]} in
  update_operational_status (JObj m)
  = Ok (JObj (<["operational_status" := JStr "unknown"]> m)) ∧
  update_operational_status (JObj m)
  ≠ Ok (JObj (<["operational_status" := JStr "degraded"]> m)).
Proof.
  intros m.
  assert (H : update_operational_status (JObj m)
              = Ok (JObj (<["operational_status" := JStr "unknown"]> m)))
    by reflexivity.
  split; [exact H|].
  rewrite H. intros Heq%Ok_inj%JObj_inj.
  apply (f_equal (λ d : gmap string json, d !! "operational_status")) in Heq.
  rewrite !lookup_insert_eq in Heq. discriminate.
Qed.

(** C4, amended: on a record whose start status is running and whose
    test status is unknown, [update_operational_status] stores unknown:
    the test for an unknown sub-status comes first in the chain. *)
Theorem C4_running_unknown_is_unknown (m sm tm : gmap string json) :
  m !! "start" = Some (JObj sm) → sm !! "status" = Some (JStr "running") →
  m !! "tests" = Some (JObj tm) → tm !! "status" = Some (JStr "unknown") →
  update_operational_status (JObj m)
  = Ok (JObj (<["operational_status" := JStr "unknown"]> m)).
Proof.
  intros Hs Hss Ht Hts.
  by rewrite (update_operational_status_Ok m sm tm _ _ Hs Hss Ht Hts).
Qed.

Lemma C4_running_unknown_is_unknown_witness :
  let m : gmap string json :=
    {[ "start" := JObj {[ "status" := JStr "running" ]};
       "tests" := JObj {[ "status" := JStr "unknown" ]} ]} in
  update_operational_status (JObj m)
  = Ok (JObj (<["operational_status" := JStr "unknown"]> m)).
Proof.
  intros m.
  by eapply (C4_running_unknown_is_unknown m).
Defined.

(** ** Ticket priority *)

Lemma gt_half_spec (q : Q) :
  gt_half q = true ↔ ((1 # 2) + (1 # 2 ^ 54) < q)%Q.
Proof.
  unfold gt_half. rewrite negb_true_iff. split.
  - intros H. apply Qnot_le_lt. intros Hle.
    apply Qle_bool_iff in Hle. congruence.
  - intros H. destruct (Qle_bool q _) eqn:E; [|done].
    apply Qle_bool_iff in E. exfalso. eapply Qlt_not_le; eauto.
Qed.

(** Below [2^53] the rounding does not show: the rounded ratio exceeds
    one half exactly when the exact one does. *)
Lemma gt_half_small (f t : Z) :
  0 < t → t < 2 ^ 53 →
  (gt_half (inject_Z f / inject_Z t) = true ↔ t < 2 * f).
Proof.
  intros Ht Hsmall. rewrite gt_half_spec.
  destruct t as [|p|p]; try lia.
  unfold Qlt, Qdiv, Qmult, Qinv, Qplus, inject_Z; simpl.
  change (2 ^ 53) with 9007199254740992 in Hsmall. lia.
Qed.

Lemma not_too_large (x y : Z) :
  y ≠ 0 → Z.abs x < 2 ^ 53 → too_large (inject_Z x / inject_Z y) = false.
Proof.
  intros Hy Hx. unfold too_large.
  destruct (Qle_bool _ _) eqn:E; [|done]. exfalso.
  apply Qle_bool_iff in E.
  assert (Hq : (Qabs (inject_Z x / inject_Z y) <= inject_Z (Z.abs x))%Q).
  { destruct y as [|p|p]; [done| |];
      unfold Qle, Qabs, Qdiv, Qmult, Qinv, inject_Z; simpl; nia. }
  pose proof (Qle_trans _ _ _ E Hq) as H.
  unfold Qle, inject_Z in H; simpl in H.
  change (2 ^ 53) with 9007199254740992 in Hx. lia.
Qed.

(** Over a positive total the ratio exceeds one half exactly when the
    failed tests outnumber all the others. *)
Lemma half_lt_quotient (f t : Z) :
  0 < t → ((1 # 2 < inject_Z f / inject_Z t)%Q ↔ t < 2 * f).
Proof.
  intros Ht. destruct t as [|p|p]; try lia.
  unfold Qlt, Qdiv, Qmult, Qinv, inject_Z; simpl. lia.
Qed.

Lemma mostly_failed_iff (f p s : Z) :
  mostly_failed f p s ↔ 0 < f + p + s ∧ f + p + s < 2 * f.
Proof.
  unfold mostly_failed. split.
  - intros [Hpos Hq]. split; [done|]. by apply half_lt_quotient.
  - intros [Hpos Hlt]. split; [done|]. by apply half_lt_quotient.
Qed.

Lemma count_Some (results : json) (k : string) (n : Z) :
  count results k = Some n →
  ∃ v, dict_get results k (JInt 0) = Ok v ∧ as_int v = Some n.
Proof.
  unfold count. destruct (dict_get results k (JInt 0)) as [v|e]; [|done].
  intros H. by exists v.
Qed.

Lemma py_add_int (a b : json) (x y : Z) :
  as_int a = Some x → as_int b = Some y → py_add a b = Ok (JInt (x + y)).
Proof. intros Ha Hb. unfold py_add. by rewrite Ha, Hb. Qed.

Lemma py_gt_int (a b : json) (x y : Z) :
  as_int a = Some x → as_int b = Some y → py_gt a b = Ok (y <? x).
Proof. intros Ha Hb. unfold py_gt. by rewrite Ha, Hb. Qed.

Lemma py_truediv_int (a b : json) (x y : Z) :
  as_int a = Some x → as_int b = Some y → y ≠ 0 → Z.abs x < 2 ^ 53 →
  py_truediv a b = Ok (inject_Z x / inject_Z y)%Q.
Proof.
  intros Ha Hb Hy Hx. unfold py_truediv. rewrite Ha, Hb.
  destruct (y =? 0) eqn:E; [apply Z.eqb_eq in E; done|].
  by rewrite not_too_large.
Qed.

Lemma determine_priority_counts (component : string) (issue results : json)
    (f p s : Z) :
  issue_results issue = Ok results →
  count results "failed" = Some f →
  count results "passed" = Some p →
  count results "skipped" = Some s →
  small_counts f p s →
  determine_priority component "test_failure" issue
  = Ok (if (0 <? f + p + s) && (f + p + s <? 2 * f) then "high" else "medium").
Proof.
  intros Hr (vf & Hf & Hfi)%count_Some (vp & Hp & Hpi)%count_Some
         (vs & Hs & Hsi)%count_Some [Hsmall Htotal].
  unfold determine_priority; simpl.
  rewrite Hr; simpl. rewrite Hf; simpl. rewrite Hp; simpl.
  rewrite (py_add_int vf vp f p Hfi Hpi); simpl.
  rewrite Hs; simpl.
  rewrite (py_add_int (JInt (f + p)) vs (f + p) s eq_refl Hsi); simpl.
  destruct (0 <? f + p + s) eqn:Hpos; simpl; [|done].
  apply Z.ltb_lt in Hpos.
  rewrite (py_truediv_int vf (JInt (f + p + s)) f (f + p + s) Hfi eq_refl);
    [|lia|done].
  simpl.
  pose proof (gt_half_small f (f + p + s) Hpos Htotal) as Hgt.
  destruct (gt_half _).
  - by rewrite (proj2 (Z.ltb_lt _ _) (proj1 Hgt eq_refl)).
  - destruct (f + p + s <? 2 * f) eqn:Hlt; [|done].
    apply Z.ltb_lt, Hgt in Hlt. discriminate.
Qed.

(** Beyond [2^53] the rounding shows.  With one test more failed than
    passed out of [2^53 + 1] the ratio is rounded to one half and the
    priority is medium; a count of [10^400] over a total of 1 is too
    large to divide. *)
Lemma determine_priority_beyond_binary64 :
  let issue (failed passed : Z) : json :=
    JObj {[ "details" :=
              JObj {[ "results" :=
                        JObj (<["failed" := JInt failed]>
                                {[ "passed" := JInt passed ]}) ]} ]} in
  determine_priority "HMS-API" "test_failure" (issue (2 ^ 52 + 1) (2 ^ 52))
  = Ok "medium" ∧
  mostly_failed (2 ^ 52 + 1) (2 ^ 52) 0 ∧
  determine_priority "HMS-API" "test_failure" (issue (10 ^ 400) (1 - 10 ^ 400))
  = Raise OverflowError.
Proof.
  intros issue. split; [by vm_compute|]. split; [|by vm_compute].
  apply mostly_failed_iff. split; by vm_compute.
Qed.

(** C8: a start failure has priority high whatever the issue is; a
    test failure whose counts are below 2^53, where the quotient the
    code computes in binary64 compares with 0.5 as the exact one does,
    has priority high exactly when its results have a positive total
    failed + passed + skipped and failed / total > 0.5, and medium
    otherwise, a total of 0 included. *)
Theorem C8_priority_rule :
  (∀ (component : string) (issue : json),
     determine_priority component "start_failure" issue = Ok "high") ∧
  (∀ (component : string) (issue results : json) (f p s : Z),
     issue_results issue = Ok results →
     count results "failed" = Some f →
     count results "passed" = Some p →
     count results "skipped" = Some s →
     small_counts f p s →
     (determine_priority component "test_failure" issue = Ok "high"
      ↔ mostly_failed f p s) ∧
     (¬ mostly_failed f p s →
      determine_priority component "test_failure" issue = Ok "medium") ∧
     (f + p + s = 0 →
      determine_priority component "test_failure" issue = Ok "medium")).
Proof.
  split; [reflexivity|].
  intros component issue results f p s Hr Hf Hp Hs Hsmall.
  pose proof (determine_priority_counts component issue results f p s Hr Hf Hp Hs
                Hsmall) as Hdp.
  assert (Hiff : (0 <? f + p + s) && (f + p + s <? 2 * f) = true
                 ↔ mostly_failed f p s).
  { by rewrite mostly_failed_iff, andb_true_iff, !Z.ltb_lt. }
  rewrite Hdp.
  destruct ((0 <? f + p + s) && (f + p + s <? 2 * f)).
  - assert (Hm : mostly_failed f p s) by by apply Hiff.
    split; [|split]; [done | done |].
    destruct Hm as [Hpos _]. lia.
  - assert (Hm : ¬ mostly_failed f p s).
    { intros Hm. apply Hiff in Hm. discriminate. }
    split; [|split]; [|done|done].
    split; [discriminate | done].
Qed.

Lemma C8_priority_rule_witness :
  let results (passed failed : Z) : json :=
    JObj (list_to_map [("passed", JInt passed); ("failed", JInt failed);
                       ("skipped", JInt 0)]) in
  let issue (passed failed : Z) : json :=
    new_issue "4d1e" "test_failure" "HMS-API" "2025-01-01T00:00:00" "results"
              (results passed failed) in
  determine_priority "HMS-API" "start_failure" JNull = Ok "high" ∧
  determine_priority "HMS-API" "test_failure" (issue 2 8) = Ok "high" ∧
  determine_priority "HMS-API" "test_failure" (issue 8 2) = Ok "medium" ∧
  determine_priority "HMS-API" "test_failure" (issue 0 0) = Ok "medium".
Proof.
  intros results issue.
  destruct C8_priority_rule as [Hstart Htest].
  split; [apply Hstart|]. split; [|split].
  - destruct (Htest "HMS-API" (issue 2 8) (results 2 8) 8 2 0)
      as (Hhigh & _ & _); [reflexivity | reflexivity | reflexivity | reflexivity
         | split; reflexivity |].
    apply Hhigh. split; [lia|]. unfold Qlt; simpl; lia.
  - destruct (Htest "HMS-API" (issue 8 2) (results 8 2) 2 8 0)
      as (_ & Hmedium & _); [reflexivity | reflexivity | reflexivity | reflexivity
         | split; reflexivity |].
    apply Hmedium. intros [_ H]. unfold Qlt in H; simpl in H; lia.
  - destruct (Htest "HMS-API" (issue 0 0) (results 0 0) 0 0 0)
      as (_ & _ & Hzero); [reflexivity | reflexivity | reflexivity | reflexivity
         | split; reflexivity |].
    apply Hzero. lia.
Defined.

(** ** Running computations *)

Lemma run_bind {A B : Type} (m : M A) (f : A → M B) (w w1 : world) (a : A) :
  m w = (Ok a, w1) → (m ≫= f) w = f a w1.
Proof. intros H. unfold mbind, M_bind. by rewrite H. Qed.

Lemma run_bind_raise {A B : Type} (m : M A) (f : A → M B) (w w1 : world) (e : exn) :
  m w = (Raise e, w1) → (m ≫= f) w = (Raise e, w1).
Proof. intros H. unfold mbind, M_bind. by rewrite H. Qed.

Lemma run_lift {A : Type} (r : result A) (a : A) (w : world) :
  r = Ok a → lift r w = (Ok a, w).
Proof. by intros ->. Qed.

Lemma bind_Ok_inv {A B : Type} (r : result A) (f : A → result B) (b : B) :
  r ≫= f = Ok b → ∃ a, r = Ok a ∧ f a = Ok b.
Proof. destruct r as [a|e]; [|done]. intros H. by exists a. Qed.

Lemma M_bind_Ok_inv {A B : Type} (m : M A) (f : A → M B) (w w' : world) (b : B) :
  (m ≫= f) w = (Ok b, w') → ∃ a w1, m w = (Ok a, w1) ∧ f a w1 = (Ok b, w').
Proof.
  unfold mbind, M_bind. destruct (m w) as [[a|e] w1]; [|done].
  intros H. by exists a, w1.
Qed.

Lemma lift_Ok_inv {A : Type} (r : result A) (a : A) (w w' : world) :
  lift r w = (Ok a, w') → r = Ok a ∧ w' = w.
Proof. unfold lift. by intros [= -> ->]. Qed.

(** ** Loading and saving *)

Lemma get_component_status_absent (component : string) (w : world) :
  (status_file component w = None
   ∨ ∃ text, status_file component w = Some (FText text)) →
  get_component_status component w
  = (Ok (default_status component (clock w (ticks w)) (clock w (S (ticks w)))),
     tick (tick w)).
Proof.
  unfold get_component_status. by intros [-> | [text ->]].
Qed.

(** Loading writes nothing and draws no identifier, whether it
    returns or raises. *)
Lemma get_component_status_total (component : string) (w : world) :
  ∃ outcome w',
    get_component_status component w = (outcome, w') ∧
    status_dir w' = status_dir w ∧ tickets_dir w' = tickets_dir w ∧
    logs_dir w' = logs_dir w ∧ draws w' = draws w.
Proof.
  unfold get_component_status.
  destruct (status_file component w) as [[v|text|why]|]; by eexists _, _.
Qed.

Lemma get_component_status_unreadable (component : string) (why : load_error)
    (w : world) :
  status_file component w = Some (FUnreadable why) →
  get_component_status component w = (Raise (raised_by why), w).
Proof. intros H. unfold get_component_status. by rewrite H. Qed.

(** After [ensure_directories], as [main] calls it first, the three
    directories exist, with the files they had. *)
Lemma ensure_directories_dirs (w : world) :
  ∃ w' d dt dl,
    ensure_directories w = (Ok tt, w') ∧
    status_dir w' = Some d ∧ tickets_dir w' = Some dt ∧ logs_dir w' = Some dl ∧
    (∀ d0, status_dir w = Some d0 → d = d0) ∧
    (∀ d0, tickets_dir w = Some d0 → dt = d0) ∧
    (∀ d0, logs_dir w = Some d0 → dl = d0).
Proof.
  eexists _, _, _, _. split; [reflexivity|]. simpl.
  do 3 (split; [reflexivity|]).
  split; [|split]; by intros d0 ->.
Qed.




Lemma write_json_Ok (dir_name : string) (get : world → option (gmap string file))
    (set : option (gmap string file) → world → world) (name : string) (v : json)
    (w : world) (d : gmap string file) :
  get w = Some d →
  write_json dir_name get set name v w
  = (Ok tt, set (Some (<[name := FJson v]> d)) w).
Proof. intros H. unfold write_json. by rewrite H. Qed.

Lemma update_component_status_Ok (component : string) (m : gmap string json)
    (w : world) (d : gmap string file) :
  status_dir w = Some d →
  update_component_status component (JObj m) w
  = (Ok (JObj (<["last_updated" := JStr (clock w (ticks w))]> m)),
     set_status_dir
       (Some (<[get_status_file_path component :=
                  FJson (JObj (<["last_updated" := JStr (clock w (ticks w))]> m))]> d))
       (tick w)).
Proof.
  intros Hd. unfold update_component_status.
  erewrite run_bind by reflexivity.
  erewrite run_bind by (apply run_lift; reflexivity).
  erewrite run_bind by (by apply write_json_Ok).
  reflexivity.
Qed.

Lemma get_component_status_stored (component : string) (v : json) (w : world) :
  status_file component w = Some (FJson v) →
  get_component_status component w = (Ok v, w).
Proof. intros H. unfold get_component_status. by rewrite H. Qed.













(** ** Steps on records *)

Lemma setitem2_Ok (m sm : gmap string json) (k1 k2 : string) (x : json) :
  m !! k1 = Some (JObj sm) →
  setitem2 (JObj m) k1 k2 x = Ok (JObj (<[k1 := JObj (<[k2 := x]> sm)]> m)).
Proof. intros H. unfold setitem2, getitem. by rewrite H. Qed.

Lemma getitem2_Ok (m sm : gmap string json) (k1 k2 : string) (v : json) :
  m !! k1 = Some (JObj sm) → sm !! k2 = Some v →
  getitem2 (JObj m) k1 k2 = Ok v.
Proof.
  intros H1 H2. unfold getitem2, getitem. rewrite H1; simpl. by rewrite H2.
Qed.

Lemma increment_Ok (m sm : gmap string json) (k1 k2 : string) (v : json) (n : Z) :
  m !! k1 = Some (JObj sm) → sm !! k2 = Some v → as_int v = Some n →
  increment (JObj m) k1 k2
  = Ok (JObj (<[k1 := JObj (<[k2 := JInt (n + 1)]> sm)]> m)).
Proof.
  intros H1 H2 Hn. unfold increment, getitem.
  rewrite H1; simpl. rewrite H2; simpl.
  by rewrite (py_add_int v (JInt 1) n 1 Hn eq_refl).
Qed.

Lemma append_issue_Ok (m : gmap string json) (l : list json) (issue : json) :
  m !! "issues" = Some (JArr l) →
  append_issue (JObj m) issue = Ok (JObj (<["issues" := JArr (l ++ [issue])]> m)).
Proof. intros H. unfold append_issue, getitem. by rewrite H. Qed.

Lemma open_append_Ok (name : string) (w : world) (d : gmap string string) :
  logs_dir w = Some d →
  open_append name w
  = (Ok tt, set_logs_dir (Some (<[name := default EmptyString (d !! name)]> d)) w).
Proof. intros H. unfold open_append. by rewrite H. Qed.

Lemma write_append_Ok (name line : string) (w : world) (d : gmap string string) :
  logs_dir w = Some d →
  write_append name line w
  = (Ok tt, set_logs_dir (Some (<[name := default EmptyString (d !! name) ++ line]> d)) w).
Proof. intros H. unfold write_append. by rewrite H. Qed.

(** Symbolic execution: one statement of a computation at a time. *)
Ltac solve_lookup :=
  lazymatch goal with
  | |- ?m !! _ = _ => tryif is_evar m then fail else idtac
  end;
  repeat first [ apply lookup_insert_eq | rewrite lookup_insert_ne by discriminate ];
  eassumption.

Ltac world_simpl :=
  cbn [status_dir tickets_dir logs_dir clock ticks uuids draws
       set_status_dir set_tickets_dir set_logs_dir tick draw].

Ltac world_norm :=
  unfold set_status_dir, set_tickets_dir, set_logs_dir, tick, draw;
  cbn [status_dir tickets_dir logs_dir clock ticks uuids draws].

Ltac pure_step :=
  first
    [ apply setitem2_Ok; solve_lookup
    | eapply increment_Ok;
        [solve_lookup | solve_lookup | first [eassumption | reflexivity]]
    | eapply getitem2_Ok; [solve_lookup | solve_lookup]
    | apply append_issue_Ok; solve_lookup
    | eapply update_operational_status_Ok;
        [solve_lookup | solve_lookup | solve_lookup | solve_lookup]
    | eapply py_gt_int; first [eassumption | reflexivity]
    | eassumption
    | reflexivity ].

Ltac run_step :=
  first
    [ erewrite run_bind by eassumption
    | erewrite run_bind by (apply run_lift; pure_step)
    | erewrite run_bind by (eapply write_json_Ok; world_simpl; eassumption)
    | erewrite run_bind by (eapply open_append_Ok; world_simpl; eassumption)
    | erewrite run_bind by reflexivity ];
  cbv beta; rewrite ?insert_insert_eq.

(** ** The ticket generator *)

Section TicketGenerator.
Variables (component issue_type : string) (issue issue_id : json).
Variables (priority description : string) (w : world) (dt : gmap string file).
Hypothesis Hid : getitem issue "id" = Ok issue_id.
Hypothesis Hprio : determine_priority component issue_type issue = Ok priority.
Hypothesis Hdesc :
  generate_ticket_description component issue_type issue = Ok description.
Hypothesis Hdt : tickets_dir w = Some dt.

Let agent : string := determine_responsible_agent component issue_type.
Let ticket_id : string := "WRK-" ++ substring 0 8 (uuids w (draws w)).
Let ticket : json :=
  work_ticket ticket_id component issue_id issue_type (clock w (ticks w)) agent
    priority issue description (generate_suggested_actions component issue_type).

Lemma generate_work_ticket_Ok (dl : gmap string string) :
  logs_dir w = Some dl →
  generate_work_ticket component issue_type issue w
  = (Ok ticket_id,
     mkWorld (status_dir w)
       (Some (<[ticket_id ++ ".json" := FJson ticket]> dt))
       (Some (<["notifications.log" :=
                  default EmptyString (dl !! "notifications.log")
                  ++ notification_line (clock w (S (ticks w))) agent ticket_id
                       component issue_type]> dl))
       (clock w) (S (S (ticks w))) (uuids w) (S (draws w))).
Proof using Hid Hprio Hdesc Hdt.
  intros Hdl.
  unfold generate_work_ticket.
  do 6 run_step.
  unfold notify_agent_about_ticket.
  erewrite run_bind.
  2: { do 4 run_step.
       apply write_append_Ok. world_simpl. reflexivity. }
  cbv beta. world_norm.
  rewrite lookup_insert_eq, insert_insert_eq. reflexivity.
Qed.

Lemma generate_work_ticket_no_logs :
  logs_dir w = None →
  generate_work_ticket component issue_type issue w
  = (Raise (FileNotFoundError "logs/notifications.log"),
     mkWorld (status_dir w)
       (Some (<[ticket_id ++ ".json" := FJson ticket]> dt))
       None (clock w) (S (ticks w)) (uuids w) (S (draws w))).
Proof using Hid Hprio Hdesc Hdt.
  intros Hdl.
  unfold generate_work_ticket.
  do 6 run_step.
  unfold notify_agent_about_ticket.
  erewrite run_bind_raise.
  2: { erewrite run_bind_raise; [reflexivity|].
       unfold open_append. world_simpl. rewrite Hdl. reflexivity. }
  world_norm. by rewrite Hdl.
Qed.

End TicketGenerator.

(** C5 as stated fails: with no [LOGS_DIR] to append to, the ticket
    generator raises instead of returning the ticket id. *)
Lemma C5_notification_failure_raises :
  let w := mkWorld (Some ∅) (Some ∅) None (λ _, "2025-01-01T00:00:00") 0
                   (λ _, "0123456789abcdef0123456789abcdef") 0 in
  let issue := new_issue "4d1e" "start_failure" "HMS-API" "2025-01-01T00:00:00"
                         "output" JNull in
  (∃ w', generate_work_ticket "HMS-API" "start_failure" issue w
         = (Raise (FileNotFoundError "logs/notifications.log"), w')) ∧
  (∀ ticket_id w', generate_work_ticket "HMS-API" "start_failure" issue w
                   ≠ (Ok ticket_id, w')).
Proof.
  intros w issue.
  pose proof (generate_work_ticket_no_logs "HMS-API" "start_failure" issue
                (JStr "4d1e") "high" _ w ∅ eq_refl eq_refl eq_refl eq_refl eq_refl)
    as Hrun.
  cbv zeta in Hrun. split.
  - eexists. exact Hrun.
  - intros ticket_id w'. rewrite Hrun. discriminate.
Qed.

(** C5, amended: when the notification log cannot be appended to, the
    ticket record is already in [WORK_TICKETS_DIR], and the failure
    leaves [generate_work_ticket] as an exception: no ticket id is
    returned. *)
Theorem C5_ticket_persisted_then_raises (component issue_type : string)
    (issue issue_id : json) (priority description : string) (w : world)
    (dt : gmap string file) :
  getitem issue "id" = Ok issue_id →
  determine_priority component issue_type issue = Ok priority →
  generate_ticket_description component issue_type issue = Ok description →
  tickets_dir w = Some dt → logs_dir w = None →
  ∃ w',
    generate_work_ticket component issue_type issue w
    = (Raise (FileNotFoundError "logs/notifications.log"), w') ∧
    let ticket_id := "WRK-" ++ substring 0 8 (uuids w (draws w)) in
    tickets_dir w'
    = Some (<[ticket_id ++ ".json" :=
               FJson (work_ticket ticket_id component issue_id issue_type
                        (clock w (ticks w))
                        (determine_responsible_agent component issue_type)
                        priority issue description
                        (generate_suggested_actions component issue_type))]> dt) ∧
    status_dir w' = status_dir w.
Proof.
  intros Hid Hprio Hdesc Hdt Hdl. eexists. split.
  - by eapply generate_work_ticket_no_logs.
  - done.
Qed.

Lemma C5_ticket_persisted_then_raises_witness :
  let w := mkWorld (Some ∅) (Some ∅) None (λ _, "2025-01-01T00:00:00") 0
                   (λ _, "0123456789abcdef0123456789abcdef") 0 in
  let issue := new_issue "4d1e" "start_failure" "HMS-API" "2025-01-01T00:00:00"
                         "output" JNull in
  ∃ w' ticket,
    generate_work_ticket "HMS-API" "start_failure" issue w
    = (Raise (FileNotFoundError "logs/notifications.log"), w') ∧
    tickets_dir w' = Some {[ "WRK-01234567.json" := FJson ticket ]}.
Proof.
  intros w issue.
  destruct (C5_ticket_persisted_then_raises "HMS-API" "start_failure" issue
              (JStr "4d1e") "high" _ w ∅ eq_refl eq_refl eq_refl eq_refl eq_refl)
    as (w' & Hrun & Hticket & _).
  exists w'. eexists. split; [exact Hrun|]. exact Hticket.
Defined.

(** ** What the recording operations do to [STATUS_DIR] *)

Lemma keeps_ret {A : Type} (a : A) : keeps_status_dir (mret a : M A).
Proof. by intros w. Qed.

Lemma keeps_lift {A : Type} (r : result A) : keeps_status_dir (lift r).
Proof. by intros w. Qed.

Lemma keeps_now : keeps_status_dir now.
Proof. by intros w. Qed.

Lemma keeps_uuid4 : keeps_status_dir uuid4.
Proof. by intros w. Qed.

Lemma keeps_bind {A B : Type} (m : M A) (f : A → M B) :
  keeps_status_dir m → (∀ a, keeps_status_dir (f a)) →
  keeps_status_dir (m ≫= f).
Proof.
  intros Hm Hf w. unfold mbind, M_bind.
  specialize (Hm w). destruct (m w) as [[a|e] w1]; simpl in *; [|done].
  by rewrite Hf.
Qed.

Lemma keeps_write_ticket (name : string) (v : json) :
  keeps_status_dir (write_json WORK_TICKETS_DIR tickets_dir set_tickets_dir name v).
Proof. intros w. unfold write_json. by destruct (tickets_dir w). Qed.

Lemma keeps_open_append (name : string) : keeps_status_dir (open_append name).
Proof. intros w. unfold open_append. by destruct (logs_dir w). Qed.

Lemma keeps_write_append (name line : string) :
  keeps_status_dir (write_append name line).
Proof. intros w. unfold write_append. by destruct (logs_dir w). Qed.

Lemma keeps_get_component_status (component : string) :
  keeps_status_dir (get_component_status component).
Proof.
  intros w. unfold get_component_status.
  by destruct (status_file component w) as [[v|text|why]|].
Qed.

Ltac keeps :=
  repeat lazymatch goal with
    | |- keeps_status_dir (mbind _ _) => apply keeps_bind; [|intros ?]
    | |- keeps_status_dir (mret _) => apply keeps_ret
    | |- keeps_status_dir (lift _) => apply keeps_lift
    | |- keeps_status_dir now => apply keeps_now
    | |- keeps_status_dir uuid4 => apply keeps_uuid4
    | |- keeps_status_dir (write_json _ tickets_dir _ _ _) =>
        apply keeps_write_ticket
    | |- keeps_status_dir (open_append _) => apply keeps_open_append
    | |- keeps_status_dir (write_append _ _) => apply keeps_write_append
    | |- keeps_status_dir (get_component_status _) =>
        apply keeps_get_component_status
    | |- keeps_status_dir (if ?b then _ else _) => destruct b
    end.

Lemma keeps_generate_work_ticket (component issue_type : string) (issue : json) :
  keeps_status_dir (generate_work_ticket component issue_type issue).
Proof. unfold generate_work_ticket, notify_agent_about_ticket. keeps. Qed.

Lemma saves_or_keeps_bind {A : Type} (component : string) (Q : json → Prop)
    (m : M A) (f : A → M json) :
  keeps_status_dir m → (∀ a, saves_or_keeps component Q (f a)) →
  saves_or_keeps component Q (m ≫= f).
Proof.
  intros Hm Hf w. unfold mbind, M_bind.
  specialize (Hm w). destruct (m w) as [[a|e] w1]; simpl in *; [|done].
  specialize (Hf a w1). destruct (f a w1) as [[st|e] w2]; by rewrite <- Hm.
Qed.

Lemma getitem2_insert_ne (m : gmap string json) (k k1 k2 : string) (v : json) :
  k ≠ k1 → getitem2 (JObj (<[k := v]> m)) k1 k2 = getitem2 (JObj m) k1 k2.
Proof. intros Hk. unfold getitem2, getitem. by rewrite lookup_insert_ne. Qed.

Lemma field_int_insert_ne (m : gmap string json) (k k1 k2 : string) (v : json) :
  k ≠ k1 → field_int (JObj (<[k := v]> m)) k1 k2 = field_int (JObj m) k1 k2.
Proof. intros Hk. unfold field_int. by rewrite getitem2_insert_ne. Qed.

Lemma update_operational_status_inv (status status' : json) :
  update_operational_status status = Ok status' →
  ∃ m start_status test_status,
    status = JObj m ∧
    getitem2 status "start" "status" = Ok start_status ∧
    getitem2 status "tests" "status" = Ok test_status ∧
    status' = JObj (<["operational_status" :=
                        JStr (operational_status_of start_status test_status)]> m).
Proof.
  unfold update_operational_status.
  intros (ss & Hss & (ts & Hts & Hset)%bind_Ok_inv)%bind_Ok_inv.
  destruct status as [| | | | |m]; try discriminate.
  exists m, ss, ts. simpl in Hset. by injection Hset as <-.
Qed.

Lemma update_operational_status_derived (status status' : json) :
  update_operational_status status = Ok status' → derived status'.
Proof.
  intros (m & ss & ts & -> & Hss & Hts & ->)%update_operational_status_inv.
  exists ss, ts. rewrite !getitem2_insert_ne by done.
  split; [done|]. split; [done|].
  unfold getitem. by rewrite lookup_insert_eq.
Qed.

Lemma derived_last_updated (m : gmap string json) (v : json) :
  derived (JObj m) → derived (JObj (<["last_updated" := v]> m)).
Proof.
  intros (ss & ts & Hss & Hts & Hop). exists ss, ts.
  rewrite !getitem2_insert_ne by done.
  split; [done|]. split; [done|].
  unfold getitem in *. by rewrite lookup_insert_ne.
Qed.

Lemma update_component_status_outcome (component : string) (status : json)
    (w : world) :
  match update_component_status component status w with
  | (Ok status', w') =>
      ∃ m d,
        status = JObj m ∧ status_dir w = Some d ∧
        status' = JObj (<["last_updated" := JStr (clock w (ticks w))]> m) ∧
        status_dir w' = Some (<[get_status_file_path component := FJson status']> d)
  | (Raise _, w') => status_dir w' = status_dir w
  end.
Proof.
  destruct status as [| | | | |m]; try reflexivity.
  destruct (status_dir w) as [d|] eqn:Hd.
  - rewrite (update_component_status_Ok component m w d Hd). by exists m, d.
  - unfold update_component_status.
    erewrite run_bind by reflexivity.
    erewrite run_bind by (apply run_lift; reflexivity).
    erewrite run_bind_raise.
    2: { unfold write_json. world_simpl. rewrite Hd. reflexivity. }
    exact Hd.
Qed.

(** The last two statements of both recording operations. *)
Lemma saves_or_keeps_tail (component : string) (status : json) :
  saves_or_keeps component derived
    (status' ← lift (update_operational_status status);
     update_component_status component status').
Proof.
  intros w. unfold mbind at 1, M_bind, lift.
  destruct (update_operational_status status) as [st1|e] eqn:Huos; [|done].
  pose proof (update_operational_status_derived _ _ Huos) as Hder.
  pose proof (update_component_status_outcome component st1 w) as Hsave.
  destruct (update_component_status component st1 w) as [[st2|e] w2]; [|done].
  destruct Hsave as (m & d & -> & Hd & -> & Hw2).
  rewrite Hw2, Hd. split; [done|]. split; [by eexists|].
  by apply derived_last_updated.
Qed.

Lemma record_component_start_outcome (component : string) (success : bool)
    (output : option string) :
  saves_or_keeps component derived (record_component_start component success output).
Proof.
  unfold record_component_start.
  do 4 (apply saves_or_keeps_bind; [by keeps | intros ?]).
  apply saves_or_keeps_bind; [|intros ?; apply saves_or_keeps_tail].
  destruct success; keeps. apply keeps_generate_work_ticket.
Qed.

Lemma record_test_run_outcome (component : string) (success : bool)
    (results : option json) :
  saves_or_keeps component derived (record_test_run component success results).
Proof.
  unfold record_test_run.
  do 4 (apply saves_or_keeps_bind; [by keeps | intros ?]).
  apply saves_or_keeps_bind.
  { destruct success; keeps. apply keeps_generate_work_ticket. }
  intros ?. apply saves_or_keeps_bind; [by keeps | intros ?].
  apply saves_or_keeps_tail.
Qed.

Lemma saves_or_keeps_file (component : string) (Q : json → Prop) (m : M json)
    (w w' : world) (status : json) :
  saves_or_keeps component Q m → m w = (Ok status, w') →
  status_file component w' = Some (FJson status) ∧ Q status.
Proof.
  intros Hm Hrun. specialize (Hm w). rewrite Hrun in Hm.
  destruct Hm as (Hdir & [d Hd] & HQ). split; [|done].
  unfold status_file. rewrite Hdir, Hd; simpl. by rewrite lookup_insert_eq.
Qed.

Lemma derived_follows_rule (status : json) : derived status → follows_rule status.
Proof.
  intros (ss & ts & Hss & Hts & Hop) s t Hs Ht.
  rewrite Hs in Hss. rewrite Ht in Hts.
  injection Hss as <-. injection Hts as <-.
  by rewrite Hop, operational_status_of_rule.
Qed.

(** ** A successful start *)

Lemma record_start_success_run (component : string) (output : option string)
    (w w0 : world) (m sm tm : gmap string json) (va vs ts : json) (a s : Z)
    (d : gmap string file) :
  get_component_status component w = (Ok (JObj m), w0) →
  m !! "start" = Some (JObj sm) →
  sm !! "attempts" = Some va → as_int va = Some a →
  sm !! "successes" = Some vs → as_int vs = Some s →
  m !! "tests" = Some (JObj tm) → tm !! "status" = Some ts →
  status_dir w0 = Some d →
  let start :=
    <["status" := JStr "running"]>
      (<["successes" := JInt (s + 1)]>
         (<["last_success" := JStr (clock w0 (S (ticks w0)))]>
            (<["attempts" := JInt (a + 1)]>
               (<["last_attempt" := JStr (clock w0 (ticks w0))]> sm)))) in
  let final :=
    JObj (<["last_updated" := JStr (clock w0 (S (S (ticks w0))))]>
            (<["operational_status" :=
                 JStr (operational_status_of (JStr "running") ts)]>
               (<["start" := JObj start]> m))) in
  record_component_start component true output w
  = (Ok final,
     mkWorld (Some (<[get_status_file_path component := FJson final]> d))
             (tickets_dir w0) (logs_dir w0) (clock w0) (S (S (S (ticks w0))))
             (uuids w0) (draws w0)).
Proof.
  intros Hload Hstart Ha Hai Hs Hsi Htests Hts Hd start final.
  unfold record_component_start.
  do 4 run_step.
  erewrite run_bind.
  2: { do 3 run_step. apply run_lift. pure_step. }
  cbv beta. rewrite ?insert_insert_eq.
  run_step.
  erewrite update_component_status_Ok by (world_simpl; eassumption).
  world_norm. reflexivity.
Qed.




(** ** A failed start *)

Section FailedStart.
Variables (component : string) (output : option string) (w w0 : world).
Variables (m sm tm : gmap string json) (va vs vf ts : json) (a s f : Z).
Variables (l : list json) (d : gmap string file).
Hypothesis Hload : get_component_status component w = (Ok (JObj m), w0).
Hypothesis Hstart : m !! "start" = Some (JObj sm).
Hypothesis Ha : sm !! "attempts" = Some va.
Hypothesis Hai : as_int va = Some a.
Hypothesis Hs : sm !! "successes" = Some vs.
Hypothesis Hsi : as_int vs = Some s.
Hypothesis Hf : sm !! "failures" = Some vf.
Hypothesis Hfi : as_int vf = Some f.
Hypothesis Hl : m !! "issues" = Some (JArr l).
Hypothesis Htests : m !! "tests" = Some (JObj tm).
Hypothesis Hts : tm !! "status" = Some ts.
Hypothesis Hd : status_dir w0 = Some d.

Let issue_id : string := uuid_str (uuids w0 (draws w0)).
Let issue : json :=
  new_issue issue_id "start_failure" component (clock w0 (S (ticks w0)))
            "output" (opt_str output).
Let start : gmap string json :=
  <["status" := JStr "failed"]>
    (<["failures" := JInt (f + 1)]>
       (<["attempts" := JInt (a + 1)]>
          (<["last_attempt" := JStr (clock w0 (ticks w0))]> sm))).
Let final (last_updated : string) : json :=
  JObj (<["last_updated" := JStr last_updated]>
          (<["operational_status" :=
               JStr (operational_status_of (JStr "failed") ts)]>
             (<["issues" := JArr (l ++ [issue])]>
                (<["start" := JObj start]> m)))).

(** Failures now outnumber successes: a ticket is written. *)
Lemma record_start_failure_ticket (dt : gmap string file) (dl : gmap string string) :
  tickets_dir w0 = Some dt → logs_dir w0 = Some dl → s < f + 1 →
  let saved := final (clock w0 (S (S (S (S (ticks w0)))))) in
  let ticket_id := "WRK-" ++ substring 0 8 (uuids w0 (S (draws w0))) in
  let ticket :=
    work_ticket ticket_id component (JStr issue_id) "start_failure"
      (clock w0 (S (S (ticks w0)))) "HMS-DEV" "high" issue
      ("The " ++ component ++ " component failed to start. This is affecting the operational status of the HMS ecosystem and should be resolved as soon as possible.")
      (generate_suggested_actions component "start_failure") in
  record_component_start component false output w
  = (Ok saved,
     mkWorld (Some (<[get_status_file_path component := FJson saved]> d))
       (Some (<[ticket_id ++ ".json" := FJson ticket]> dt))
       (Some (<["notifications.log" :=
                  default EmptyString (dl !! "notifications.log")
                  ++ notification_line (clock w0 (S (S (S (ticks w0))))) "HMS-DEV"
                       ticket_id component "start_failure"]> dl))
       (clock w0) (S (S (S (S (S (ticks w0)))))) (uuids w0) (S (S (draws w0)))).
Proof using Hload Hstart Ha Hai Hs Hsi Hf Hfi Hl Htests Hts Hd.
  intros Hdt Hdl Hlt saved ticket_id ticket.
  unfold record_component_start.
  do 4 run_step.
  erewrite run_bind.
  2: { do 8 run_step.
       rewrite (proj2 (Z.ltb_lt s (f + 1)) Hlt).
       erewrite run_bind.
       2: { erewrite run_bind; [reflexivity|].
            eapply generate_work_ticket_Ok; try reflexivity;
              world_simpl; eassumption. }
       reflexivity. }
  cbv beta. rewrite ?insert_insert_eq.
  run_step.
  erewrite update_component_status_Ok by (world_simpl; eassumption).
  world_norm. reflexivity.
Qed.

(** Successes still hold the lead: the generator is not called. *)
Lemma record_start_failure_quiet :
  f + 1 ≤ s →
  let saved := final (clock w0 (S (S (ticks w0)))) in
  record_component_start component false output w
  = (Ok saved,
     mkWorld (Some (<[get_status_file_path component := FJson saved]> d))
       (tickets_dir w0) (logs_dir w0)
       (clock w0) (S (S (S (ticks w0)))) (uuids w0) (S (draws w0))).
Proof using Hload Hstart Ha Hai Hs Hsi Hf Hfi Hl Htests Hts Hd.
  intros Hle saved.
  unfold record_component_start.
  do 4 run_step.
  erewrite run_bind.
  2: { do 8 run_step.
       rewrite (proj2 (Z.ltb_ge s (f + 1)) Hle).
       reflexivity. }
  cbv beta. rewrite ?insert_insert_eq.
  run_step.
  erewrite update_component_status_Ok by (world_simpl; eassumption).
  world_norm. reflexivity.
Qed.

End FailedStart.

Lemma field_int_inv (status : json) (k1 k2 : string) (n : Z) :
  field_int status k1 k2 = Some n →
  ∃ m sm v,
    status = JObj m ∧ m !! k1 = Some (JObj sm) ∧ sm !! k2 = Some v ∧
    as_int v = Some n.
Proof.
  unfold field_int, getitem2, getitem.
  destruct status as [| | | | |m]; try discriminate.
  destruct (m !! k1) as [[| | | | |sm]|] eqn:H1; try discriminate.
  simpl. destruct (sm !! k2) as [v|] eqn:H2; [|discriminate].
  intros Hv. by exists m, sm, v.
Qed.

Lemma getitem2_inv (status : json) (k1 k2 : string) (v : json) :
  getitem2 status k1 k2 = Ok v →
  ∃ m sm, status = JObj m ∧ m !! k1 = Some (JObj sm) ∧ sm !! k2 = Some v.
Proof.
  unfold getitem2, getitem.
  destruct status as [| | | | |m]; try discriminate.
  destruct (m !! k1) as [[| | | | |sm]|] eqn:H1; try discriminate.
  simpl. destruct (sm !! k2) as [v'|] eqn:H2; [|discriminate].
  intros [= ->]. by exists m, sm.
Qed.

Lemma getitem_inv (status : json) (k : string) (v : json) :
  getitem status k = Ok v → ∃ m, status = JObj m ∧ m !! k = Some v.
Proof.
  unfold getitem. destruct status as [| | | | |m]; try discriminate.
  destruct (m !! k) as [v'|] eqn:H; [|discriminate].
  intros [= ->]. by exists m.
Qed.

(** Reading fields of a record given by its insertions. *)
Ltac read_fields :=
  unfold field_int, getitem2, getitem;
  repeat (first [ rewrite lookup_insert_eq
                | rewrite lookup_insert_ne by discriminate ];
          cbn [mbind result_bind as_int]).



(** ** Counters *)

Lemma setitem2_inv (status status' : json) (k1 k2 : string) (x : json) :
  setitem2 status k1 k2 x = Ok status' →
  ∃ m sm, status = JObj m ∧ m !! k1 = Some (JObj sm) ∧
          status' = JObj (<[k1 := JObj (<[k2 := x]> sm)]> m).
Proof.
  unfold setitem2, getitem.
  destruct status as [| | | | |m]; try discriminate.
  destruct (m !! k1) as [[| | | | |sm]|] eqn:H1; try discriminate.
  simpl. intros [= <-]. by exists m, sm.
Qed.

Lemma field_int_insert2 (m sm : gmap string json) (k1 k2 j1 j2 : string) (x : json) :
  m !! k1 = Some (JObj sm) → j1 ≠ k1 ∨ j2 ≠ k2 →
  field_int (JObj (<[k1 := JObj (<[k2 := x]> sm)]> m)) j1 j2
  = field_int (JObj m) j1 j2.
Proof.
  intros Hm Hne. unfold field_int, getitem2, getitem.
  destruct (decide (j1 = k1)) as [->|Hj1].
  - rewrite lookup_insert_eq, Hm; simpl.
    destruct Hne as [Hne|Hne]; [done|]. by rewrite lookup_insert_ne.
  - by rewrite lookup_insert_ne.
Qed.

Lemma setitem2_frame (status status' : json) (k1 k2 j1 j2 : string) (x : json) :
  setitem2 status k1 k2 x = Ok status' → j1 ≠ k1 ∨ j2 ≠ k2 →
  field_int status' j1 j2 = field_int status j1 j2.
Proof.
  intros (m & sm & -> & Hm & ->)%setitem2_inv Hne. by apply field_int_insert2.
Qed.

Lemma py_add_one_inv (v v' : json) :
  py_add v (JInt 1) = Ok v' → ∃ n, as_int v = Some n ∧ v' = JInt (n + 1).
Proof.
  unfold py_add. destruct (as_int v) as [n|] eqn:Hn; simpl.
  - intros [= <-]. by exists n.
  - by destruct v.
Qed.

Lemma increment_inv (status status' : json) (k1 k2 : string) :
  increment status k1 k2 = Ok status' →
  ∃ n, field_int status k1 k2 = Some n ∧
       field_int status' k1 k2 = Some (n + 1) ∧
       ∀ j1 j2, j1 ≠ k1 ∨ j2 ≠ k2 →
                field_int status' j1 j2 = field_int status j1 j2.
Proof.
  unfold increment, getitem.
  destruct status as [| | | | |m]; try discriminate.
  destruct (m !! k1) as [[| | | | |sm]|] eqn:H1; try discriminate.
  simpl. destruct (sm !! k2) as [v|] eqn:H2; [|discriminate]. simpl.
  intros (v' & (n & Hn & ->)%py_add_one_inv & [= <-])%bind_Ok_inv.
  exists n. split; [|split].
  - unfold field_int, getitem2, getitem. rewrite H1; simpl. by rewrite H2.
  - unfold field_int, getitem2, getitem. rewrite lookup_insert_eq; simpl.
    by rewrite lookup_insert_eq.
  - intros j1 j2 Hne. by apply field_int_insert2.
Qed.

Lemma append_issue_frame (status status' issue : json) (j1 j2 : string) :
  append_issue status issue = Ok status' → j1 ≠ "issues" →
  field_int status' j1 j2 = field_int status j1 j2.
Proof.
  unfold append_issue, getitem.
  destruct status as [| | | | |m]; try discriminate.
  destruct (m !! "issues") as [[| | | |l|]|]; try discriminate.
  simpl. intros [= <-] Hne. by apply field_int_insert_ne.
Qed.

Lemma update_operational_status_frame (status status' : json) (j1 j2 : string) :
  update_operational_status status = Ok status' → j1 ≠ "operational_status" →
  field_int status' j1 j2 = field_int status j1 j2.
Proof.
  intros (m & ss & ts & -> & _ & _ & ->)%update_operational_status_inv Hne.
  by apply field_int_insert_ne.
Qed.

(** Taking a finished run apart, statement by statement. *)
Ltac invert_run H :=
  repeat (apply M_bind_Ok_inv in H as (? & ? & ? & H));
  repeat match goal with
    | H' : lift _ _ = (Ok _, _) |- _ => apply lift_Ok_inv in H' as [H' ->]
    | H' : mret _ _ = (Ok _, _) |- _ => injection H' as <- <-
    end.

Ltac frame_condition :=
  first [ discriminate | left; discriminate | right; discriminate ].

Lemma increment_same (status status' : json) (k1 k2 : string) (n : Z) :
  increment status k1 k2 = Ok status' → field_int status k1 k2 = Some n →
  field_int status' k1 k2 = Some (n + 1).
Proof.
  intros (n' & Hn & Hn' & _)%increment_inv Hfield.
  rewrite Hn in Hfield. by injection Hfield as <-.
Qed.

Lemma increment_frame (status status' : json) (k1 k2 j1 j2 : string) :
  increment status k1 k2 = Ok status' → j1 ≠ k1 ∨ j2 ≠ k2 →
  field_int status' j1 j2 = field_int status j1 j2.
Proof. intros (n' & _ & _ & Hframe)%increment_inv Hne. by apply Hframe. Qed.

Lemma setitem_frame (status status' : json) (k j1 j2 : string) (x : json) :
  setitem status k x = Ok status' → j1 ≠ k →
  field_int status' j1 j2 = field_int status j1 j2.
Proof.
  destruct status as [| | | | |m]; try discriminate.
  intros [= <-] Hne. by apply field_int_insert_ne.
Qed.

(** The value of a counter at the end of a run, from the statements
    that made the final record. *)
Ltac chase :=
  lazymatch goal with
  | |- field_int ?X ?j1 ?j2 = _ =>
      first
        [ eassumption
        | match goal with
          | H : setitem2 _ _ _ _ = Ok X |- _ =>
              rewrite (setitem2_frame _ _ _ _ j1 j2 _ H) by frame_condition
          | H : setitem _ _ _ = Ok X |- _ =>
              rewrite (setitem_frame _ _ _ j1 j2 _ H) by frame_condition
          | H : append_issue _ _ = Ok X |- _ =>
              rewrite (append_issue_frame _ _ _ j1 j2 H) by frame_condition
          | H : update_operational_status _ = Ok X |- _ =>
              rewrite (update_operational_status_frame _ _ j1 j2 H)
                by frame_condition
          | H : increment _ _ _ = Ok X |- _ =>
              first [ rewrite (increment_frame _ _ _ _ j1 j2 H) by frame_condition
                    | eapply (increment_same _ _ _ _ _ H) ]
          end; chase ]
  end.

Lemma record_component_start_counters (component : string) (success : bool)
    (output : option string) (w w0 w' : world) (status0 status : json) (a s f : Z) :
  get_component_status component w = (Ok status0, w0) →
  field_int status0 "start" "attempts" = Some a →
  field_int status0 "start" "successes" = Some s →
  field_int status0 "start" "failures" = Some f →
  record_component_start component success output w = (Ok status, w') →
  field_int status "start" "attempts" = Some (a + 1) ∧
  field_int status "start" "successes" = Some (if success then s + 1 else s) ∧
  field_int status "start" "failures" = Some (if success then f else f + 1).
Proof.
  intros Hload Ha Hs Hf Hrun.
  unfold record_component_start in Hrun.
  invert_run Hrun.
  match goal with
  | H : get_component_status _ _ = (Ok _, _) |- _ =>
      rewrite Hload in H; injection H as <- <-
  end.
  destruct success;
    match goal with
    | H : mbind _ _ _ = (Ok _, _) |- _ => invert_run H
    end.
  all: repeat split; chase.
Qed.

Lemma record_test_run_counters (component : string) (success : bool)
    (results : option json) (w w0 w' : world) (status0 status : json) (r p f : Z) :
  get_component_status component w = (Ok status0, w0) →
  field_int status0 "tests" "total_runs" = Some r →
  field_int status0 "tests" "total_passed" = Some p →
  field_int status0 "tests" "total_failed" = Some f →
  record_test_run component success results w = (Ok status, w') →
  field_int status "tests" "total_runs" = Some (r + 1) ∧
  field_int status "tests" "total_passed" = Some (if success then p + 1 else p) ∧
  field_int status "tests" "total_failed" = Some (if success then f else f + 1).
Proof.
  intros Hload Hr Hp Hf Hrun.
  unfold record_test_run in Hrun.
  invert_run Hrun.
  match goal with
  | H : get_component_status _ _ = (Ok _, _) |- _ =>
      rewrite Hload in H; injection H as <- <-
  end.
  destruct success;
    match goal with
    | H : mbind _ _ _ = (Ok _, _) |- _ => invert_run H
    end.
  all: repeat split; chase.
Qed.

Lemma default_status_invariants (component t1 t2 : string) :
  start_invariant (default_status component t1 t2) ∧
  tests_invariant (default_status component t1 t2).
Proof. split; by exists 0, 0, 0. Qed.

(** What a load returns after a call that left [STATUS_DIR] alone. *)
Lemma load_after_keep (component : string) (w w' w0 w1 : world)
    (status0 status1 : json) :
  status_dir w' = status_dir w →
  get_component_status component w = (Ok status0, w0) →
  get_component_status component w' = (Ok status1, w1) →
  status1 = status0
  ∨ ∃ t1 t2, status1 = default_status component t1 t2.
Proof.
  intros Hdir. unfold get_component_status, status_file. rewrite Hdir.
  destruct (status_dir w ≫= _) as [[v|text|why]|].
  - intros [= <- _] [= <- _]. by left.
  - intros _ [= <- _]. right. by eexists _, _.
  - discriminate.
  - intros _ [= <- _]. right. by eexists _, _.
Qed.

(** ** The sub-status a call sets *)

Lemma getitem2_insert2 (m sm : gmap string json) (k1 k2 j1 j2 : string) (x : json) :
  m !! k1 = Some (JObj sm) → j1 ≠ k1 ∨ j2 ≠ k2 →
  getitem2 (JObj (<[k1 := JObj (<[k2 := x]> sm)]> m)) j1 j2
  = getitem2 (JObj m) j1 j2.
Proof.
  intros Hm Hne. unfold getitem2, getitem.
  destruct (decide (j1 = k1)) as [->|Hj1].
  - rewrite lookup_insert_eq, Hm; simpl.
    destruct Hne as [Hne|Hne]; [done|]. by rewrite lookup_insert_ne.
  - by rewrite lookup_insert_ne.
Qed.

Lemma setitem2_kept (status status' : json) (k1 k2 j1 j2 : string) (x : json) :
  setitem2 status k1 k2 x = Ok status' → j1 ≠ k1 ∨ j2 ≠ k2 →
  getitem2 status' j1 j2 = getitem2 status j1 j2.
Proof.
  intros (m & sm & -> & Hm & ->)%setitem2_inv Hne. by apply getitem2_insert2.
Qed.

Lemma setitem2_set (status status' : json) (k1 k2 : string) (x : json) :
  setitem2 status k1 k2 x = Ok status' → getitem2 status' k1 k2 = Ok x.
Proof.
  intros (m & sm & -> & Hm & ->)%setitem2_inv.
  unfold getitem2, getitem. rewrite lookup_insert_eq; simpl.
  by rewrite lookup_insert_eq.
Qed.

Lemma setitem_kept (status status' : json) (k j1 j2 : string) (x : json) :
  setitem status k x = Ok status' → j1 ≠ k →
  getitem2 status' j1 j2 = getitem2 status j1 j2.
Proof.
  destruct status as [| | | | |m]; try discriminate.
  intros [= <-] Hne. by apply getitem2_insert_ne.
Qed.

Lemma increment_kept (status status' : json) (k1 k2 j1 j2 : string) :
  increment status k1 k2 = Ok status' → j1 ≠ k1 ∨ j2 ≠ k2 →
  getitem2 status' j1 j2 = getitem2 status j1 j2.
Proof.
  unfold increment, getitem.
  destruct status as [| | | | |m]; try discriminate.
  destruct (m !! k1) as [[| | | | |sm]|] eqn:H1; try discriminate.
  simpl. destruct (sm !! k2) as [v|] eqn:H2; [|discriminate]. simpl.
  intros (v' & _ & [= <-])%bind_Ok_inv Hne. by apply getitem2_insert2.
Qed.

Lemma append_issue_kept (status status' issue : json) (j1 j2 : string) :
  append_issue status issue = Ok status' → j1 ≠ "issues" →
  getitem2 status' j1 j2 = getitem2 status j1 j2.
Proof.
  unfold append_issue, getitem.
  destruct status as [| | | | |m]; try discriminate.
  destruct (m !! "issues") as [[| | | |l|]|]; try discriminate.
  simpl. intros [= <-] Hne. by apply getitem2_insert_ne.
Qed.

Lemma update_operational_status_kept (status status' : json) (j1 j2 : string) :
  update_operational_status status = Ok status' → j1 ≠ "operational_status" →
  getitem2 status' j1 j2 = getitem2 status j1 j2.
Proof.
  intros (m & ss & ts & -> & _ & _ & ->)%update_operational_status_inv Hne.
  by apply getitem2_insert_ne.
Qed.

(** The value of a field at the end of a run, from the statements that
    made the final record. *)
Ltac chase_field :=
  lazymatch goal with
  | |- getitem2 ?X ?j1 ?j2 = _ =>
      first
        [ eassumption
        | match goal with
          | H : setitem2 _ _ _ _ = Ok X |- _ =>
              first [ rewrite (setitem2_kept _ _ _ _ j1 j2 _ H) by frame_condition
                    | exact (setitem2_set _ _ _ _ _ H) ]
          | H : setitem _ _ _ = Ok X |- _ =>
              rewrite (setitem_kept _ _ _ j1 j2 _ H) by frame_condition
          | H : append_issue _ _ = Ok X |- _ =>
              rewrite (append_issue_kept _ _ _ j1 j2 H) by frame_condition
          | H : update_operational_status _ = Ok X |- _ =>
              rewrite (update_operational_status_kept _ _ j1 j2 H)
                by frame_condition
          | H : increment _ _ _ = Ok X |- _ =>
              rewrite (increment_kept _ _ _ _ j1 j2 H) by frame_condition
          end; try chase_field ]
  end.

Lemma record_component_start_status (component : string) (success : bool)
    (output : option string) (w w' : world) (status : json) :
  record_component_start component success output w = (Ok status, w') →
  getitem2 status "start" "status"
  = Ok (JStr (start_name (if success then StartRunning else StartFailed))).
Proof.
  intros Hrun.
  unfold record_component_start in Hrun.
  invert_run Hrun.
  destruct success;
    match goal with
    | H : mbind _ _ _ = (Ok _, _) |- _ => invert_run H
    end.
  all: chase_field.
Qed.

Lemma record_test_run_status (component : string) (success : bool)
    (results : option json) (w w' : world) (status : json) :
  record_test_run component success results w = (Ok status, w') →
  getitem2 status "tests" "status"
  = Ok (JStr (test_name (if success then TestPassing else TestFailing))).
Proof.
  intros Hrun.
  unfold record_test_run in Hrun.
  invert_run Hrun.
  destruct success;
    match goal with
    | H : mbind _ _ _ = (Ok _, _) |- _ => invert_run H
    end.
  all: chase_field.
Qed.

(** C2: whenever [record_component_start] or [record_test_run] returns,
    the record it returns is the one now stored for the component; the
    sub-status the call has just set is a value of the rule table
    (running or failed for a start, passing or failing for a test run),
    and [operational_status] is what the rule table of the
    specification ([OperationalStatusRule]) gives for the record's own
    [start.status] and [tests.status], whichever of the nine pairs of
    the table these are (for any other pair of values it is what the
    code's chain of comparisons gives for them); whenever one of them
    raises, [STATUS_DIR] is as before the call, so neither operation
    writes a status file in any other way.  The fresh default record
    satisfies the rule as well. *)
Theorem C2_operational_status_recomputed (component : string) (success : bool)
    (output : option string) (results : option json) (w : world) :
  match record_component_start component success output w with
  | (Ok status, w') =>
      status_dir w'
      = (λ d, <[get_status_file_path component := FJson status]> d) <$> status_dir w
      ∧ status_file component w' = Some (FJson status)
      ∧ derived status ∧ follows_rule status
      ∧ getitem2 status "start" "status"
        = Ok (JStr (start_name (if success then StartRunning else StartFailed)))
  | (Raise _, w') => status_dir w' = status_dir w
  end ∧
  match record_test_run component success results w with
  | (Ok status, w') =>
      status_dir w'
      = (λ d, <[get_status_file_path component := FJson status]> d) <$> status_dir w
      ∧ status_file component w' = Some (FJson status)
      ∧ derived status ∧ follows_rule status
      ∧ getitem2 status "tests" "status"
        = Ok (JStr (test_name (if success then TestPassing else TestFailing)))
  | (Raise _, w') => status_dir w' = status_dir w
  end ∧
  ∀ created_at last_updated,
    derived (default_status component created_at last_updated)
    ∧ follows_rule (default_status component created_at last_updated).
Proof.
  split; [|split].
  - pose proof (record_component_start_outcome component success output) as Hm.
    pose proof (Hm w) as Hw.
    destruct (record_component_start component success output w)
      as [[status|e] w'] eqn:Hrun; [|done].
    destruct Hw as (Hdir & _ & _). split; [done|].
    destruct (saves_or_keeps_file _ _ _ _ _ _ Hm Hrun) as [Hfile Hder].
    split; [done|]. split; [done|]. split; [by apply derived_follows_rule|].
    by eapply record_component_start_status.
  - pose proof (record_test_run_outcome component success results) as Hm.
    pose proof (Hm w) as Hw.
    destruct (record_test_run component success results w)
      as [[status|e] w'] eqn:Hrun; [|done].
    destruct Hw as (Hdir & _ & _). split; [done|].
    destruct (saves_or_keeps_file _ _ _ _ _ _ Hm Hrun) as [Hfile Hder].
    split; [done|]. split; [done|]. split; [by apply derived_follows_rule|].
    by eapply record_test_run_status.
  - intros created_at last_updated.
    assert (Hder : derived (default_status component created_at last_updated))
      by (by exists (JStr "unknown"), (JStr "unknown")).
    split; [done|]. by apply derived_follows_rule.
Qed.

Lemma C2_operational_status_recomputed_witness :
  let sm : gmap string json := <["attempts" := JInt 0]> (<["successes" := JInt 0]> ∅) in
  let tm : gmap string json := <["status" := JStr "passing"]> ∅ in
  let m : gmap string json := <["start" := JObj sm]> (<["tests" := JObj tm]> ∅) in
  let d : gmap string file := <[get_status_file_path "HMS-API" := FJson (JObj m)]> ∅ in
  let w := mkWorld (Some d) None None (λ n, pretty n) 0 (λ n, pretty n) 0 in
  ∃ status w',
    record_component_start "HMS-API" true None w = (Ok status, w') ∧
    status_file "HMS-API" w' = Some (FJson status) ∧
    getitem2 status "start" "status" = Ok (JStr "running") ∧
    getitem2 status "tests" "status" = Ok (JStr "passing") ∧
    getitem status "operational_status" = Ok (JStr "operational").
Proof.
  intros sm tm m d w.
  pose proof (record_start_success_run "HMS-API" None w w m sm tm (JInt 0) (JInt 0)
                (JStr "passing") 0 0 d
                (get_component_status_stored "HMS-API" (JObj m) w eq_refl)
                eq_refl eq_refl eq_refl eq_refl eq_refl eq_refl eq_refl eq_refl)
    as Hrun.
  cbv zeta in Hrun.
  pose proof (C2_operational_status_recomputed "HMS-API" true None None w) as [H _].
  rewrite Hrun in H. destruct H as (_ & Hfile & _ & Hrule & _).
  eexists _, _. split; [exact Hrun|]. split; [exact Hfile|].
  assert (Hs : ∀ x : json,
             getitem2 (JObj (<["last_updated" := x]>
                               (<["operational_status" :=
                                    JStr (operational_status_of (JStr "running")
                                            (JStr "passing"))]>
                                  (<["start" :=
                                       JObj (<["status" := JStr "running"]>
                                               (<["successes" := JInt (0 + 1)]>
                                                  (<["last_success" := JStr (clock w (S (ticks w)))]>
                                                     (<["attempts" := JInt (0 + 1)]>
                                                        (<["last_attempt" := JStr (clock w (ticks w))]> sm)))))]> m))))
               "start" "status" = Ok (JStr "running")).
  { intros x. unfold getitem2, getitem.
    rewrite !lookup_insert_ne by discriminate. rewrite lookup_insert_eq.
    cbn [mbind result_bind]. by rewrite lookup_insert_eq. }
  assert (Ht : ∀ (x y z : json),
             getitem2 (JObj (<["last_updated" := x]>
                               (<["operational_status" := y]>
                                  (<["start" := z]> m))))
               "tests" "status" = Ok (JStr "passing")).
  { intros x y z. unfold getitem2, getitem.
    by rewrite !lookup_insert_ne by discriminate. }
  split; [apply Hs|]. split; [apply Ht|].
  exact (Hrule StartRunning TestPassing (Hs _) (Ht _ _ _)).
Defined.

(** C10: a record whose start counters satisfy
    [attempts = successes + failures] still does after any call of
    [record_component_start], and a call that returns has added one to
    [attempts] and one to exactly one of [successes] and [failures];
    the same holds of [total_runs], [total_passed] and [total_failed]
    under [record_test_run], whatever the results payload is.  The
    default record satisfies both invariants. *)
Theorem C10_counters_consistent (component : string) (success : bool)
    (output : option string) (results : option json) (w w0 : world)
    (status0 : json) :
  get_component_status component w = (Ok status0, w0) →
  (start_invariant status0 →
   ∀ r w', record_component_start component success output w = (r, w') →
     (∀ status1 w1, get_component_status component w' = (Ok status1, w1) →
                    start_invariant status1) ∧
     (∀ status a s f, r = Ok status →
        field_int status0 "start" "attempts" = Some a →
        field_int status0 "start" "successes" = Some s →
        field_int status0 "start" "failures" = Some f →
        field_int status "start" "attempts" = Some (a + 1) ∧
        field_int status "start" "successes" = Some (if success then s + 1 else s) ∧
        field_int status "start" "failures" = Some (if success then f else f + 1))) ∧
  (tests_invariant status0 →
   ∀ r w', record_test_run component success results w = (r, w') →
     (∀ status1 w1, get_component_status component w' = (Ok status1, w1) →
                    tests_invariant status1) ∧
     (∀ status n p f, r = Ok status →
        field_int status0 "tests" "total_runs" = Some n →
        field_int status0 "tests" "total_passed" = Some p →
        field_int status0 "tests" "total_failed" = Some f →
        field_int status "tests" "total_runs" = Some (n + 1) ∧
        field_int status "tests" "total_passed" = Some (if success then p + 1 else p) ∧
        field_int status "tests" "total_failed" = Some (if success then f else f + 1))) ∧
  (∀ created_at last_updated,
     start_invariant (default_status component created_at last_updated) ∧
     tests_invariant (default_status component created_at last_updated)).
Proof.
  intros Hload. split; [|split]; [| |apply default_status_invariants].
  - intros (a & s & f & Ha & Hs & Hf & Hinv) r w' Hrun. split.
    + intros status1 w1 Hload1.
      pose proof (record_component_start_outcome component success output w) as Hout.
      rewrite Hrun in Hout. destruct r as [status|e].
      * destruct (saves_or_keeps_file component derived _ w w' status
                    (record_component_start_outcome component success output) Hrun)
          as [Hfile _].
        rewrite (get_component_status_stored component status w' Hfile) in Hload1.
        injection Hload1 as <- _.
        destruct (record_component_start_counters component success output w w0 w'
                    status0 status a s f Hload Ha Hs Hf Hrun) as (Ha' & Hs' & Hf').
        eexists _, _, _. split; [exact Ha'|]. split; [exact Hs'|].
        split; [exact Hf'|]. destruct success; lia.
      * destruct (load_after_keep component w w' w0 w1 status0 status1 Hout Hload
                    Hload1) as [-> | (t1 & t2 & ->)].
        -- by exists a, s, f.
        -- apply default_status_invariants.
    + intros status a' s' f' -> Ha' Hs' Hf'.
      by eapply record_component_start_counters.
  - intros (n & p & f & Hn & Hp & Hf & Hinv) r w' Hrun. split.
    + intros status1 w1 Hload1.
      pose proof (record_test_run_outcome component success results w) as Hout.
      rewrite Hrun in Hout. destruct r as [status|e].
      * destruct (saves_or_keeps_file component derived _ w w' status
                    (record_test_run_outcome component success results) Hrun)
          as [Hfile _].
        rewrite (get_component_status_stored component status w' Hfile) in Hload1.
        injection Hload1 as <- _.
        destruct (record_test_run_counters component success results w w0 w'
                    status0 status n p f Hload Hn Hp Hf Hrun) as (Hn' & Hp' & Hf').
        eexists _, _, _. split; [exact Hn'|]. split; [exact Hp'|].
        split; [exact Hf'|]. destruct success; lia.
      * destruct (load_after_keep component w w' w0 w1 status0 status1 Hout Hload
                    Hload1) as [-> | (t1 & t2 & ->)].
        -- by exists n, p, f.
        -- apply default_status_invariants.
    + intros status n' p' f' -> Hn' Hp' Hf'.
      by eapply record_test_run_counters.
Qed.

Lemma C10_counters_consistent_witness :
  let w := mkWorld (Some ∅) (Some ∅) (Some ∅) (λ _, "2025-01-01T00:00:00") 0
                   (λ _, "0123456789abcdef0123456789abcdef") 0 in
  let results :=
    Some (JObj (list_to_map [("passed", JInt 2); ("failed", JInt 8);
                             ("skipped", JInt 0)])) in
  ∃ status w',
    record_test_run "HMS-API" false results w = (Ok status, w') ∧
    field_int status "tests" "total_runs" = Some 1 ∧
    field_int status "tests" "total_passed" = Some 0 ∧
    field_int status "tests" "total_failed" = Some 1 ∧
    tests_invariant status.
Proof.
  intros w results.
  assert (Hok : ∃ status w',
            record_test_run "HMS-API" false results w = (Ok status, w')).
  { destruct (record_test_run "HMS-API" false results w) as [[status|e] w'] eqn:Hrun.
    - by exists status, w'.
    - exfalso. vm_compute in Hrun. discriminate. }
  destruct Hok as (status & w' & Hrun).
  destruct (C10_counters_consistent "HMS-API" false None results w _ _
              (get_component_status_absent "HMS-API" w (or_introl eq_refl)))
    as (_ & Htests & _).
  destruct (Htests (proj2 (default_status_invariants _ _ _)) _ _ Hrun)
    as [Hinv Hinc].
  destruct (Hinc status 0 0 0 eq_refl eq_refl eq_refl eq_refl) as (Hn & Hp & Hf).
  exists status, w'.
  split; [exact Hrun|]. split; [exact Hn|]. split; [exact Hp|]. split; [exact Hf|].
  apply (Hinv status w').
  destruct (saves_or_keeps_file "HMS-API" derived _ w w' status
              (record_test_run_outcome "HMS-API" false results) Hrun)
    as [Hfile _].
  apply get_component_status_stored. exact Hfile.
Defined.

(** * Further properties of the tracker *)

(** ** Test runs *)

Lemma insert_insert_shadow {A : Type} (m : gmap string A) (k j : string) (x y z : A) :
  k ≠ j → <[k := x]> (<[j := y]> (<[k := z]> m)) = <[k := x]> (<[j := y]> m).
Proof.
  intros Hne. rewrite (insert_insert_ne (<[k := z]> m) k j) by done.
  by rewrite insert_insert_eq, insert_insert_ne.
Qed.

Section TestRun.
Variables (component : string) (results : option json) (w w0 : world).
Variables (m sm tm : gmap string json) (vr vp vf ss : json) (r p f : Z).
Variables (l : list json) (d : gmap string file).
Hypothesis Hload : get_component_status component w = (Ok (JObj m), w0).
Hypothesis Htests : m !! "tests" = Some (JObj tm).
Hypothesis Hr : tm !! "total_runs" = Some vr.
Hypothesis Hri : as_int vr = Some r.
Hypothesis Hp : tm !! "total_passed" = Some vp.
Hypothesis Hpi : as_int vp = Some p.
Hypothesis Hf : tm !! "total_failed" = Some vf.
Hypothesis Hfi : as_int vf = Some f.
Hypothesis Hstart : m !! "start" = Some (JObj sm).
Hypothesis Hss : sm !! "status" = Some ss.
Hypothesis Hd : status_dir w0 = Some d.

Let payload : json := test_payload results.
Let t : string := clock w0 (ticks w0).

Lemma record_test_pass_run :
  let tests :=
    <["last_results" := payload]>
      (<["status" := JStr "passing"]>
         (<["total_passed" := JInt (p + 1)]>
            (<["last_success" := JStr t]>
               (<["total_runs" := JInt (r + 1)]>
                  (<["last_run" := JStr t]> tm))))) in
  let saved :=
    JObj (<["last_updated" := JStr (clock w0 (S (ticks w0)))]>
            (<["operational_status" :=
                 JStr (operational_status_of ss (JStr "passing"))]>
               (<["tests" := JObj tests]> m))) in
  record_test_run component true results w
  = (Ok saved,
     mkWorld (Some (<[get_status_file_path component := FJson saved]> d))
       (tickets_dir w0) (logs_dir w0)
       (clock w0) (S (S (ticks w0))) (uuids w0) (draws w0)).
Proof using Hload Htests Hr Hri Hp Hpi Hstart Hss Hd.
  intros tests saved.
  unfold record_test_run.
  do 4 run_step.
  erewrite run_bind.
  2: { do 2 run_step. apply run_lift. pure_step. }
  cbv beta. rewrite ?insert_insert_eq.
  do 2 run_step.
  erewrite update_component_status_Ok by (world_simpl; eassumption).
  world_norm. reflexivity.
Qed.

Hypothesis Hl : m !! "issues" = Some (JArr l).

Let issue : json :=
  new_issue (uuid_str (uuids w0 (draws w0))) "test_failure" component t
            "results" payload.
Let failing (last_updated : string) : json :=
  JObj (<["last_updated" := JStr last_updated]>
          (<["operational_status" :=
               JStr (operational_status_of ss (JStr "failing"))]>
             (<["tests" :=
                  JObj (<["last_results" := payload]>
                          (<["status" := JStr "failing"]>
                             (<["total_failed" := JInt (f + 1)]>
                                (<["total_runs" := JInt (r + 1)]>
                                   (<["last_run" := JStr t]> tm)))))]>
                (<["issues" := JArr (l ++ [issue])]> m)))).

Lemma record_test_fail_quiet :
  f + 1 ≤ p →
  let saved := failing (clock w0 (S (ticks w0))) in
  record_test_run component false results w
  = (Ok saved,
     mkWorld (Some (<[get_status_file_path component := FJson saved]> d))
       (tickets_dir w0) (logs_dir w0)
       (clock w0) (S (S (ticks w0))) (uuids w0) (S (draws w0))).
Proof using Hload Htests Hr Hri Hp Hpi Hf Hfi Hstart Hss Hd Hl.
  intros Hle saved.
  unfold record_test_run.
  do 4 run_step.
  erewrite run_bind.
  2: { do 7 run_step.
       rewrite (proj2 (Z.ltb_ge p (f + 1)) Hle).
       reflexivity. }
  cbv beta. rewrite ?insert_insert_eq.
  do 2 run_step.
  erewrite update_component_status_Ok by (world_simpl; eassumption).
  rewrite insert_insert_shadow by done.
  world_norm. reflexivity.
Qed.

Lemma record_test_fail_ticket (dt : gmap string file) (dl : gmap string string)
    (priority description : string) :
  tickets_dir w0 = Some dt → logs_dir w0 = Some dl → p < f + 1 →
  determine_priority component "test_failure" issue = Ok priority →
  generate_ticket_description component "test_failure" issue = Ok description →
  let saved := failing (clock w0 (S (S (S (ticks w0))))) in
  let agent := str_replace component "HMS-" "HMS-AGT-" in
  let ticket_id := "WRK-" ++ substring 0 8 (uuids w0 (S (draws w0))) in
  let ticket :=
    work_ticket ticket_id component (JStr (uuid_str (uuids w0 (draws w0))))
      "test_failure" (clock w0 (S (ticks w0))) agent priority issue description
      (generate_suggested_actions component "test_failure") in
  record_test_run component false results w
  = (Ok saved,
     mkWorld (Some (<[get_status_file_path component := FJson saved]> d))
       (Some (<[ticket_id ++ ".json" := FJson ticket]> dt))
       (Some (<["notifications.log" :=
                  default EmptyString (dl !! "notifications.log")
                  ++ notification_line (clock w0 (S (S (ticks w0)))) agent
                       ticket_id component "test_failure"]> dl))
       (clock w0) (S (S (S (S (ticks w0))))) (uuids w0) (S (S (draws w0)))).
Proof using Hload Htests Hr Hri Hp Hpi Hf Hfi Hstart Hss Hd Hl.
  intros Hdt Hdl Hlt Hprio Hdesc saved agent ticket_id ticket.
  unfold record_test_run.
  do 4 run_step.
  erewrite run_bind.
  2: { do 7 run_step.
       rewrite (proj2 (Z.ltb_lt p (f + 1)) Hlt).
       erewrite run_bind.
       2: { erewrite run_bind; [reflexivity|].
            eapply generate_work_ticket_Ok;
              [reflexivity | exact Hprio | exact Hdesc
              | world_simpl; eassumption | world_simpl; eassumption]. }
       reflexivity. }
  cbv beta. rewrite ?insert_insert_eq.
  do 2 run_step.
  erewrite update_component_status_Ok by (world_simpl; eassumption).
  rewrite insert_insert_shadow by done.
  world_norm. reflexivity.
Qed.

End TestRun.

Lemma wf_status_inv (status : json) :
  wf_status status →
  ∃ m sm tm va vs vf vr vp vt a s f r p t ss ts l,
    status = JObj m ∧
    m !! "start" = Some (JObj sm) ∧
    sm !! "attempts" = Some va ∧ as_int va = Some a ∧
    sm !! "successes" = Some vs ∧ as_int vs = Some s ∧
    sm !! "failures" = Some vf ∧ as_int vf = Some f ∧
    sm !! "status" = Some ss ∧
    m !! "tests" = Some (JObj tm) ∧
    tm !! "total_runs" = Some vr ∧ as_int vr = Some r ∧
    tm !! "total_passed" = Some vp ∧ as_int vp = Some p ∧
    tm !! "total_failed" = Some vt ∧ as_int vt = Some t ∧
    tm !! "status" = Some ts ∧
    m !! "issues" = Some (JArr l).
Proof.
  intros ((a & s & f & Ha & Hs & Hf) & (r & p & t & Hr & Hp & Ht)
          & (ss & Hss) & (ts & Hts) & (l & Hl)).
  apply field_int_inv in Ha as (m & sm & va & -> & Hstart & Hva & Hai).
  apply field_int_inv in Hs as (? & ? & vs & [= <-] & Hstart' & Hvs & Hsi).
  rewrite Hstart in Hstart'. injection Hstart' as <-.
  apply field_int_inv in Hf as (? & ? & vf & [= <-] & Hstart' & Hvf & Hfi).
  rewrite Hstart in Hstart'. injection Hstart' as <-.
  apply getitem2_inv in Hss as (? & ? & [= <-] & Hstart' & Hss).
  rewrite Hstart in Hstart'. injection Hstart' as <-.
  apply field_int_inv in Hr as (? & tm & vr & [= <-] & Htests & Hvr & Hri).
  apply field_int_inv in Hp as (? & ? & vp & [= <-] & Htests' & Hvp & Hpi).
  rewrite Htests in Htests'. injection Htests' as <-.
  apply field_int_inv in Ht as (? & ? & vt & [= <-] & Htests' & Hvt & Hti).
  rewrite Htests in Htests'. injection Htests' as <-.
  apply getitem2_inv in Hts as (? & ? & [= <-] & Htests' & Hts).
  rewrite Htests in Htests'. injection Htests' as <-.
  apply getitem_inv in Hl as (? & [= <-] & Hl).
  by exists m, sm, tm, va, vs, vf, vr, vp, vt, a, s, f, r, p, t, ss, ts, l.
Qed.

Lemma default_status_wf (component t1 t2 : string) :
  wf_status (default_status component t1 t2).
Proof.
  split; [by exists 0, 0, 0|]. split; [by exists 0, 0, 0|].
  split; [by eexists|]. split; [by eexists|]. by eexists.
Qed.

Lemma issue_results_new_issue (issue_id type component timestamp : string)
    (results : json) :
  issue_results (new_issue issue_id type component timestamp "results" results)
  = Ok results.
Proof. reflexivity. Qed.

Lemma generate_ticket_description_counts (component : string) (issue results : json)
    (f p s : Z) :
  issue_results issue = Ok results →
  count results "failed" = Some f →
  count results "passed" = Some p →
  count results "skipped" = Some s →
  ∃ description,
    generate_ticket_description component "test_failure" issue = Ok description.
Proof.
  intros Hr (vf & Hf & Hfi)%count_Some (vp & Hp & Hpi)%count_Some
         (vs & Hs & Hsi)%count_Some.
  unfold generate_ticket_description; simpl.
  rewrite Hr; simpl. rewrite Hf; simpl. rewrite Hp; simpl.
  rewrite (py_add_int vf vp f p Hfi Hpi); simpl.
  rewrite Hs; simpl.
  rewrite (py_add_int (JInt (f + p)) vs (f + p) s eq_refl Hsi); simpl.
  destruct (0 <? f + p + s); by eexists.
Qed.


Lemma determine_priority_test_failure (component : string) (issue results : json)
    (f p s : Z) :
  issue_results issue = Ok results →
  count results "failed" = Some f →
  count results "passed" = Some p →
  count results "skipped" = Some s →
  small_counts f p s →
  ∃ priority,
    determine_priority component "test_failure" issue = Ok priority ∧
    (priority = "high" ↔ mostly_failed f p s) ∧
    (priority = "high" ∨ priority = "medium").
Proof.
  intros Hr Hf Hp Hs Hsmall.
  rewrite (determine_priority_counts component issue results f p s Hr Hf Hp Hs
             Hsmall).
  assert (Hiff : (0 <? f + p + s) && (f + p + s <? 2 * f) = true
                 ↔ mostly_failed f p s).
  { by rewrite mostly_failed_iff, andb_true_iff, !Z.ltb_lt. }
  destruct ((0 <? f + p + s) && (f + p + s <? 2 * f)).
  - exists "high". split; [done|]. split; [|by left].
    split; [intros _; by apply Hiff | done].
  - exists "medium". split; [done|]. split; [|by right].
    split; [discriminate|]. intros Hm%Hiff. discriminate.
Qed.




(** ** Well-formed records stay well-formed *)

(** Reading a field through the insertions down to the loaded record. *)
Ltac read_through :=
  read_fields;
  repeat match goal with
    | H : ?m !! ?k = Some _ |- context [?m !! ?k] =>
        rewrite H; cbn [mbind result_bind as_int]
    end;
  first [eassumption | reflexivity].

Ltac solve_wf_status :=
  split; [eexists _, _, _; split; [|split]; read_through|];
  split; [eexists _, _, _; split; [|split]; read_through|];
  split; [eexists; read_through|];
  split; [eexists; read_through|];
  eexists; read_through.

Lemma tracked_fresh (component : string) (w : world) :
  (status_file component w = None
   ∨ ∃ text, status_file component w = Some (FText text)) →
  tracked component w.
Proof.
  intros Habsent. eexists _, _.
  split; [by apply get_component_status_absent|]. apply default_status_wf.
Qed.

Lemma tracked_stored (component : string) (status : json) (w : world) :
  status_file component w = Some (FJson status) → wf_status status →
  tracked component w.
Proof.
  intros Hfile Hwf. exists status, w.
  split; [by apply get_component_status_stored | done].
Qed.

Lemma record_component_start_step (component : string) (success : bool)
    (output : option string) (w w0 : world) (status0 : json) :
  directories_exist w →
  get_component_status component w = (Ok status0, w0) → wf_status status0 →
  ∃ status w' test_status,
    record_component_start component success output w = (Ok status, w') ∧
    wf_status status ∧ directories_exist w' ∧
    status_file component w' = Some (FJson status) ∧
    getitem2 status0 "tests" "status" = Ok test_status ∧
    getitem2 status "tests" "status" = Ok test_status ∧
    getitem2 status "start" "status"
    = Ok (JStr (if success then "running" else "failed")) ∧
    getitem status "operational_status"
    = Ok (JStr (operational_status_of
                  (JStr (if success then "running" else "failed")) test_status)).
Proof.
  intros ([d Hd] & [dt Hdt] & [dl Hdl]) Hload Hwf.
  destruct (wf_status_inv status0 Hwf)
    as (m & sm & tm & va & vs & vf & vr & vp & vt & a & s & f & r & p & t & ss & ts
        & l & -> & Hstart & Hva & Hai & Hvs & Hsi & Hvf & Hfi & Hss & Htests & Hvr
        & Hri & Hvp & Hpi & Hvt & Hti & Hts & Hl).
  destruct (get_component_status_total component w)
    as (st & w1 & Hload' & Hd1 & Hdt1 & Hdl1 & Hdraws).
  rewrite Hload in Hload'. injection Hload' as <- <-.
  rewrite <- Hd1 in Hd. rewrite <- Hdt1 in Hdt. rewrite <- Hdl1 in Hdl.
  destruct success; [|destruct (Z.lt_ge_cases s (f + 1)) as [Hlt | Hle]].
  - pose proof (record_start_success_run component output w w0 m sm tm va vs ts a s
                  d Hload Hstart Hva Hai Hvs Hsi Htests Hts Hd) as Hrun.
    cbv zeta in Hrun. eexists _, _, ts. split; [exact Hrun|].
    split; [solve_wf_status|]. split; [|split; [|by repeat split; read_through]].
    + unfold directories_exist; cbn. rewrite Hdt, Hdl. by repeat split.
    + unfold status_file; cbn. by rewrite lookup_insert_eq.
  - pose proof (record_start_failure_ticket component output w w0 m sm tm va vs vf
                  ts a s f l d Hload Hstart Hva Hai Hvs Hsi Hvf Hfi Hl
                  Htests Hts Hd dt dl Hdt Hdl Hlt) as Hrun.
    cbv zeta in Hrun. eexists _, _, ts. split; [exact Hrun|].
    split; [solve_wf_status|]. split; [|split; [|by repeat split; read_through]].
    + unfold directories_exist; cbn. by repeat split.
    + unfold status_file; cbn. by rewrite lookup_insert_eq.
  - pose proof (record_start_failure_quiet component output w w0 m sm tm va vs vf
                  ts a s f l d Hload Hstart Hva Hai Hvs Hsi Hvf Hfi Hl
                  Htests Hts Hd Hle) as Hrun.
    cbv zeta in Hrun. eexists _, _, ts. split; [exact Hrun|].
    split; [solve_wf_status|]. split; [|split; [|by repeat split; read_through]].
    + unfold directories_exist; cbn. rewrite Hdt, Hdl. by repeat split.
    + unfold status_file; cbn. by rewrite lookup_insert_eq.
Qed.

Lemma record_test_run_step (component : string) (success : bool)
    (results : option json) (w w0 : world) (status0 : json) :
  directories_exist w →
  get_component_status component w = (Ok status0, w0) → wf_status status0 →
  wf_results (test_payload results) →
  ∃ status w' start_status,
    record_test_run component success results w = (Ok status, w') ∧
    wf_status status ∧ directories_exist w' ∧
    status_file component w' = Some (FJson status) ∧
    getitem2 status0 "start" "status" = Ok start_status ∧
    getitem2 status "start" "status" = Ok start_status ∧
    getitem2 status "tests" "status"
    = Ok (JStr (if success then "passing" else "failing")) ∧
    getitem status "operational_status"
    = Ok (JStr (operational_status_of start_status
                  (JStr (if success then "passing" else "failing")))).
Proof.
  intros ([d Hd] & [dt Hdt] & [dl Hdl]) Hload Hwf
         (fc & pc & sc & Hfc & Hpc & Hsc & Hsmall).
  destruct (wf_status_inv status0 Hwf)
    as (m & sm & tm & va & vs & vf & vr & vp & vt & a & s & f & r & p & t & ss & ts
        & l & -> & Hstart & Hva & Hai & Hvs & Hsi & Hvf & Hfi & Hss & Htests & Hvr
        & Hri & Hvp & Hpi & Hvt & Hti & Hts & Hl).
  destruct (get_component_status_total component w)
    as (st & w1 & Hload' & Hd1 & Hdt1 & Hdl1 & Hdraws).
  rewrite Hload in Hload'. injection Hload' as <- <-.
  rewrite <- Hd1 in Hd. rewrite <- Hdt1 in Hdt. rewrite <- Hdl1 in Hdl.
  destruct success; [|destruct (Z.lt_ge_cases p (t + 1)) as [Hlt | Hle]].
  - pose proof (record_test_pass_run component results w w0 m sm tm vr vp ss r p d
                  Hload Htests Hvr Hri Hvp Hpi Hstart Hss Hd) as Hrun.
    cbv zeta in Hrun. eexists _, _, ss. split; [exact Hrun|].
    split; [solve_wf_status|]. split; [|split; [|by repeat split; read_through]].
    + unfold directories_exist; cbn. rewrite Hdt, Hdl. by repeat split.
    + unfold status_file; cbn. by rewrite lookup_insert_eq.
  - destruct (determine_priority_test_failure component _ _ fc pc sc
                (issue_results_new_issue (uuid_str (uuids w0 (draws w0)))
                   "test_failure" component (clock w0 (ticks w0))
                   (test_payload results)) Hfc Hpc Hsc Hsmall)
      as (priority & Hprio & _ & _).
    destruct (generate_ticket_description_counts component _ _ fc pc sc
                (issue_results_new_issue (uuid_str (uuids w0 (draws w0)))
                   "test_failure" component (clock w0 (ticks w0))
                   (test_payload results)) Hfc Hpc Hsc)
      as (description & Hdesc).
    pose proof (record_test_fail_ticket component results w w0 m sm tm vr vp vt ss
                  r p t l d Hload Htests Hvr Hri Hvp Hpi Hvt Hti Hstart Hss Hd Hl
                  dt dl priority description Hdt Hdl Hlt Hprio Hdesc) as Hrun.
    cbv zeta in Hrun. eexists _, _, ss. split; [exact Hrun|].
    split; [solve_wf_status|]. split; [|split; [|by repeat split; read_through]].
    + unfold directories_exist; cbn. by repeat split.
    + unfold status_file; cbn. by rewrite lookup_insert_eq.
  - pose proof (record_test_fail_quiet component results w w0 m sm tm vr vp vt ss
                  r p t l d Hload Htests Hvr Hri Hvp Hpi Hvt Hti Hstart Hss Hd Hl
                  Hle) as Hrun.
    cbv zeta in Hrun. eexists _, _, ss. split; [exact Hrun|].
    split; [solve_wf_status|]. split; [|split; [|by repeat split; read_through]].
    + unfold directories_exist; cbn. rewrite Hdt, Hdl. by repeat split.
    + unfold status_file; cbn. by rewrite lookup_insert_eq.
Qed.

(** X3: for a component whose name is a portable file name.  A
    component without a status file, or with one that [json.load]
    rejects with [JSONDecodeError], is tracked; one whose file cannot be
    loaded otherwise is not.  With the three directories in place
    neither recorder raises on a tracked component (for test runs: on a
    payload with three counts below [2^53]); afterwards the directories
    are still there and the component is still tracked.  So records
    written by the tracker can always be recorded on again. *)
Theorem reachable_records_never_raise (component : string) (w : world) :
  portable_name component = true →
  ((status_file component w = None
    ∨ ∃ text, status_file component w = Some (FText text)) →
   tracked component w) ∧
  (∀ why, status_file component w = Some (FUnreadable why) →
          ¬ tracked component w) ∧
  (directories_exist w → tracked component w →
   ∀ success output,
     ∃ status w',
       record_component_start component success output w = (Ok status, w') ∧
       directories_exist w' ∧ tracked component w') ∧
  (directories_exist w → tracked component w →
   ∀ success results,
     wf_results (test_payload results) →
     ∃ status w',
       record_test_run component success results w = (Ok status, w') ∧
       directories_exist w' ∧ tracked component w').
Proof.
  intros _. split; [apply tracked_fresh|]. split; [|split].
  - intros why Hfile (status & w0 & Hload & _).
    rewrite (get_component_status_unreadable _ _ _ Hfile) in Hload. discriminate.
  - intros Hdirs (status0 & w0 & Hload & Hwf) success output.
    destruct (record_component_start_step component success output w w0 status0
                Hdirs Hload Hwf)
      as (status & w' & ts & Hrun & Hwf' & Hdirs' & Hfile & _).
    exists status, w'. split; [exact Hrun|]. split; [exact Hdirs'|].
    by eapply tracked_stored.
  - intros Hdirs (status0 & w0 & Hload & Hwf) success results Hres.
    destruct (record_test_run_step component success results w w0 status0
                Hdirs Hload Hwf Hres)
      as (status & w' & ss & Hrun & Hwf' & Hdirs' & Hfile & _).
    exists status, w'. split; [exact Hrun|]. split; [exact Hdirs'|].
    by eapply tracked_stored.
Qed.

Lemma reachable_records_never_raise_witness :
  let w := mkWorld (Some ∅) (Some ∅) (Some ∅) (λ _, "2025-01-01T00:00:00") 0
                   (λ _, "0123456789abcdef0123456789abcdef") 0 in
  ∃ status1 w1 status2 w2,
    record_component_start "HMS-API" false None w = (Ok status1, w1) ∧
    record_test_run "HMS-API" false None w1 = (Ok status2, w2) ∧
    tracked "HMS-API" w2.
Proof.
  intros w.
  destruct (reachable_records_never_raise "HMS-API" w eq_refl)
    as (Hfresh & _ & Hstart & _).
  assert (Hdirs : directories_exist w) by (by repeat split).
  destruct (Hstart Hdirs (Hfresh (or_introl eq_refl)) false None)
    as (status1 & w1 & Hrun1 & Hdirs1 & Htracked1).
  destruct (reachable_records_never_raise "HMS-API" w1 eq_refl)
    as (_ & _ & _ & Htest).
  destruct (Htest Hdirs1 Htracked1 false None) as (status2 & w2 & Hrun2 & _ & Htracked2).
  { exists 0, 0, 0. repeat split. }
  exists status1, w1, status2, w2.
  split; [exact Hrun1|]. split; [exact Hrun2 | exact Htracked2].
Defined.

(** ** File names *)

Lemma list_ascii_of_string_app (a b : string) :
  list_ascii_of_string (a ++ b)
  = (list_ascii_of_string a ++ list_ascii_of_string b)%list.
Proof.
  induction a as [|c a IH]; [reflexivity|].
  change (String c a ++ b) with (String c (a ++ b)). simpl. by rewrite IH.
Qed.

Lemma list_ascii_of_string_inj (a b : string) :
  list_ascii_of_string a = list_ascii_of_string b → a = b.
Proof.
  intros H. rewrite <- (string_of_list_ascii_of_string a).
  rewrite <- (string_of_list_ascii_of_string b). by rewrite H.
Qed.

Lemma string_app_inj_r (a b s : string) : a ++ s = b ++ s → a = b.
Proof.
  intros H. apply list_ascii_of_string_inj.
  apply (f_equal list_ascii_of_string) in H.
  rewrite !list_ascii_of_string_app in H. by apply app_inv_tail in H.
Qed.

Lemma string_app_nil_r (a : string) : a ++ EmptyString = a.
Proof.
  apply list_ascii_of_string_inj. rewrite list_ascii_of_string_app.
  apply app_nil_r.
Qed.

Lemma string_app_assoc (a b c : string) : (a ++ b) ++ c = a ++ (b ++ c).
Proof.
  apply list_ascii_of_string_inj. rewrite !list_ascii_of_string_app.
  by rewrite app_assoc.
Qed.

Lemma get_status_file_path_inj (c1 c2 : string) :
  get_status_file_path c1 = get_status_file_path c2 → c1 = c2.
Proof. apply string_app_inj_r. Qed.

(** X5: recording a start or a test run of one component never
    changes the status file of another component, whether the call
    returns or raises.  Both names are portable file names, and they
    differ by more than the case of their letters, so that they name
    two files on a file system that ignores case too. *)
Theorem other_components_untouched (component other : string) (success : bool)
    (output : option string) (results : option json) (w : world) :
  portable_name component = true →
  portable_name other = true →
  lower other ≠ lower component →
  status_file other (record_component_start component success output w).2
  = status_file other w ∧
  status_file other (record_test_run component success results w).2
  = status_file other w.
Proof.
  intros _ _ Hlower.
  assert (Hne : other ≠ component) by (intros ->; by apply Hlower).
  assert (Hpath : get_status_file_path component ≠ get_status_file_path other).
  { intros Heq%get_status_file_path_inj. by subst. }
  split.
  - pose proof (record_component_start_outcome component success output w) as Hout.
    destruct (record_component_start component success output w) as [[status|e] w'];
      unfold status_file; cbn.
    + destruct Hout as (-> & _ & _). destruct (status_dir w) as [d|]; [|done].
      cbn. by rewrite lookup_insert_ne.
    + by rewrite Hout.
  - pose proof (record_test_run_outcome component success results w) as Hout.
    destruct (record_test_run component success results w) as [[status|e] w'];
      unfold status_file; cbn.
    + destruct Hout as (-> & _ & _). destruct (status_dir w) as [d|]; [|done].
      cbn. by rewrite lookup_insert_ne.
    + by rewrite Hout.
Qed.

Lemma other_components_untouched_witness :
  let w := mkWorld (Some {[ "HMS-SYS_status.json" := FText "kept as it is" ]})
                   None None (λ _, "2025-01-01T00:00:00") 0 (λ _, EmptyString) 0 in
  status_file "HMS-SYS" (record_component_start "HMS-API" true None w).2
  = Some (FText "kept as it is").
Proof.
  intros w.
  destruct (other_components_untouched "HMS-API" "HMS-SYS" true None None w
              eq_refl eq_refl)
    as [Hstart _]; [discriminate|].
  rewrite Hstart. reflexivity.
Defined.

(** ** Nothing on disk is lost *)

Lemma no_file_lost_refl {A : Type} (d : option (gmap string A)) : no_file_lost d d.
Proof. intros files ->. by exists files. Qed.

Lemma no_file_lost_trans {A : Type} (d1 d2 d3 : option (gmap string A)) :
  no_file_lost d1 d2 → no_file_lost d2 d3 → no_file_lost d1 d3.
Proof.
  intros H12 H23 f1 Hf1.
  destruct (H12 f1 Hf1) as (f2 & Hf2 & Hsub12).
  destruct (H23 f2 Hf2) as (f3 & Hf3 & Hsub23).
  exists f3. split; [done|]. set_solver.
Qed.

Lemma no_file_lost_insert {A : Type} (d : gmap string A) (name : string) (x : A) :
  no_file_lost (Some d) (Some (<[name := x]> d)).
Proof.
  intros files [= <-]. eexists. split; [done|].
  rewrite dom_insert. set_solver.
Qed.

Lemma world_grows_refl (w : world) : world_grows w w.
Proof.
  split; [apply no_file_lost_refl|]. split; [apply no_file_lost_refl|].
  intros logs Hlogs. exists logs. split; [done|].
  intros name text Htext. exists EmptyString. by rewrite string_app_nil_r.
Qed.

Lemma world_grows_trans (w1 w2 w3 : world) :
  world_grows w1 w2 → world_grows w2 w3 → world_grows w1 w3.
Proof.
  intros (Hs12 & Ht12 & Hl12) (Hs23 & Ht23 & Hl23).
  split; [by eapply no_file_lost_trans|].
  split; [by eapply no_file_lost_trans|].
  intros l1 Hl1. destruct (Hl12 l1 Hl1) as (l2 & Hl2 & Hext12).
  destruct (Hl23 l2 Hl2) as (l3 & Hl3 & Hext23).
  exists l3. split; [done|]. intros name text Htext.
  destruct (Hext12 name text Htext) as (more & Hmore).
  destruct (Hext23 name _ Hmore) as (more' & Hmore').
  exists (more ++ more'). by rewrite <- string_app_assoc.
Qed.

Lemma world_grows_same (w w' : world) :
  status_dir w' = status_dir w → tickets_dir w' = tickets_dir w →
  logs_dir w' = logs_dir w → world_grows w w'.
Proof.
  intros Hs Ht Hl. destruct (world_grows_refl w) as (Hs' & Ht' & Hl').
  unfold world_grows. by rewrite Hs, Ht, Hl.
Qed.

Lemma only_grows_ret {A : Type} (a : A) : only_grows (mret a : M A).
Proof. intros w. apply world_grows_refl. Qed.

Lemma only_grows_lift {A : Type} (r : result A) : only_grows (lift r).
Proof. intros w. apply world_grows_refl. Qed.

Lemma only_grows_now : only_grows now.
Proof. intros w. by apply world_grows_same. Qed.

Lemma only_grows_uuid4 : only_grows uuid4.
Proof. intros w. by apply world_grows_same. Qed.

Lemma only_grows_get_component_status (component : string) :
  only_grows (get_component_status component).
Proof.
  intros w. unfold get_component_status.
  destruct (status_file component w) as [[v|text|why]|]; by apply world_grows_same.
Qed.

Lemma only_grows_bind {A B : Type} (m : M A) (f : A → M B) :
  only_grows m → (∀ a, only_grows (f a)) → only_grows (m ≫= f).
Proof.
  intros Hm Hf w. unfold mbind, M_bind.
  specialize (Hm w). destruct (m w) as [[a|e] w1]; simpl in *; [|done].
  eapply world_grows_trans; [exact Hm | apply Hf].
Qed.

Lemma only_grows_write_status (name : string) (v : json) :
  only_grows (write_json STATUS_DIR status_dir set_status_dir name v).
Proof.
  intros w. unfold write_json.
  destruct (status_dir w) as [d|] eqn:Hd; [|apply world_grows_refl].
  destruct (world_grows_refl w) as (_ & Ht & Hl).
  split; [|by split]. cbn. rewrite Hd. apply no_file_lost_insert.
Qed.

Lemma only_grows_write_ticket (name : string) (v : json) :
  only_grows (write_json WORK_TICKETS_DIR tickets_dir set_tickets_dir name v).
Proof.
  intros w. unfold write_json.
  destruct (tickets_dir w) as [d|] eqn:Hd; [|apply world_grows_refl].
  destruct (world_grows_refl w) as (Hs & _ & Hl).
  split; [done|]. split; [|done]. cbn. rewrite Hd. apply no_file_lost_insert.
Qed.

Lemma only_grows_open_append (name : string) : only_grows (open_append name).
Proof.
  intros w. unfold open_append.
  destruct (logs_dir w) as [d|] eqn:Hd; [|apply world_grows_refl].
  destruct (world_grows_refl w) as (Hs & Ht & _).
  split; [done|]. split; [done|]. cbn. rewrite Hd.
  intros logs [= <-]. eexists. split; [done|]. intros n text Htext.
  exists EmptyString. rewrite string_app_nil_r.
  destruct (decide (name = n)) as [->|Hne].
  - rewrite lookup_insert_eq. by rewrite Htext.
  - by rewrite lookup_insert_ne.
Qed.

Lemma only_grows_write_append (name line : string) :
  only_grows (write_append name line).
Proof.
  intros w. unfold write_append.
  destruct (logs_dir w) as [d|] eqn:Hd; [|apply world_grows_refl].
  destruct (world_grows_refl w) as (Hs & Ht & _).
  split; [done|]. split; [done|]. cbn. rewrite Hd.
  intros logs [= <-]. eexists. split; [done|]. intros n text Htext.
  destruct (decide (name = n)) as [->|Hne].
  - exists line. rewrite lookup_insert_eq. by rewrite Htext.
  - exists EmptyString. rewrite string_app_nil_r. by rewrite lookup_insert_ne.
Qed.

Ltac grows :=
  repeat lazymatch goal with
    | |- only_grows (mbind _ _) => apply only_grows_bind; [|intros ?]
    | |- only_grows (mret _) => apply only_grows_ret
    | |- only_grows (lift _) => apply only_grows_lift
    | |- only_grows now => apply only_grows_now
    | |- only_grows uuid4 => apply only_grows_uuid4
    | |- only_grows (write_json _ tickets_dir _ _ _) =>
        apply only_grows_write_ticket
    | |- only_grows (write_json _ status_dir _ _ _) =>
        apply only_grows_write_status
    | |- only_grows (open_append _) => apply only_grows_open_append
    | |- only_grows (write_append _ _) => apply only_grows_write_append
    | |- only_grows (get_component_status _) =>
        apply only_grows_get_component_status
    | |- only_grows (if ?b then _ else _) => destruct b
    end.

Lemma only_grows_generate_work_ticket (component issue_type : string) (issue : json) :
  only_grows (generate_work_ticket component issue_type issue).
Proof. unfold generate_work_ticket, notify_agent_about_ticket. grows. Qed.

Lemma only_grows_record_component_start (component : string) (success : bool)
    (output : option string) :
  only_grows (record_component_start component success output).
Proof.
  unfold record_component_start, update_component_status.
  grows; apply only_grows_generate_work_ticket.
Qed.

Lemma only_grows_record_test_run (component : string) (success : bool)
    (results : option json) :
  only_grows (record_test_run component success results).
Proof.
  unfold record_test_run, update_component_status.
  grows; apply only_grows_generate_work_ticket.
Qed.

(** X6: for a component whose name is a portable file name, whatever
    the two recorders do, and whether they return or raise, a directory
    that exists still exists afterwards, no status or ticket file is
    removed, and every log file keeps its text as a prefix of the new
    one. *)
Theorem recording_loses_nothing (component : string) (start_success : bool)
    (output : option string) (test_success : bool) (results : option json)
    (w : world) :
  portable_name component = true →
  world_grows w (record_component_start component start_success output w).2 ∧
  world_grows w (record_test_run component test_success results w).2.
Proof.
  intros _. split; [apply only_grows_record_component_start|].
  apply only_grows_record_test_run.
Qed.

Lemma recording_loses_nothing_witness :
  let w := mkWorld (Some ∅) (Some ∅)
                   (Some {[ "notifications.log" := "earlier line" ]})
                   (λ _, "2025-01-01T00:00:00") 0
                   (λ _, "0123456789abcdef0123456789abcdef") 0 in
  world_grows w (record_component_start "HMS-API" false None w).2.
Proof.
  intros w.
  apply (recording_loses_nothing "HMS-API" false None true None w eq_refl).
Defined.

(** ** Missing directory, unreadable record *)


Section NoStatusDir.
Variables (component : string) (output : option string) (w w0 : world).
Variables (m sm tm : gmap string json) (va vs vf ts : json) (a s f : Z).
Variables (l : list json).
Hypothesis Hload : get_component_status component w = (Ok (JObj m), w0).
Hypothesis Hstart : m !! "start" = Some (JObj sm).
Hypothesis Ha : sm !! "attempts" = Some va.
Hypothesis Hai : as_int va = Some a.
Hypothesis Hs : sm !! "successes" = Some vs.
Hypothesis Hsi : as_int vs = Some s.
Hypothesis Htests : m !! "tests" = Some (JObj tm).
Hypothesis Hts : tm !! "status" = Some ts.
Hypothesis Hd : status_dir w0 = None.


Hypothesis Hf : sm !! "failures" = Some vf.
Hypothesis Hfi : as_int vf = Some f.
Hypothesis Hl : m !! "issues" = Some (JArr l).


End NoStatusDir.




(** ** Stored JSON of the wrong shape *)

Lemma getitem_not_object (v : json) (k : string) :
  is_object v = false → getitem v k = Raise TypeError.
Proof. by destruct v. Qed.

(** X8: a status file that parses but has the wrong shape is never
    repaired.  When it holds no dictionary both recorders raise
    [TypeError]; when it lacks ["start"] (for test runs ["tests"]) they
    raise [KeyError]; in each case the file is left as it was, so every
    later call fails the same way. *)
Theorem wrong_shape_is_never_repaired (component : string) (v : json)
    (success : bool) (output : option string) (results : option json) (w : world) :
  status_file component w = Some (FJson v) →
  (is_object v = false →
   record_component_start component success output w = (Raise TypeError, tick w) ∧
   record_test_run component success results w = (Raise TypeError, tick w)) ∧
  (∀ m, v = JObj m → m !! "start" = None →
   record_component_start component success output w
   = (Raise (KeyError "start"), tick w)) ∧
  (∀ m, v = JObj m → m !! "tests" = None →
   record_test_run component success results w
   = (Raise (KeyError "tests"), tick w)) ∧
  status_file component (tick w) = Some (FJson v).
Proof.
  intros Hfile.
  pose proof (get_component_status_stored component v w Hfile) as Hload.
  split; [|split; [|split; [|exact Hfile]]].
  - intros Hobj. split.
    + unfold record_component_start.
      erewrite run_bind by exact Hload. erewrite run_bind by reflexivity.
      erewrite run_bind_raise; [reflexivity|].
      unfold lift, setitem2. by rewrite getitem_not_object.
    + unfold record_test_run.
      erewrite run_bind by exact Hload. erewrite run_bind by reflexivity.
      erewrite run_bind_raise; [reflexivity|].
      unfold lift, setitem2. by rewrite getitem_not_object.
  - intros m -> Hm. unfold record_component_start.
    erewrite run_bind by exact Hload. erewrite run_bind by reflexivity.
    erewrite run_bind_raise; [reflexivity|].
    unfold lift, setitem2, getitem. by rewrite Hm.
  - intros m -> Hm. unfold record_test_run.
    erewrite run_bind by exact Hload. erewrite run_bind by reflexivity.
    erewrite run_bind_raise; [reflexivity|].
    unfold lift, setitem2, getitem. by rewrite Hm.
Qed.

Lemma wrong_shape_is_never_repaired_witness :
  let w := mkWorld (Some {[ "HMS-API_status.json" := FJson (JArr []) ]})
                   (Some ∅) (Some ∅) (λ _, "2025-01-01T00:00:00") 0
                   (λ _, EmptyString) 0 in
  record_component_start "HMS-API" true None w = (Raise TypeError, tick w) ∧
  status_file "HMS-API" (tick w) = Some (FJson (JArr [])).
Proof.
  intros w.
  destruct (wrong_shape_is_never_repaired "HMS-API" (JArr []) true None None w
              eq_refl) as (Hraise & _ & _ & Hfile).
  split; [by apply Hraise | exact Hfile].
Defined.

(** X9: a status file on which [json.load] raises [JSONDecodeError] is
    replaced without notice: with the three directories in place,
    recording a start returns and stores a record whose counters are
    those of a first attempt.  A file on which the load raises anything
    else (bytes that are no UTF-8, nesting beyond the recursion limit,
    an integer too long, no permission to read) makes recording a start
    or a test run raise the same, and nothing is written. *)
Theorem unparseable_file_restarts_history (component : string)
    (success : bool) (output : option string) (results : option json) (w : world) :
  directories_exist w →
  (∀ text, status_file component w = Some (FText text) →
   ∃ status w',
     record_component_start component success output w = (Ok status, w') ∧
     status_file component w' = Some (FJson status) ∧
     field_int status "start" "attempts" = Some 1 ∧
     field_int status "start" "successes" = Some (if success then 1 else 0) ∧
     field_int status "start" "failures" = Some (if success then 0 else 1)) ∧
  (∀ why, status_file component w = Some (FUnreadable why) →
   record_component_start component success output w = (Raise (raised_by why), w) ∧
   record_test_run component success results w = (Raise (raised_by why), w)).
Proof.
  intros Hdirs. split.
  - intros text Hfile.
    assert (Habsent : status_file component w = None
              ∨ ∃ text, status_file component w = Some (FText text))
      by (right; by exists text).
    pose proof (get_component_status_absent component w Habsent) as Hload.
    destruct (record_component_start_step component success output w _ _ Hdirs Hload
                (default_status_wf _ _ _))
      as (status & w' & ts & Hrun & _ & _ & Hstored & _).
    destruct (record_component_start_counters component success output w _ w' _ status
                0 0 0 Hload eq_refl eq_refl eq_refl Hrun) as (Ha & Hs & Hf).
    exists status, w'. split; [exact Hrun|]. split; [exact Hstored|].
    split; [exact Ha|]. split; by destruct success.
  - intros why Hfile.
    pose proof (get_component_status_unreadable component why w Hfile) as Hload.
    split.
    + unfold record_component_start. by apply run_bind_raise.
    + unfold record_test_run. by apply run_bind_raise.
Qed.

Lemma unparseable_file_restarts_history_witness :
  let w := mkWorld (Some {[ "HMS-API_status.json" := FText "{ truncated" ]})
                   (Some ∅) (Some ∅) (λ _, "2025-01-01T00:00:00") 0
                   (λ _, EmptyString) 0 in
  let w2 := mkWorld (Some {[ "HMS-API_status.json" := FUnreadable NotUtf8 ]})
                    (Some ∅) (Some ∅) (λ _, "2025-01-01T00:00:00") 0
                    (λ _, EmptyString) 0 in
  (∃ status w',
     record_component_start "HMS-API" true None w = (Ok status, w') ∧
     status_file "HMS-API" w' = Some (FJson status) ∧
     field_int status "start" "attempts" = Some 1) ∧
  record_component_start "HMS-API" true None w2 = (Raise UnicodeDecodeError, w2).
Proof.
  intros w w2.
  assert (Hdirs : directories_exist w).
  { split; [by eexists|]. split; by eexists. }
  assert (Hdirs2 : directories_exist w2).
  { split; [by eexists|]. split; by eexists. }
  split.
  - destruct (unparseable_file_restarts_history "HMS-API" true None None w Hdirs)
      as [Htext _].
    destruct (Htext "{ truncated" eq_refl) as (status & w' & Hrun & Hfile & Ha & _).
    exists status, w'. split; [exact Hrun|]. split; [exact Hfile | exact Ha].
  - destruct (unparseable_file_restarts_history "HMS-API" true None None w2 Hdirs2)
      as [_ Hraise].
    exact (proj1 (Hraise NotUtf8 eq_refl)).
Defined.

(** ** Payloads the priority rule cannot read *)

Lemma dict_get_not_object (v : json) (k : string) (d : json) :
  is_object v = false → dict_get v k d = Raise AttributeError.
Proof. by destruct v. Qed.

Lemma py_add_str_left (x : string) (v : json) :
  (∃ y, v = JStr y ∧ py_add (JStr x) v = Ok (JStr (x ++ y)))
  ∨ py_add (JStr x) v = Raise TypeError.
Proof. destruct v; try (by right). left. by eexists. Qed.

Lemma determine_priority_string_failed (component : string) (issue : json)
    (r : gmap string json) (x : string) :
  issue_results issue = Ok (JObj r) →
  r !! "failed" = Some (JStr x) →
  determine_priority component "test_failure" issue = Raise TypeError.
Proof.
  intros Hres Hfailed. unfold determine_priority; simpl.
  rewrite Hres; simpl. rewrite Hfailed; simpl.
  destruct (py_add_str_left x (default (JInt 0) (r !! "passed")))
    as [(y & _ & ->) | ->]; [|done]. simpl.
  destruct (py_add_str_left (x ++ y) (default (JInt 0) (r !! "skipped")))
    as [(z & _ & ->) | ->]; done.
Qed.

(** X10: the priority of a test-failure ticket on odd issues.  An
    issue, a ["details"] or a ["results"] that is no dictionary raises
    [AttributeError]; a ["failed"] count that is a string raises
    [TypeError]; an issue without ["details"] or without ["results"] is
    of medium priority, and so is every issue of a type other than the
    two the tracker knows. *)
Theorem priority_edge_cases (component : string) :
  (∀ issue, is_object issue = false →
     determine_priority component "test_failure" issue = Raise AttributeError) ∧
  (∀ mi details, mi !! "details" = Some details → is_object details = false →
     determine_priority component "test_failure" (JObj mi) = Raise AttributeError) ∧
  (∀ issue results, issue_results issue = Ok results → is_object results = false →
     determine_priority component "test_failure" issue = Raise AttributeError) ∧
  (∀ issue r x, issue_results issue = Ok (JObj r) →
     r !! "failed" = Some (JStr x) →
     determine_priority component "test_failure" issue = Raise TypeError) ∧
  (∀ mi, mi !! "details" = None →
     determine_priority component "test_failure" (JObj mi) = Ok "medium") ∧
  (∀ mi md, mi !! "details" = Some (JObj md) → md !! "results" = None →
     determine_priority component "test_failure" (JObj mi) = Ok "medium") ∧
  (∀ issue_type issue, issue_type ≠ "start_failure" → issue_type ≠ "test_failure" →
     determine_priority component issue_type issue = Ok "medium").
Proof.
  split; [|split; [|split; [|split; [|split; [|split]]]]].
  - intros issue Hobj. unfold determine_priority, issue_results; simpl.
    by rewrite (dict_get_not_object _ _ _ Hobj).
  - intros mi details Hmi Hobj. unfold determine_priority, issue_results; simpl.
    rewrite Hmi; simpl. by rewrite (dict_get_not_object _ _ _ Hobj).
  - intros issue results Hres Hobj. unfold determine_priority; simpl.
    rewrite Hres. by destruct results.
  - intros issue r x. apply determine_priority_string_failed.
  - intros mi Hmi. unfold determine_priority, issue_results; simpl.
    by rewrite Hmi.
  - intros mi md Hmi Hmd. unfold determine_priority, issue_results; simpl.
    rewrite Hmi; simpl. by rewrite Hmd.
  - intros issue_type issue Hs Ht. unfold determine_priority.
    rewrite bool_decide_eq_false_2 by done.
    by rewrite bool_decide_eq_false_2 by done.
Qed.

Lemma priority_edge_cases_witness :
  let issue (results : json) :=
    new_issue "4d1e" "test_failure" "HMS-API" "2025-01-01T00:00:00" "results" results in
  determine_priority "HMS-API" "test_failure" (issue (JArr [JInt 1; JInt 2]))
  = Raise AttributeError ∧
  determine_priority "HMS-API" "test_failure" (issue (JObj {[ "failed" := JStr "3" ]}))
  = Raise TypeError ∧
  determine_priority "HMS-API" "test_failure" (JObj {[ "id" := JStr "4d1e" ]})
  = Ok "medium".
Proof.
  intros issue.
  destruct (priority_edge_cases "HMS-API") as (_ & _ & Hres & Hstr & Hnone & _).
  split; [|split].
  - by apply (Hres _ (JArr [JInt 1; JInt 2])).
  - by apply (Hstr _ {[ "failed" := JStr "3" ]} "3").
  - by apply Hnone.
Defined.

Section TestRunRaises.
Variables (component : string) (results : option json) (w w0 : world).
Variables (m sm tm : gmap string json) (vr vp vf : json) (r p f : Z).
Variables (l : list json) (e : exn).
Hypothesis Hload : get_component_status component w = (Ok (JObj m), w0).
Hypothesis Htests : m !! "tests" = Some (JObj tm).
Hypothesis Hr : tm !! "total_runs" = Some vr.
Hypothesis Hri : as_int vr = Some r.
Hypothesis Hp : tm !! "total_passed" = Some vp.
Hypothesis Hpi : as_int vp = Some p.
Hypothesis Hf : tm !! "total_failed" = Some vf.
Hypothesis Hfi : as_int vf = Some f.
Hypothesis Hl : m !! "issues" = Some (JArr l).
Hypothesis Hlt : p < f + 1.
Hypothesis Hprio :
  determine_priority component "test_failure"
    (new_issue (uuid_str (uuids w0 (draws w0))) "test_failure" component
               (clock w0 (ticks w0)) "results" (test_payload results))
  = Raise e.


End TestRunRaises.



(** ** Who gets the ticket *)

Lemma prefix_app (a b : string) : String.prefix a (a ++ b) = true.
Proof.
  induction a as [|c a IH]; [by destruct b|].
  change (String c a ++ b) with (String c (a ++ b)). simpl.
  by destruct (ascii_dec c c).
Qed.

Lemma prefix_true_app (a s : string) :
  String.prefix a s = true → ∃ b, s = a ++ b.
Proof.
  revert s. induction a as [|c a IH]; intros s Hs; [by exists s|].
  destruct s as [|c' s]; [discriminate|]. simpl in Hs.
  destruct (ascii_dec c c') as [->|]; [|discriminate].
  destruct (IH s Hs) as (b & ->). by exists b.
Qed.

Lemma replace_from_skip (old new u s : string) :
  replace_from old new (u ++ s) (String.length u) = replace_from old new s O.
Proof.
  induction u as [|c u IH]; [reflexivity|].
  change (String c u ++ s) with (String c (u ++ s)). simpl. exact IH.
Qed.

Lemma str_replace_at_match (old new s : string) :
  old ≠ EmptyString →
  str_replace (old ++ s) old new = new ++ str_replace s old new.
Proof.
  intros Hold. destruct old as [|c old]; [done|].
  unfold str_replace.
  change (String c old ++ s) with (String c (old ++ s)).
  cbn [replace_from].
  change (String c (old ++ s)) with (String c old ++ s).
  rewrite prefix_app. cbn [String.length]. rewrite Nat.sub_1_r. cbn [Nat.pred].
  by rewrite replace_from_skip.
Qed.

Lemma str_replace_no_match (old new s : string) :
  ¬ occurs_in old s → str_replace s old new = s.
Proof.
  unfold str_replace. induction s as [|c s IH]; intros Hno; [reflexivity|].
  cbn [replace_from].
  destruct (String.prefix old (String c s)) eqn:Hprefix.
  - exfalso. apply Hno. apply prefix_true_app in Hprefix as (b & Hb).
    exists EmptyString, b. exact Hb.
  - f_equal. apply IH. intros (a & b & ->). apply Hno.
    by exists (String c a), b.
Qed.

Lemma prefix_cons (a b : ascii) (s1 s2 : string) :
  String.prefix (String a s1) (String b s2) = true →
  a = b ∧ String.prefix s1 s2 = true.
Proof. simpl. by destruct (ascii_dec a b). Qed.

Lemma prefix_hms (a b : string) :
  String.prefix "HMS-" (a ++ "HMS-" ++ b) = true →
  a = EmptyString ∨ ∃ rest, a = "HMS-" ++ rest.
Proof.
  intros H. destruct a as [|c a]; [by left|]. right.
  cbn [String.append] in H. apply prefix_cons in H as [<- H].
  do 3 (destruct a as [|? a]; [vm_compute in H; discriminate H|];
        cbn [String.append] in H; apply prefix_cons in H as [<- H]).
  by exists a.
Qed.

(** The first [HMS-] of a name is replaced, and so are those after it. *)
Lemma str_replace_first (new a b : string) :
  ¬ occurs_in "HMS-" a →
  str_replace (a ++ "HMS-" ++ b) "HMS-" new
  = a ++ new ++ str_replace b "HMS-" new.
Proof.
  induction a as [|ch a IH]; intros Hno.
  - change (str_replace ("HMS-" ++ b) "HMS-" new = new ++ str_replace b "HMS-" new).
    by apply str_replace_at_match.
  - change (String ch a ++ "HMS-" ++ b) with (String ch (a ++ "HMS-" ++ b)).
    change (String ch a ++ new ++ str_replace b "HMS-" new)
      with (String ch (a ++ new ++ str_replace b "HMS-" new)).
    unfold str_replace at 1. cbn [replace_from].
    destruct (String.prefix "HMS-" (String ch (a ++ "HMS-" ++ b))) eqn:Hprefix.
    + exfalso.
      destruct (prefix_hms (String ch a) b Hprefix) as [|(rest & Hrest)];
        [discriminate|].
      apply Hno. exists EmptyString, rest. exact Hrest.
    + f_equal. apply IH. intros (a1 & a2 & ->). apply Hno.
      by exists (String ch a1), a2.
Qed.

(** X12: who a ticket is assigned to.  Start failures, and issues of
    any type other than test_failure, go to HMS-DEV.  A test failure
    goes to the component's name with every [HMS-] replaced by
    [HMS-AGT-], wherever it stands: the text before the first [HMS-] is
    kept, the [HMS-] becomes [HMS-AGT-], and what follows it is treated
    the same way; a name without [HMS-] is its own assignee.  So
    [HMS-x] goes to [HMS-AGT-x], and [x-HMS-y] to [x-HMS-AGT-y], when
    [x] and [y] hold no [HMS-]. *)
Theorem ticket_assignee (component issue_type : string) :
  determine_responsible_agent component "start_failure" = "HMS-DEV" ∧
  (issue_type ≠ "start_failure" → issue_type ≠ "test_failure" →
   determine_responsible_agent component issue_type = "HMS-DEV") ∧
  determine_responsible_agent ("HMS-" ++ component) "test_failure"
  = "HMS-AGT-" ++ determine_responsible_agent component "test_failure" ∧
  (¬ occurs_in "HMS-" component →
   determine_responsible_agent component "test_failure" = component ∧
   determine_responsible_agent ("HMS-" ++ component) "test_failure"
   = "HMS-AGT-" ++ component ∧
   ∀ rest,
     determine_responsible_agent (component ++ "HMS-" ++ rest) "test_failure"
     = component ++ "HMS-AGT-" ++ determine_responsible_agent rest "test_failure").
Proof.
  split; [reflexivity|]. split; [|split].
  - intros Hs Ht. unfold determine_responsible_agent.
    rewrite bool_decide_eq_false_2 by done.
    by rewrite bool_decide_eq_false_2 by done.
  - unfold determine_responsible_agent; simpl.
    by apply str_replace_at_match.
  - intros Hno. unfold determine_responsible_agent; simpl.
    rewrite str_replace_at_match by done.
    rewrite str_replace_no_match by done.
    split; [done|]. split; [done|].
    intros rest. by apply str_replace_first.
Qed.

Lemma ticket_assignee_witness :
  determine_responsible_agent "X-HMS-API" "test_failure" = "X-HMS-AGT-API" ∧
  determine_responsible_agent "HMS-A2A-HMS-GOV" "test_failure"
  = "HMS-AGT-A2A-HMS-AGT-GOV" ∧
  determine_responsible_agent "X-HMS-API" "timeout" = "HMS-DEV".
Proof.
  assert (Hx : ¬ occurs_in "HMS-" "X-").
  { intros (a & b & H). destruct a as [|? [|? [|? a]]]; simplify_eq/=. }
  assert (Ha : ¬ occurs_in "HMS-" "A2A-").
  { intros (a & b & H). destruct a as [|? [|? [|? [|? [|? a]]]]]; simplify_eq/=. }
  assert (Hapi : ¬ occurs_in "HMS-" "API").
  { intros (a & b & H). destruct a as [|? [|? [|? [|? a]]]]; simplify_eq/=. }
  assert (Hgov : ¬ occurs_in "HMS-" "GOV").
  { intros (a & b & H). destruct a as [|? [|? [|? [|? a]]]]; simplify_eq/=. }
  split; [|split].
  - destruct (ticket_assignee "X-" "test_failure") as (_ & _ & _ & H).
    destruct (H Hx) as (_ & _ & Hrest).
    destruct (ticket_assignee "API" "test_failure") as (_ & _ & _ & H').
    destruct (H' Hapi) as (Hsame & _).
    exact (eq_trans (Hrest "API") (f_equal (λ s, "X-" ++ "HMS-AGT-" ++ s) Hsame)).
  - destruct (ticket_assignee "A2A-HMS-GOV" "test_failure") as (_ & _ & Hlead & _).
    destruct (ticket_assignee "A2A-" "test_failure") as (_ & _ & _ & H).
    destruct (H Ha) as (_ & _ & Hrest).
    destruct (ticket_assignee "GOV" "test_failure") as (_ & _ & _ & H').
    destruct (H' Hgov) as (Hsame & _).
    exact (eq_trans Hlead
             (f_equal (λ s, "HMS-AGT-" ++ s)
                (eq_trans (Hrest "GOV")
                   (f_equal (λ s, "A2A-" ++ "HMS-AGT-" ++ s) Hsame)))).
  - destruct (ticket_assignee "X-HMS-API" "timeout") as (_ & H & _).
    by apply H.
Defined.

(** * The ticket interface of the agent integration *)

Lemma substring_all (s : string) : substring 0 (String.length s) s = s.
Proof. induction s as [|c s IH]; [reflexivity|]. simpl. by rewrite IH. Qed.

Lemma substring_skip (a b : string) :
  substring (String.length a) (String.length b) (a ++ b) = b.
Proof.
  induction a as [|c a IH]; [apply substring_all|].
  change (String c a ++ b) with (String c (a ++ b)). simpl. exact IH.
Qed.

Lemma string_length_app (a b : string) :
  String.length (a ++ b) = (String.length a + String.length b)%nat.
Proof.
  induction a as [|c a IH]; [reflexivity|].
  change (String c a ++ b) with (String c (a ++ b)). simpl. by rewrite IH.
Qed.

Lemma endswith_app (a suffix : string) : endswith (a ++ suffix) suffix = true.
Proof.
  unfold endswith. rewrite string_length_app.
  apply andb_true_iff. split; [apply Nat.leb_le; lia|].
  apply bool_decide_eq_true_2.
  replace (String.length a + String.length suffix - String.length suffix)%nat
    with (String.length a) by lia.
  apply substring_skip.
Qed.

Lemma filtered_out_off (wanted : option string) (ticket : json) (key : string) :
  truthy wanted = false → filtered_out wanted ticket key = Ok false.
Proof. intros H. unfold filtered_out. destruct wanted; [by rewrite H | done]. Qed.

Lemma filtered_out_not_object (wanted : option string) (ticket : json) (key : string) :
  truthy wanted = true → is_object ticket = false →
  filtered_out wanted ticket key = Raise AttributeError.
Proof.
  intros H Hobj. unfold filtered_out. destruct wanted; [|done].
  rewrite H. by destruct ticket.
Qed.

Lemma truthy_Some (s : string) : truthy (Some s) = true ↔ s ≠ EmptyString.
Proof.
  unfold truthy. rewrite negb_true_iff, bool_decide_eq_false. done.
Qed.

Lemma eq_str_true (v : json) (s : string) : eq_str v s = true ↔ v = JStr s.
Proof.
  destruct v; simpl; try (split; [discriminate | congruence]).
  rewrite bool_decide_eq_true. split; congruence.
Qed.

Lemma filtered_out_object (wanted : option string) (m : gmap string json)
    (key : string) :
  ∃ b, filtered_out wanted (JObj m) key = Ok b ∧ (b = false ↔ passes wanted m key).
Proof.
  unfold filtered_out, passes. destruct wanted as [s|].
  - destruct (truthy (Some s)) eqn:Hs.
    + simpl. eexists. split; [reflexivity|].
      rewrite negb_false_iff, eq_str_true. apply truthy_Some in Hs. split.
      * intros Hv s' [= <-] _. destruct (m !! key); simpl in Hv; congruence.
      * intros Hp. by rewrite (Hp s eq_refl Hs).
    + exists false. split; [reflexivity|]. split; [|done].
      intros _ s' [= <-] Hne. apply truthy_Some in Hne. congruence.
  - exists false. split; [reflexivity|]. split; [|done]. by intros _ s' [=].
Qed.

Lemma filtered_out_false_inv (wanted : option string) (ticket : json)
    (key s : string) :
  filtered_out wanted ticket key = Ok false →
  wanted = Some s → s ≠ EmptyString →
  dict_get ticket key JNull = Ok (JStr s).
Proof.
  intros H -> Hs. unfold filtered_out in H.
  rewrite (proj2 (truthy_Some s) Hs) in H.
  destruct (dict_get ticket key JNull) as [v|e]; [|discriminate].
  simpl in H. injection H as H. apply negb_false_iff, eq_str_true in H.
  by rewrite H.
Qed.

Lemma include_ticket_object (agent_id component status : option string)
    (m : gmap string json) :
  ∃ b, include_ticket agent_id component status (JObj m) = Ok b ∧
       (b = true ↔ passes agent_id m "assigned_to" ∧
                   passes component m "component" ∧ passes status m "status").
Proof.
  unfold include_ticket.
  destruct (filtered_out_object agent_id m "assigned_to") as (a & -> & Ha).
  destruct (filtered_out_object component m "component") as (c & -> & Hc).
  destruct (filtered_out_object status m "status") as (s & -> & Hs).
  simpl. eexists. split; [reflexivity|].
  rewrite negb_true_iff, !orb_false_iff. tauto.
Qed.

Lemma include_ticket_true_inv (agent_id component status : option string)
    (ticket : json) :
  include_ticket agent_id component status ticket = Ok true →
  filtered_out agent_id ticket "assigned_to" = Ok false ∧
  filtered_out component ticket "component" = Ok false ∧
  filtered_out status ticket "status" = Ok false.
Proof.
  unfold include_ticket.
  destruct (filtered_out agent_id ticket "assigned_to") as [a|]; [|discriminate].
  destruct (filtered_out component ticket "component") as [c|]; [|discriminate].
  destruct (filtered_out status ticket "status") as [s|]; [|discriminate].
  simpl. intros [= H]. apply negb_true_iff in H.
  apply orb_false_iff in H as [H ->]. by apply orb_false_iff in H as [-> ->].
Qed.

Lemma include_ticket_not_object (agent_id component status : option string)
    (ticket : json) :
  is_object ticket = false →
  truthy agent_id || truthy component || truthy status = true →
  include_ticket agent_id component status ticket = Raise AttributeError.
Proof.
  intros Hobj Hf. unfold include_ticket.
  destruct (truthy agent_id) eqn:Ha.
  { by rewrite (filtered_out_not_object _ _ _ Ha Hobj). }
  rewrite (filtered_out_off _ _ _ Ha); simpl.
  destruct (truthy component) eqn:Hc.
  { by rewrite (filtered_out_not_object _ _ _ Hc Hobj). }
  rewrite (filtered_out_off _ _ _ Hc); simpl.
  simpl in Hf. by rewrite (filtered_out_not_object _ _ _ Hf Hobj).
Qed.

Lemma include_ticket_no_filter (agent_id component status : option string)
    (ticket : json) :
  truthy agent_id = false → truthy component = false → truthy status = false →
  include_ticket agent_id component status ticket = Ok true.
Proof.
  intros Ha Hc Hs. unfold include_ticket.
  by rewrite (filtered_out_off _ _ _ Ha), (filtered_out_off _ _ _ Hc),
    (filtered_out_off _ _ _ Hs).
Qed.

Section Scan.
Variables (files : gmap string file) (agent_id component status : option string).

Lemma scan_tickets_sound (names : list string) (tickets : list json) (t : json) :
  t ∈ scan_tickets files agent_id component status names tickets →
  t ∈ tickets ∨
  ∃ name, name ∈ names ∧ files !! name = Some (FJson t) ∧
          include_ticket agent_id component status t = Ok true.
Proof.
  revert tickets. induction names as [|name names IH]; intros tickets Ht.
  { by left. }
  simpl in Ht.
  assert (∀ acc, t ∈ scan_tickets files agent_id component status names acc →
                 (t ∈ acc → t ∈ tickets ∨ ∃ name0, name0 ∈ name :: names ∧
                    files !! name0 = Some (FJson t) ∧
                    include_ticket agent_id component status t = Ok true) →
                 t ∈ tickets ∨ ∃ name0, name0 ∈ name :: names ∧
                    files !! name0 = Some (FJson t) ∧
                    include_ticket agent_id component status t = Ok true) as Hrec.
  { intros acc Hacc Hin. destruct (IH acc Hacc) as [H | (n & Hn & Hf & Hi)].
    - by apply Hin.
    - right. exists n. split; [by apply list_elem_of_further | done]. }
  destruct (files !! name) as [[ticket|text|why]|] eqn:Hfile.
  - destruct (include_ticket agent_id component status ticket) as [[|]|e] eqn:Hinc.
    + apply (Hrec _ Ht). intros [H | ->%list_elem_of_singleton]%elem_of_app.
      * by left.
      * right. exists name. split; [apply list_elem_of_here | done].
    + apply (Hrec _ Ht). by left.
    + by left.
  - apply (Hrec _ Ht). by left.
  - destruct (is_os_error (raised_by why)); [|by left].
    apply (Hrec _ Ht). by left.
  - apply (Hrec _ Ht). by left.
Qed.

Lemma scan_tickets_complete (names : list string) (tickets : list json) :
  (∀ name v, name ∈ names → files !! name = Some (FJson v) →
             ∃ b, include_ticket agent_id component status v = Ok b) →
  (∀ name why, name ∈ names → files !! name = Some (FUnreadable why) →
               is_os_error (raised_by why) = true) →
  scan_tickets files agent_id component status names tickets
  = (tickets ++ omap (selected_ticket files agent_id component status) names)%list.
Proof.
  revert tickets. induction names as [|name names IH]; intros tickets Hok Hskip.
  { simpl. by rewrite app_nil_r. }
  assert (∀ acc, scan_tickets files agent_id component status names acc
                 = (acc ++ omap (selected_ticket files agent_id component status) names)%list)
    as Hrec.
  { intros acc. apply IH.
    - intros n v Hn. apply Hok. by apply list_elem_of_further.
    - intros n why Hn. apply Hskip. by apply list_elem_of_further. }
  simpl. unfold selected_ticket at 1.
  destruct (files !! name) as [[ticket|text|why]|] eqn:Hfile; try apply Hrec.
  - destruct (Hok name ticket (list_elem_of_here _ _) Hfile) as ([|] & ->).
    + rewrite Hrec. by rewrite <- app_assoc.
    + apply Hrec.
  - rewrite (Hskip name why (list_elem_of_here _ _) Hfile). apply Hrec.
Qed.

Lemma scan_tickets_abort (before after : list string) (bad : string) (v : json)
    (e : exn) (tickets : list json) :
  files !! bad = Some (FJson v) →
  include_ticket agent_id component status v = Raise e →
  scan_tickets files agent_id component status (before ++ bad :: after) tickets
  = scan_tickets files agent_id component status before tickets.
Proof.
  intros Hbad Hraise. revert tickets.
  induction before as [|name before IH]; intros tickets.
  { simpl. by rewrite Hbad, Hraise. }
  simpl. destruct (files !! name) as [[ticket|text|why]|]; try apply IH.
  - destruct (include_ticket agent_id component status ticket) as [[|]|];
      try apply IH.
    reflexivity.
  - destruct (is_os_error (raised_by why)); [apply IH | reflexivity].
Qed.

Lemma scan_tickets_acc (names : list string) (tickets : list json) :
  scan_tickets files agent_id component status names tickets
  = (tickets ++ scan_tickets files agent_id component status names [])%list.
Proof.
  revert tickets. induction names as [|name names IH]; intros tickets.
  { simpl. by rewrite app_nil_r. }
  simpl. destruct (files !! name) as [[ticket|text|why]|]; try apply IH.
  - destruct (include_ticket agent_id component status ticket) as [[|]|];
      try apply IH; [|by rewrite app_nil_r].
    rewrite IH, (IH [ticket]). by rewrite <- app_assoc.
  - destruct (is_os_error (raised_by why)); [apply IH | by rewrite app_nil_r].
Qed.

Lemma scan_tickets_through (names more : list string) (tickets : list json) :
  (∀ name v, name ∈ names → files !! name = Some (FJson v) →
             ∃ b, include_ticket agent_id component status v = Ok b) →
  (∀ name why, name ∈ names → files !! name = Some (FUnreadable why) →
               is_os_error (raised_by why) = true) →
  scan_tickets files agent_id component status (names ++ more) tickets
  = scan_tickets files agent_id component status more
      (scan_tickets files agent_id component status names tickets).
Proof.
  revert tickets. induction names as [|name names IH]; intros tickets Hok Hskip.
  { reflexivity. }
  assert (∀ acc, scan_tickets files agent_id component status (names ++ more) acc
                 = scan_tickets files agent_id component status more
                     (scan_tickets files agent_id component status names acc))
    as Hrec.
  { intros acc. apply IH.
    - intros n v Hn. apply Hok. by apply list_elem_of_further.
    - intros n why Hn. apply Hskip. by apply list_elem_of_further. }
  simpl. destruct (files !! name) as [[ticket|text|why]|] eqn:Hfile; try apply Hrec.
  - destruct (Hok name ticket (list_elem_of_here _ _) Hfile) as ([|] & ->);
      apply Hrec.
  - rewrite (Hskip name why (list_elem_of_here _ _) Hfile). apply Hrec.
Qed.

End Scan.

Lemma selected_ticket_Some (files : gmap string file)
    (agent_id component status : option string) (name : string) (t : json) :
  selected_ticket files agent_id component status name = Some t ↔
  files !! name = Some (FJson t) ∧
  include_ticket agent_id component status t = Ok true.
Proof.
  unfold selected_ticket. split.
  - destruct (files !! name) as [[ticket| |]|]; try discriminate.
    destruct (include_ticket agent_id component status ticket) as [[|]|] eqn:H;
      try discriminate.
    by intros [= ->].
  - intros [-> ->]. reflexivity.
Qed.

(** X13: [get_work_tickets] never raises and changes nothing; without
    the ticket directory it returns no ticket.  Every ticket it returns
    is the content of a file of the listing whose name ends in [.json],
    and for each filter that is set, the ticket's field equals the
    filter. *)
Theorem listed_tickets_pass_the_filters (listing : list string)
    (agent_id component status : option string) (w : world) :
  ∃ tickets,
    get_work_tickets listing agent_id component status w = (Ok tickets, w) ∧
    (tickets_dir w = None → tickets = []) ∧
    ∀ ticket, ticket ∈ tickets →
      (∃ files filename,
         tickets_dir w = Some files ∧ filename ∈ listing ∧
         endswith filename ".json" = true ∧
         files !! filename = Some (FJson ticket)) ∧
      (∀ s, agent_id = Some s → s ≠ EmptyString →
            dict_get ticket "assigned_to" JNull = Ok (JStr s)) ∧
      (∀ s, component = Some s → s ≠ EmptyString →
            dict_get ticket "component" JNull = Ok (JStr s)) ∧
      (∀ s, status = Some s → s ≠ EmptyString →
            dict_get ticket "status" JNull = Ok (JStr s)).
Proof.
  unfold get_work_tickets. destruct (tickets_dir w) as [files|].
  2: { exists []. split; [done|]. split; [done|]. by intros t Ht%elem_of_nil. }
  eexists. split; [reflexivity|]. split; [done|].
  intros t Ht. apply scan_tickets_sound in Ht as [Ht%elem_of_nil | Ht]; [done|].
  destruct Ht as (name & Hname & Hfile & Hinc).
  apply list_elem_of_filter in Hname as [Hends Hname].
  apply include_ticket_true_inv in Hinc as (Ha & Hc & Hs).
  split; [by exists files, name|].
  split; [|split]; intros s; by apply filtered_out_false_inv.
Qed.

Lemma get_work_tickets_objects (listing : list string)
    (agent_id component status : option string) (w : world)
    (files : gmap string file) :
  tickets_dir w = Some files →
  tickets_are_objects files →
  get_work_tickets listing agent_id component status w
  = (Ok (omap (selected_ticket files agent_id component status)
           (filter (λ f, endswith f ".json" = true) listing)), w).
Proof.
  intros Hdir Hobj. unfold get_work_tickets. rewrite Hdir. do 2 f_equal.
  rewrite scan_tickets_complete; [reflexivity| |].
  - intros name v _ Hfile. specialize (Hobj name _ Hfile). cbn in Hobj.
    destruct v; try discriminate.
    destruct (include_ticket_object agent_id component status m) as (b & Hb & _).
    by exists b.
  - intros name why _ Hfile. exact (Hobj name _ Hfile).
Qed.

(** X14: when every ticket file that loads holds a dictionary, and
    the others fail to load in a way the inner handler of the listing
    skips ([JSONDecodeError] or [IOError]), [get_work_tickets] returns
    exactly the tickets of the [.json] files of the listing that pass
    the three filters, in the order of the listing: a dictionary is
    returned if and only if some such file holds it and each filter
    that is set equals its field. *)
Theorem matching_tickets_are_listed (listing : list string)
    (agent_id component status : option string) (w : world)
    (files : gmap string file) :
  tickets_dir w = Some files →
  tickets_are_objects files →
  ∃ tickets,
    get_work_tickets listing agent_id component status w = (Ok tickets, w) ∧
    tickets = omap (selected_ticket files agent_id component status)
                (filter (λ f, endswith f ".json" = true) listing) ∧
    ∀ m, JObj m ∈ tickets ↔
         (∃ filename, filename ∈ listing ∧ endswith filename ".json" = true ∧
                      files !! filename = Some (FJson (JObj m))) ∧
         passes agent_id m "assigned_to" ∧ passes component m "component" ∧
         passes status m "status".
Proof.
  intros Hdir Hobj. eexists.
  split; [by apply get_work_tickets_objects|]. split; [reflexivity|].
  intros m. rewrite list_elem_of_omap.
  destruct (include_ticket_object agent_id component status m) as (b & Hb & Hpass).
  split.
  - intros (name & [Hends Hname]%list_elem_of_filter & Hsel).
    apply selected_ticket_Some in Hsel as [Hfile Hinc].
    split; [by exists name|]. apply Hpass. congruence.
  - intros [(name & Hname & Hends & Hfile) Hp].
    exists name. split; [by apply list_elem_of_filter|].
    apply selected_ticket_Some. split; [done|].
    apply Hpass in Hp. congruence.
Qed.

(** X15: a [.json] file in the ticket directory that parses to
    something other than a dictionary ends the listing as soon as a
    filter is set: the tickets of the files listed after it are not
    returned, and no error is reported to the caller.  With no filter
    set the file's content is returned as a ticket, between those found
    before and after it, unless a file before it has ended the listing
    by failing to load. *)
Theorem odd_ticket_file_ends_the_listing (before after : list string)
    (bad : string) (v : json) (agent_id component status : option string)
    (w : world) (files : gmap string file) :
  tickets_dir w = Some files →
  endswith bad ".json" = true →
  files !! bad = Some (FJson v) →
  is_object v = false →
  (truthy agent_id || truthy component || truthy status = true →
   get_work_tickets (before ++ bad :: after) agent_id component status w
   = get_work_tickets before agent_id component status w) ∧
  (truthy agent_id = false → truthy component = false → truthy status = false →
   (∀ name why, name ∈ before → files !! name = Some (FUnreadable why) →
                is_os_error (raised_by why) = true) →
   ∃ tickets more,
     get_work_tickets before agent_id component status w = (Ok tickets, w) ∧
     get_work_tickets after agent_id component status w = (Ok more, w) ∧
     get_work_tickets (before ++ bad :: after) agent_id component status w
     = (Ok (tickets ++ v :: more)%list, w)).
Proof.
  intros Hdir Hends Hbad Hobj. split.
  - intros Hfilter. unfold get_work_tickets. rewrite Hdir. do 2 f_equal.
    rewrite filter_app, filter_cons_True by done.
    apply (scan_tickets_abort _ _ _ _ _ _ bad v AttributeError); [done|].
    by apply include_ticket_not_object.
  - intros Ha Hc Hs Hskip.
    unfold get_work_tickets. rewrite Hdir.
    eexists _, _. split; [reflexivity|]. split; [reflexivity|]. do 2 f_equal.
    rewrite filter_app, filter_cons_True by done.
    rewrite scan_tickets_through.
    + cbn [scan_tickets]. rewrite Hbad.
      rewrite (include_ticket_no_filter _ _ _ v Ha Hc Hs).
      rewrite scan_tickets_acc. by rewrite <- app_assoc.
    + intros name t _ _. exists true. by apply include_ticket_no_filter.
    + intros name why [_ Hname]%list_elem_of_filter. by apply Hskip.
Qed.

(** ** Updating a ticket *)

Lemma merge_details_object (items : list (string * json)) :
  ∀ (m old : gmap string json),
    NoDup items.*1 →
    m !! "details" = Some (JObj old) →
    merge_details (JObj m) items
    = Ok (JObj (<["details" := JObj (list_to_map items ∪ old)]> m)).
Proof.
  induction items as [|[k v] items IH]; intros m old Hnd Hm.
  { simpl. rewrite (left_id_L ∅ (∪)). by rewrite insert_id. }
  cbn [merge_details]. rewrite (setitem2_Ok _ _ _ _ _ Hm). cbn [mbind result_bind].
  rewrite fmap_cons in Hnd. apply NoDup_cons in Hnd as [Hk Hnd]. cbn [fst] in Hk.
  rewrite (IH _ (<[k := v]> old) Hnd) by apply lookup_insert_eq.
  rewrite insert_insert_eq. do 4 f_equal.
  cbn [list_to_map foldr]. cbn.
  rewrite <- insert_union_l.
  by rewrite insert_union_r by by apply not_elem_of_list_to_map_1.
Qed.

Lemma apply_update_object (m : gmap string json) (key : string) (value : json) :
  (∀ md, key = "details" → value = JObj md → details_mergeable m) →
  ∃ stored,
    apply_update (JObj m) key value = Ok (JObj (<[key := stored]> m)) ∧
    (¬ (key = "details" ∧ is_object value = true) → stored = value) ∧
    (∀ md, key = "details" → value = JObj md →
           stored = JObj (md ∪ details_of m)).
Proof.
  intros Hmerge. unfold apply_update.
  destruct value as [| | | | |md];
    try (eexists; split; [reflexivity|]; split; [done | by intros md _ [=]]).
  destruct (bool_decide (key = "details")) eqn:Hkey.
  2: { apply bool_decide_eq_false in Hkey.
       eexists; split; [reflexivity|]; split; [done | by intros md' ? _]. }
  apply bool_decide_eq_true in Hkey as ->.
  assert (merge_details (JObj (<["details" := JObj (details_of m)]> m))
            (map_to_list md)
          = Ok (JObj (<["details" := JObj (md ∪ details_of m)]> m))) as Hrun.
  { rewrite (merge_details_object _ _ (details_of m));
      [|apply NoDup_fst_map_to_list | apply lookup_insert_eq].
    by rewrite insert_insert_eq, list_to_map_to_list. }
  exists (JObj (md ∪ details_of m)).
  split; [|split; [intros []; by split | by intros md' _ [= ->]]].
  cbn [py_contains mbind result_bind].
  destruct (Hmerge md eq_refl eq_refl) as [Hnone | (old & Hold)].
  - rewrite Hnone. rewrite bool_decide_eq_false_2 by apply is_Some_None.
    cbn [setitem mbind result_bind].
    assert (details_of m = ∅) as Hempty by (unfold details_of; by rewrite Hnone).
    rewrite Hempty in Hrun |- *. exact Hrun.
  - rewrite bool_decide_eq_true_2 by (rewrite Hold; by eexists).
    cbn [mbind result_bind].
    assert (details_of m = old) as Hd by (unfold details_of; by rewrite Hold).
    rewrite Hd in Hrun |- *. rewrite insert_id in Hrun by done. exact Hrun.
Qed.

Lemma details_of_insert_ne (m : gmap string json) (k : string) (v : json) :
  k ≠ "details" → details_of (<[k := v]> m) = details_of m.
Proof. intros H. unfold details_of. by rewrite lookup_insert_ne. Qed.

Lemma details_mergeable_insert_ne (m : gmap string json) (k : string) (v : json) :
  k ≠ "details" → details_mergeable m → details_mergeable (<[k := v]> m).
Proof. intros H. unfold details_mergeable. by rewrite lookup_insert_ne. Qed.

Lemma apply_updates_object (updates : list (string * json)) :
  ∀ m : gmap string json,
    NoDup updates.*1 →
    (∀ md, ("details", JObj md) ∈ updates → details_mergeable m) →
    ∃ m',
      apply_updates (JObj m) updates = Ok (JObj m') ∧
      (∀ k, k ∉ updates.*1 → m' !! k = m !! k) ∧
      (∀ k v, (k, v) ∈ updates → ¬ (k = "details" ∧ is_object v = true) →
              m' !! k = Some v) ∧
      (∀ md, ("details", JObj md) ∈ updates →
             m' !! "details" = Some (JObj (md ∪ details_of m))).
Proof.
  induction updates as [|[key value] updates IH]; intros m Hnd Hmerge.
  { exists m. split; [reflexivity|]. split; [done|].
    split; [by intros k v Hin%elem_of_nil | by intros md Hin%elem_of_nil]. }
  rewrite fmap_cons in Hnd. apply NoDup_cons in Hnd as [Hkey Hnd]. cbn [fst] in Hkey.
  destruct (apply_update_object m key value) as (stored & Hrun & Hplain & Hmerged).
  { intros md -> ->. apply (Hmerge md). apply list_elem_of_here. }
  assert (∀ v, (key, v) ∈ updates → False) as Hfresh.
  { intros v Hin. apply Hkey. apply list_elem_of_fmap. by exists (key, v). }
  destruct (IH (<[key := stored]> m) Hnd) as (m' & Hrest & Hother & Hset & Hdet).
  { intros md Hin. apply details_mergeable_insert_ne.
    - intros ->. by apply (Hfresh (JObj md)).
    - apply (Hmerge md). by apply list_elem_of_further. }
  exists m'. split; [|split; [|split]].
  - cbn [apply_updates]. rewrite Hrun. exact Hrest.
  - intros k Hk. rewrite fmap_cons in Hk. apply not_elem_of_cons in Hk as [Hne Hk].
    rewrite (Hother k Hk). by apply lookup_insert_ne.
  - intros k v [[= -> ->] | Hin]%elem_of_cons Hnot.
    + rewrite (Hother key Hkey), lookup_insert_eq. f_equal. by apply Hplain.
    + by apply Hset.
  - intros md [[= <- <-] | Hin]%elem_of_cons.
    + rewrite (Hother "details" Hkey), lookup_insert_eq. f_equal. by apply Hmerged.
    + rewrite (Hdet md Hin). rewrite details_of_insert_ne; [done|].
      intros ->. by apply (Hfresh (JObj md)).
Qed.

Lemma apply_updates_not_object (updates : list (string * json)) (ticket : json) :
  is_object ticket = false →
  apply_updates ticket updates = Raise TypeError ∨
  apply_updates ticket updates = Ok ticket.
Proof.
  intros Hobj. revert ticket Hobj.
  induction updates as [|[key value] updates IH]; intros ticket Hobj; [by right|].
  cbn [apply_updates].
  assert (apply_update ticket key value = Raise TypeError ∨
          apply_update ticket key value = Ok ticket) as [-> | ->];
    [|by left | by apply IH].
  unfold apply_update.
  assert (setitem ticket key value = Raise TypeError) as Hset by by destruct ticket.
  assert (∀ items, merge_details ticket items = Raise TypeError ∨
                   merge_details ticket items = Ok ticket) as Hmerge.
  { intros [|[k v] items]; [by right | left].
    cbn [merge_details]. unfold setitem2, getitem. by destruct ticket. }
  destruct value; try (by left).
  destruct (bool_decide (key = "details")); [|by left].
  destruct (py_contains ticket "details") as [[|]|e] eqn:Hc; cbn [mbind result_bind].
  - apply Hmerge.
  - left. by destruct ticket.
  - left. destruct ticket; try discriminate; by injection Hc as <-.
Qed.

Section UpdateTicket.
Variables (ticket_id : string) (updates : list (string * json)) (w : world).
Variables (files : gmap string file).
Hypothesis Hdir : tickets_dir w = Some files.

Lemma update_work_ticket_run (ticket : json) (m' : gmap string json) :
  files !! (ticket_id ++ ".json") = Some (FJson ticket) →
  apply_updates ticket updates = Ok (JObj m') →
  update_work_ticket ticket_id updates w
  = (Returns (JObj (<["updated_at" := JStr (clock w (ticks w))]> m')),
     mkWorld (status_dir w)
       (Some (<[ticket_id ++ ".json" :=
                  FJson (JObj (<["updated_at" := JStr (clock w (ticks w))]> m'))]>
                files))
       (logs_dir w) (clock w) (S (ticks w)) (uuids w) (draws w)).
Proof using Hdir.
  intros Hfile Hrun. unfold update_work_ticket. rewrite Hdir. cbn [mbind option_bind].
  rewrite Hfile. unfold a2a_lift.
  match goal with
  | |- (match ?c with _ => _ end) = _ =>
      assert (c = (Ok (JObj (<["updated_at" := JStr (clock w (ticks w))]> m')),
                   mkWorld (status_dir w)
                     (Some (<[ticket_id ++ ".json" :=
                                FJson (JObj (<["updated_at" :=
                                                 JStr (clock w (ticks w))]> m'))]>
                              files))
                     (logs_dir w) (clock w) (S (ticks w)) (uuids w) (draws w))) as ->;
      [|reflexivity]
  end.
  do 4 run_step. world_norm. reflexivity.
Qed.

Lemma update_work_ticket_raises (ticket : json) (e : exn) :
  files !! (ticket_id ++ ".json") = Some (FJson ticket) →
  (ticket ← apply_updates ticket updates;
   setitem ticket "updated_at" (JStr (clock w (ticks w)))) = Raise e →
  ∃ w', update_work_ticket ticket_id updates w = (Raises (TrackerExn e), w') ∧
        status_dir w' = status_dir w ∧ tickets_dir w' = tickets_dir w ∧
        logs_dir w' = logs_dir w.
Proof using Hdir.
  intros Hfile Hrun. unfold update_work_ticket. rewrite Hdir. cbn [mbind option_bind].
  rewrite Hfile. unfold a2a_lift.
  destruct (apply_updates ticket updates) as [ticket'|e'] eqn:Hupd.
  - cbn [mbind result_bind] in Hrun.
    match goal with
    | |- context [match ?c with _ => _ end] =>
        assert (c = (Raise e, tick w)) as ->
    end.
    { run_step. run_step. erewrite run_bind_raise; [reflexivity|].
      unfold lift. cbn [tick clock ticks]. by rewrite Hrun. }
    eexists. split; [reflexivity|]. done.
  - cbn [mbind result_bind] in Hrun. injection Hrun as ->.
    match goal with
    | |- context [match ?c with _ => _ end] =>
        assert (c = (Raise e, w)) as ->
    end.
    { erewrite run_bind_raise; reflexivity. }
    eexists. split; [reflexivity|]. done.
Qed.

End UpdateTicket.

Lemma apply_updates_bad_details (updates : list (string * json)) :
  ∀ (m md : gmap string json) (x : json),
    NoDup updates.*1 →
    m !! "details" = Some x → is_object x = false →
    ("details", JObj md) ∈ updates → md ≠ ∅ →
    apply_updates (JObj m) updates = Raise TypeError.
Proof.
  induction updates as [|[key value] updates IH]; intros m md x Hnd Hm Hx Hin Hmd.
  { by apply elem_of_nil in Hin. }
  rewrite fmap_cons in Hnd. apply NoDup_cons in Hnd as [Hkey Hnd]. cbn [fst] in Hkey.
  cbn [apply_updates].
  apply elem_of_cons in Hin as [[= <- <-] | Hin].
  - unfold apply_update. rewrite bool_decide_eq_true_2 by done.
    cbn [py_contains mbind result_bind].
    rewrite bool_decide_eq_true_2 by (rewrite Hm; by eexists).
    cbn [mbind result_bind].
    destruct (map_to_list md) as [|[k v] items] eqn:Hitems.
    { by apply map_to_list_empty_iff in Hitems. }
    cbn [merge_details]. unfold setitem2, getitem. rewrite Hm.
    cbn [mbind result_bind]. by destruct x.
  - assert (key ≠ "details") as Hne.
    { intros ->. apply Hkey. apply list_elem_of_fmap. by exists ("details", JObj md). }
    destruct (apply_update_object m key value) as (stored & -> & _); [done|].
    cbn [mbind result_bind].
    apply (IH _ md x); try done. by rewrite lookup_insert_ne.
Qed.

Lemma update_work_ticket_object (ticket_id : string) (updates : list (string * json))
    (w : world) (files : gmap string file) (m : gmap string json) :
  tickets_dir w = Some files →
  files !! (ticket_id ++ ".json") = Some (FJson (JObj m)) →
  NoDup updates.*1 →
  (∀ md, ("details", JObj md) ∈ updates → details_mergeable m) →
  ∃ m',
    update_work_ticket ticket_id updates w
    = (Returns (JObj (<["updated_at" := JStr (clock w (ticks w))]> m')),
       mkWorld (status_dir w)
         (Some (<[ticket_id ++ ".json" :=
                    FJson (JObj (<["updated_at" := JStr (clock w (ticks w))]> m'))]>
                  files))
         (logs_dir w) (clock w) (S (ticks w)) (uuids w) (draws w)) ∧
    (∀ k, k ∉ updates.*1 → m' !! k = m !! k) ∧
    (∀ k v, (k, v) ∈ updates → ¬ (k = "details" ∧ is_object v = true) →
            m' !! k = Some v) ∧
    (∀ md, ("details", JObj md) ∈ updates →
           m' !! "details" = Some (JObj (md ∪ details_of m))).
Proof.
  intros Hdir Hfile Hnd Hmerge.
  destruct (apply_updates_object updates m Hnd Hmerge) as (m' & Hrun & Hrest).
  exists m'. split; [|exact Hrest].
  by apply (update_work_ticket_run ticket_id updates w files Hdir (JObj m)).
Qed.

(** X16: an update that fails changes no file.  A ticket file that
    is missing (or a missing directory) raises [FileNotFoundError], one
    that does not parse raises [JSONDecodeError], one that holds no
    dictionary raises [TypeError], and so does merging a non-empty
    ["details"] into a ticket whose ["details"] is no dictionary. *)
Theorem failed_update_changes_no_file (ticket_id : string)
    (updates : list (string * json)) (w : world) :
  let found := tickets_dir w ≫= (λ files, files !! (ticket_id ++ ".json")) in
  let untouched (w' : world) :=
    status_dir w' = status_dir w ∧ tickets_dir w' = tickets_dir w ∧
    logs_dir w' = logs_dir w in
  (found = None →
   update_work_ticket ticket_id updates w
   = (Raises (TrackerExn (FileNotFoundError ("Work ticket not found: " ++ ticket_id))),
      w)) ∧
  (∀ text, found = Some (FText text) →
     update_work_ticket ticket_id updates w = (Raises JSONDecodeError, w)) ∧
  (∀ ticket, found = Some (FJson ticket) → is_object ticket = false →
     ∃ w', update_work_ticket ticket_id updates w = (Raises (TrackerExn TypeError), w') ∧
           untouched w') ∧
  (∀ m x md, found = Some (FJson (JObj m)) →
     m !! "details" = Some x → is_object x = false →
     NoDup updates.*1 → ("details", JObj md) ∈ updates → md ≠ ∅ →
     ∃ w', update_work_ticket ticket_id updates w = (Raises (TrackerExn TypeError), w') ∧
           untouched w').
Proof.
  intros found untouched. subst found untouched. cbv beta.
  split; [|split; [|split]].
  - intros Hnone. unfold update_work_ticket. by rewrite Hnone.
  - intros text Htext. unfold update_work_ticket. by rewrite Htext.
  - intros ticket Hfound Hobj.
    destruct (tickets_dir w) as [files|] eqn:Hdir; [|discriminate].
    cbn [mbind option_bind] in Hfound. rewrite <- Hdir.
    apply (update_work_ticket_raises ticket_id updates w files Hdir ticket TypeError Hfound).
    destruct (apply_updates_not_object updates ticket Hobj) as [-> | ->]; [done|].
    cbn [mbind result_bind]. by destruct ticket.
  - intros m x md Hfound Hm Hx Hnd Hin Hmd.
    destruct (tickets_dir w) as [files|] eqn:Hdir; [|discriminate].
    cbn [mbind option_bind] in Hfound. rewrite <- Hdir.
    apply (update_work_ticket_raises ticket_id updates w files Hdir (JObj m) TypeError
             Hfound).
    by rewrite (apply_updates_bad_details updates m md x Hnd Hm Hx Hin Hmd).
Qed.


(** X18: an update whose ["details"] is a dictionary is merged into
    the ticket's ["details"] (taken as empty when the ticket has none):
    the keys of the update hold the new values and the other detail
    keys keep their old ones. *)
Theorem ticket_update_merges_details (ticket_id : string)
    (updates : list (string * json)) (w : world) (files : gmap string file)
    (m md : gmap string json) :
  tickets_dir w = Some files →
  files !! (ticket_id ++ ".json") = Some (FJson (JObj m)) →
  NoDup updates.*1 →
  details_mergeable m →
  ("details", JObj md) ∈ updates →
  ∃ m' w' details',
    update_work_ticket ticket_id updates w = (Returns (JObj m'), w') ∧
    tickets_dir w' = Some (<[ticket_id ++ ".json" := FJson (JObj m')]> files) ∧
    m' !! "details" = Some (JObj details') ∧
    (∀ k v, md !! k = Some v → details' !! k = Some v) ∧
    (∀ k, md !! k = None → details' !! k = details_of m !! k).
Proof.
  intros Hdir Hfile Hnd Hmerge Hin.
  destruct (update_work_ticket_object ticket_id updates w files m Hdir Hfile Hnd)
    as (m' & Hrun & _ & _ & Hdet); [done|].
  eexists _, _, (md ∪ details_of m). split; [exact Hrun|].
  split; [reflexivity|]. split.
  { rewrite lookup_insert_ne by done. by apply Hdet. }
  split.
  - intros k v Hk. by apply lookup_union_Some_l.
  - intros k Hk. by apply lookup_union_r.
Qed.

(** ** The tracker's tickets seen through the interface *)

Lemma tickets_are_objects_insert (files : gmap string file) (name : string)
    (m : gmap string json) :
  tickets_are_objects files →
  tickets_are_objects (<[name := FJson (JObj m)]> files).
Proof.
  intros Hobj name' v. destruct (decide (name' = name)) as [->|Hne].
  - rewrite lookup_insert_eq. by intros [= <-].
  - rewrite lookup_insert_ne by done. apply Hobj.
Qed.

Lemma filtered_out_same (s : string) (m : gmap string json) (key : string) :
  m !! key = Some (JStr s) → filtered_out (Some s) (JObj m) key = Ok false.
Proof.
  intros Hm. destruct (filtered_out_object (Some s) m key) as (b & -> & Hb).
  f_equal. apply Hb. by intros s' [= <-] _.
Qed.


(** X19: a ticket written by the tracker's ticket generator is found
    by [get_work_tickets] under the agent it was assigned to, the
    component and the status open, in every listing that names its
    file, provided every ticket file that loads held a dictionary
    before and the others are of the kinds the listing skips; this
    holds afterwards as well. *)
Theorem generated_ticket_is_listed (component issue_type : string)
    (issue issue_id : json) (priority description : string) (w : world)
    (dt : gmap string file) (dl : gmap string string) (listing : list string) :
  getitem issue "id" = Ok issue_id →
  determine_priority component issue_type issue = Ok priority →
  generate_ticket_description component issue_type issue = Ok description →
  tickets_dir w = Some dt →
  logs_dir w = Some dl →
  tickets_are_objects dt →
  let ticket_id := "WRK-" ++ substring 0 8 (uuids w (draws w)) in
  (ticket_id ++ ".json") ∈ listing →
  ∃ w' files' tickets m,
    generate_work_ticket component issue_type issue w = (Ok ticket_id, w') ∧
    tickets_dir w' = Some files' ∧ tickets_are_objects files' ∧
    get_work_tickets listing
      (Some (determine_responsible_agent component issue_type))
      (Some component) (Some "open") w' = (Ok tickets, w') ∧
    JObj m ∈ tickets ∧
    m !! "id" = Some (JStr ticket_id) ∧
    m !! "issue_id" = Some issue_id ∧
    m !! "issue_type" = Some (JStr issue_type) ∧
    m !! "priority" = Some (JStr priority).
Proof.
  intros Hid Hprio Hdesc Hdt Hdl Hobj ticket_id Hlisted.
  pose proof (generate_work_ticket_Ok component issue_type issue issue_id priority
                description w dt Hid Hprio Hdesc Hdt dl Hdl) as Hrun.
  eexists _, _, _, _. split; [exact Hrun|].
  split; [reflexivity|].
  split; [by apply tickets_are_objects_insert|].
  split.
  { apply get_work_tickets_objects; [reflexivity|].
    by apply tickets_are_objects_insert. }
  split.
  { apply list_elem_of_omap. exists (ticket_id ++ ".json"). split.
    - apply list_elem_of_filter. split; [apply endswith_app | exact Hlisted].
    - apply selected_ticket_Some. split; [apply lookup_insert_eq|].
      unfold include_ticket.
      rewrite !filtered_out_same by reflexivity. reflexivity. }
  repeat split; reflexivity.
Qed.


Lemma tickets_are_objects_empty : tickets_are_objects ∅.
Proof. intros name v H. by rewrite lookup_empty in H. Qed.

Lemma matching_tickets_are_listed_witness :
  let ticket : gmap string json :=
    <["status" := JStr "open"]> (<["assigned_to" := JStr "HMS-DEV"]> ∅) in
  let w := mkWorld None (Some (<["WRK-1.json" := FJson (JObj ticket)]> ∅)) None
                   (λ _, "2025-01-01T00:00:00") 0 (λ _, EmptyString) 0 in
  ∃ tickets,
    get_work_tickets ["notes.txt"; "WRK-1.json"] (Some "HMS-DEV") None (Some "open") w
    = (Ok tickets, w) ∧
    JObj ticket ∈ tickets.
Proof.
  intros ticket w.
  destruct (matching_tickets_are_listed ["notes.txt"; "WRK-1.json"] (Some "HMS-DEV") None
              (Some "open") w (<["WRK-1.json" := FJson (JObj ticket)]> ∅) eq_refl
              (tickets_are_objects_insert _ _ _ tickets_are_objects_empty))
    as (tickets & Hrun & _ & Hin).
  exists tickets. split; [exact Hrun|]. apply Hin. split.
  - exists "WRK-1.json". split; [|split].
    + apply list_elem_of_further, list_elem_of_here.
    + reflexivity.
    + apply lookup_insert_eq.
  - split; [|split].
    + intros s [= <-] _. unfold ticket. by rewrite lookup_insert_ne, lookup_insert_eq.
    + intros s [=].
    + intros s [= <-] _. apply lookup_insert_eq.
Defined.

Lemma odd_ticket_file_ends_the_listing_witness :
  let ticket : json := JObj (<["status" := JStr "open"]> ∅) in
  let files : gmap string file :=
    <["WRK-2.json" := FJson (JArr [])]> (<["WRK-1.json" := FJson ticket]> ∅) in
  let w := mkWorld None (Some files) None (λ _, "2025-01-01T00:00:00") 0
                   (λ _, EmptyString) 0 in
  get_work_tickets (["WRK-1.json"] ++ "WRK-2.json" :: ["WRK-3.json"])
    None None (Some "open") w
  = get_work_tickets ["WRK-1.json"] None None (Some "open") w.
Proof.
  intros ticket files w.
  apply (odd_ticket_file_ends_the_listing ["WRK-1.json"] ["WRK-3.json"] "WRK-2.json"
           (JArr []) None None (Some "open") w files eq_refl eq_refl
           (lookup_insert_eq _ _ _) eq_refl).
  reflexivity.
Defined.

Lemma failed_update_changes_no_file_witness :
  let w := mkWorld None (Some (<["WRK-1.json" := FJson (JArr [])]> ∅)) None
                   (λ _, "2025-01-01T00:00:00") 0 (λ _, EmptyString) 0 in
  update_work_ticket "WRK-9" [("status", JStr "closed")] w
  = (Raises (TrackerExn (FileNotFoundError "Work ticket not found: WRK-9")), w) ∧
  ∃ w', update_work_ticket "WRK-1" [("status", JStr "closed")] w
        = (Raises (TrackerExn TypeError), w') ∧
        tickets_dir w' = tickets_dir w.
Proof.
  intros w.
  destruct (failed_update_changes_no_file "WRK-9" [("status", JStr "closed")] w)
    as (Hmissing & _).
  destruct (failed_update_changes_no_file "WRK-1" [("status", JStr "closed")] w)
    as (_ & _ & Hshape & _).
  split.
  - apply Hmissing. reflexivity.
  - destruct (Hshape (JArr [])) as (w' & Hrun & _ & Hdir & _); [reflexivity..|].
    by exists w'.
Defined.


Lemma ticket_update_merges_details_witness :
  let ticket : gmap string json :=
    <["details" := JObj (<["component" := JStr "HMS-API"]> ∅)]> ∅ in
  let files : gmap string file := <["WRK-1.json" := FJson (JObj ticket)]> ∅ in
  let w := mkWorld None (Some files) None (λ _, "2025-01-02T00:00:00") 0
                   (λ _, EmptyString) 0 in
  let note : gmap string json := <["note" := JStr "restarted"]> ∅ in
  ∃ m' w' details',
    update_work_ticket "WRK-1" [("details", JObj note)] w = (Returns (JObj m'), w') ∧
    m' !! "details" = Some (JObj details') ∧
    details' !! "note" = Some (JStr "restarted") ∧
    details' !! "component" = Some (JStr "HMS-API").
Proof.
  intros ticket files w note.
  destruct (ticket_update_merges_details "WRK-1" [("details", JObj note)] w files
              ticket note eq_refl (lookup_insert_eq _ _ _) (NoDup_singleton _))
    as (m' & w' & details' & Hrun & _ & Hdet & Hnew & Hold).
  { right. eexists. apply lookup_insert_eq. }
  { apply list_elem_of_here. }
  exists m', w', details'. split; [exact Hrun|]. split; [exact Hdet|]. split.
  - apply Hnew. apply lookup_insert_eq.
  - rewrite Hold.
    + unfold details_of, ticket. rewrite lookup_insert_eq. apply lookup_insert_eq.
    + unfold note. by rewrite lookup_insert_ne.
Defined.

Lemma generated_ticket_is_listed_witness :
  let w := mkWorld None (Some ∅) (Some ∅) (λ _, "2025-01-01T00:00:00") 0
                   (λ _, "0123456789abcdef0123456789abcdef") 0 in
  let issue :=
    new_issue "4d1e" "start_failure" "HMS-API" "2025-01-01T00:00:00" "output"
      (JStr "exit code 1") in
  ∃ w' tickets m,
    generate_work_ticket "HMS-API" "start_failure" issue w = (Ok "WRK-01234567", w') ∧
    get_work_tickets ["WRK-01234567.json"] (Some "HMS-DEV") (Some "HMS-API")
      (Some "open") w' = (Ok tickets, w') ∧
    JObj m ∈ tickets ∧ m !! "priority" = Some (JStr "high").
Proof.
  intros w issue.
  destruct (generated_ticket_is_listed "HMS-API" "start_failure" issue (JStr "4d1e")
              "high" _ w ∅ ∅ ["WRK-01234567.json"] eq_refl eq_refl eq_refl eq_refl
              eq_refl tickets_are_objects_empty (list_elem_of_here _ _))
    as (w' & files' & tickets & m & Hrun & _ & _ & Hlist & Hin & _ & _ & _ & Hprio).
  exists w', tickets, m.
  split; [exact Hrun|]. split; [exact Hlist|]. split; [exact Hin | exact Hprio].
Defined.


(** * The summary generator *)

(** ** Analysis data of any shape *)

(** A result the two handlers of the extractors let through or catch. *)
Lemma getitem_object_caught (m : gmap string json) (k : string) :
  (∃ v, getitem (JObj m) k = Ok v) ∨ getitem (JObj m) k = Raise (KeyError k).
Proof. unfold getitem. destruct (m !! k); [left; by eexists | by right]. Qed.

Lemma dict_get_caught (v : json) (k : string) (d : json) :
  (∃ x, dict_get v k d = Ok x) ∨ dict_get v k d = Raise AttributeError.
Proof. destruct v; try (by right). left. by eexists. Qed.

Lemma summary_body_caught (rd : gmap string json) :
  (∃ body, summary_body (JObj rd) = Ok body) ∨
  (∃ e, summary_body (JObj rd) = Raise e ∧ key_or_attribute_error e = true).
Proof.
  unfold summary_body.
  destruct (getitem_object_caught rd "summary") as [(summary & ->) | ->].
  - cbn [mbind result_bind].
    destruct (dict_get_caught summary "body" (JObj ∅)) as [(body & ->) | ->].
    + left. by eexists.
    + right. by eexists.
  - right. by eexists.
Qed.

Lemma summary_context_caught (rd : gmap string json) :
  (∃ context, summary_context (JObj rd) = Ok context) ∨
  (∃ e, summary_context (JObj rd) = Raise e ∧ key_or_attribute_error e = true).
Proof.
  unfold summary_context.
  destruct (summary_body_caught rd) as [(body & ->) | (e & -> & He)].
  - cbn [mbind result_bind].
    destruct (dict_get_caught body "context" (JObj ∅)) as [(context & ->) | ->].
    + left. by eexists.
    + right. by eexists.
  - right. by eexists.
Qed.

Lemma try_return_get (rd : gmap string json) (k : string) (d : json) :
  ∃ v, try_return (context ← summary_context (JObj rd); dict_get context k d) d = Ok v.
Proof.
  destruct (summary_context_caught rd) as [(context & ->) | (e & -> & He)].
  - cbn [mbind result_bind].
    destruct (dict_get_caught context k d) as [(x & ->) | ->]; by eexists.
  - cbn [mbind result_bind try_return]. rewrite He. by eexists.
Qed.

Lemma run_statements_caught {S} (statements : list (S → result S)) :
  ∀ state,
    (∀ statement s e, statement ∈ statements → statement s = Raise e →
                      key_or_attribute_error e = true) →
    ∃ state', try_pass (run_statements state statements) = Ok state'.
Proof.
  induction statements as [|statement statements IH]; intros state Hcaught.
  { by eexists. }
  cbn [run_statements]. destruct (statement state) as [state1|e] eqn:Hrun.
  - apply IH. intros st s e Hin. apply Hcaught. by apply list_elem_of_further.
  - cbn [try_pass].
    rewrite (Hcaught statement state e (list_elem_of_here _ _) Hrun). by eexists.
Qed.

Lemma copy_field_caught (structure : json) (key field : string) (fallback : json)
    (architecture : json) (e : exn) :
  is_object architecture = true →
  copy_field structure key field fallback architecture = Raise e →
  key_or_attribute_error e = true.
Proof.
  unfold copy_field. intros Hobj.
  destruct (dict_get_caught structure field fallback) as [(x & ->) | ->].
  - destruct architecture; discriminate.
  - by intros [= <-].
Qed.

Lemma extract_architecture_returns (rd : gmap string json) :
  ∃ architecture, extract_architecture (JObj rd) = Ok architecture.
Proof.
  unfold extract_architecture.
  destruct (summary_body_caught rd) as [(body & ->) | (e & -> & He)].
  2: { cbn [mbind result_bind try_pass]. rewrite He. by eexists. }
  cbn [mbind result_bind].
  destruct (dict_get_caught body "structure" (JObj ∅)) as [(structure & ->) | ->].
  2: { by eexists. }
  destruct structure; try (by eexists).
Qed.

Lemma summary_context_unusable (rd : gmap string json) :
  (rd !! "summary" = None ∨
   ∃ summary, rd !! "summary" = Some summary ∧ is_object summary = false) →
  ∃ e, summary_body (JObj rd) = Raise e ∧ summary_context (JObj rd) = Raise e ∧
       key_or_attribute_error e = true.
Proof.
  unfold summary_context, summary_body, getitem.
  intros [-> | (summary & -> & Hobj)].
  - by eexists.
  - exists AttributeError. by destruct summary.
Qed.

Section TechStack.
Variables (rd summary body context : gmap string json) (tech_data : json).
Hypothesis Hsummary : rd !! "summary" = Some (JObj summary).
Hypothesis Hbody : summary !! "body" = Some (JObj body).
Hypothesis Hcontext : body !! "context" = Some (JObj context).
Hypothesis Htech : context !! "tech_stack" = Some tech_data.

Lemma extract_tech_stack_run :
  extract_tech_stack (JObj rd)
  = try_pass
      (run_statements (JObj empty_tech_stack)
         (copy_key tech_data <$> tech_stack_keys)).
Proof using Hsummary Hbody Hcontext Htech.
  unfold extract_tech_stack, summary_context, summary_body, getitem.
  rewrite Hsummary. cbn [mbind result_bind dict_get]. rewrite Hbody.
  cbn [default from_option id mbind result_bind dict_get]. rewrite Hcontext.
  cbn [default from_option id mbind result_bind dict_get]. by rewrite Htech.
Qed.

Lemma extract_tech_stack_type_error :
  is_container tech_data = false →
  extract_tech_stack (JObj rd) = Raise TypeError.
Proof using Hsummary Hbody Hcontext Htech.
  intros Hc. rewrite extract_tech_stack_run. by destruct tech_data.
Qed.

End TechStack.

Lemma copy_key_object (td ts : gmap string json) (key : string) :
  copy_key (JObj td) key (JObj ts)
  = Ok (JObj (match td !! key with
              | Some value => <[key := value]> ts
              | None => ts
              end)).
Proof.
  unfold copy_key, py_contains, getitem. cbn [mbind result_bind].
  destruct (td !! key) as [value|] eqn:Hkey.
  - by rewrite bool_decide_eq_true_2 by by eexists.
  - by rewrite bool_decide_eq_false_2 by apply is_Some_None.
Qed.

(** X21: what the summary generator makes of analysis data of any
    shape.  On a dictionary the extractors of the description, the
    integration points and the architecture never raise.  When the
    ["summary"] entry is missing or is no dictionary, all four
    extractors return their fallbacks.  But the technology extractor
    raises [TypeError] when the ["tech_stack"] of the context is a
    number, a boolean or null; when it is a dictionary, each of the
    four known keys holds its value there, or the empty list, and no
    other key is copied. *)
Theorem analysis_of_any_shape (rd : gmap string json) :
  let repo_data := JObj rd in
  ((∃ description, extract_component_description repo_data = Ok description) ∧
   (∃ points, extract_integration_points repo_data = Ok points) ∧
   (∃ architecture, extract_architecture repo_data = Ok architecture)) ∧
  ((rd !! "summary" = None ∨
    ∃ summary, rd !! "summary" = Some summary ∧ is_object summary = false) →
   extract_component_description repo_data = Ok (JStr "No description available") ∧
   extract_integration_points repo_data = Ok (JArr []) ∧
   extract_architecture repo_data = Ok (JObj unknown_architecture) ∧
   extract_tech_stack repo_data = Ok (JObj empty_tech_stack)) ∧
  (∀ summary body context tech_data,
     rd !! "summary" = Some (JObj summary) →
     summary !! "body" = Some (JObj body) →
     body !! "context" = Some (JObj context) →
     context !! "tech_stack" = Some tech_data →
     (is_container tech_data = false →
      extract_tech_stack repo_data = Raise TypeError) ∧
     (∀ td, tech_data = JObj td →
        ∃ tech_stack,
          extract_tech_stack repo_data = Ok (JObj tech_stack) ∧
          dom tech_stack = dom empty_tech_stack ∧
          ∀ key, key ∈ tech_stack_keys →
                 tech_stack !! key = Some (default (JArr []) (td !! key)))).
Proof.
  intros repo_data. subst repo_data. split; [|split].
  - split; [apply try_return_get|]. split; [apply try_return_get|].
    apply extract_architecture_returns.
  - intros Hbad.
    destruct (summary_context_unusable rd Hbad) as (e & Hb & Hc & He).
    unfold extract_component_description, extract_integration_points,
      extract_architecture, extract_tech_stack.
    rewrite Hb, Hc. cbn [mbind result_bind try_return try_pass]. by rewrite He.
  - intros summary body context tech_data Hsummary Hbody Hcontext Htech. split.
    { by apply (extract_tech_stack_type_error rd summary body context tech_data). }
    intros td ->.
    rewrite (extract_tech_stack_run rd summary body context (JObj td)) by done.
    unfold tech_stack_keys. cbn [fmap list_fmap run_statements].
    rewrite !copy_key_object.
    eexists. split; [reflexivity|]. split.
    + destruct (td !! "languages"), (td !! "frameworks"), (td !! "databases"),
        (td !! "key_libraries"); rewrite ?dom_insert_L; set_solver.
    + intros key Hkey.
      assert (key = "languages" ∨ key = "frameworks" ∨ key = "databases"
              ∨ key = "key_libraries") as Hcases.
      { repeat (apply elem_of_cons in Hkey as [-> | Hkey]; [tauto|]).
        by apply elem_of_nil in Hkey. }
      destruct Hcases as [-> | [-> | [-> | ->]]];
        destruct (td !! "languages"), (td !! "frameworks"), (td !! "databases"),
          (td !! "key_libraries"); cbn [default];
        repeat first [ rewrite lookup_insert_eq | rewrite lookup_insert_ne by done ];
        reflexivity.
Qed.

(** ** Issues are never closed *)

Lemma setitem_issues (status status' : json) (k : string) (x : json) :
  setitem status k x = Ok status' → k ≠ "issues" →
  getitem status' "issues" = getitem status "issues".
Proof.
  destruct status as [| | | | |m]; try discriminate.
  intros [= <-] Hne. unfold getitem. by rewrite lookup_insert_ne.
Qed.

Lemma setitem2_issues (status status' : json) (k1 k2 : string) (x : json) :
  setitem2 status k1 k2 x = Ok status' → k1 ≠ "issues" →
  getitem status' "issues" = getitem status "issues".
Proof.
  unfold setitem2. intros H Hne.
  destruct (getitem status k1) as [inner|]; [|discriminate]. cbn in H.
  destruct (setitem inner k2 x) as [inner'|]; [|discriminate]. cbn in H.
  by apply (setitem_issues _ _ k1 inner').
Qed.

Lemma increment_issues (status status' : json) (k1 k2 : string) :
  increment status k1 k2 = Ok status' → k1 ≠ "issues" →
  getitem status' "issues" = getitem status "issues".
Proof.
  unfold increment. intros H Hne.
  destruct (getitem status k1) as [inner|]; [|discriminate]. cbn in H.
  destruct (getitem inner k2) as [old|]; [|discriminate]. cbn in H.
  destruct (py_add old (JInt 1)) as [new|]; [|discriminate]. cbn in H.
  destruct (setitem inner k2 new) as [inner'|]; [|discriminate]. cbn in H.
  by apply (setitem_issues _ _ k1 inner').
Qed.

Lemma update_operational_status_issues (status status' : json) :
  update_operational_status status = Ok status' →
  getitem status' "issues" = getitem status "issues".
Proof.
  intros (m & ss & ts & -> & _ & _ & ->)%update_operational_status_inv.
  unfold getitem. by rewrite lookup_insert_ne.
Qed.

Lemma append_issue_issues (status status' issue : json) :
  append_issue status issue = Ok status' →
  ∃ issues, getitem status "issues" = Ok (JArr issues) ∧
            getitem status' "issues" = Ok (JArr (issues ++ [issue])).
Proof.
  unfold append_issue. intros H.
  destruct (getitem status "issues") as [issues|]; [|discriminate]. cbn in H.
  destruct issues as [| | | |l|]; try discriminate. cbn in H.
  destruct status as [| | | | |m]; try discriminate. injection H as <-.
  exists l. split; [reflexivity|]. unfold getitem. by rewrite lookup_insert_eq.
Qed.

(** The issues at the end of a run, from the statements that made the
    final record. *)
Ltac chase_issues :=
  repeat match goal with
    | H : setitem2 _ _ _ _ = Ok ?X |- context [getitem ?X "issues"] =>
        rewrite (setitem2_issues _ _ _ _ _ H) by discriminate
    | H : setitem _ _ _ = Ok ?X |- context [getitem ?X "issues"] =>
        rewrite (setitem_issues _ _ _ _ H) by discriminate
    | H : increment _ _ _ = Ok ?X |- context [getitem ?X "issues"] =>
        rewrite (increment_issues _ _ _ _ H) by discriminate
    | H : update_operational_status _ = Ok ?X |- context [getitem ?X "issues"] =>
        rewrite (update_operational_status_issues _ _ H)
    end.

Lemma record_component_start_issues (component : string) (success : bool)
    (output : option string) (w w0 w' : world) (status0 status : json) :
  get_component_status component w = (Ok status0, w0) →
  record_component_start component success output w = (Ok status, w') →
  if success then getitem status "issues" = getitem status0 "issues"
  else ∃ issues issue_id t,
         getitem status0 "issues" = Ok (JArr issues) ∧
         getitem status "issues"
         = Ok (JArr (issues ++ [new_issue issue_id "start_failure" component t
                                          "output" (opt_str output)])).
Proof.
  intros Hload Hrun.
  unfold record_component_start in Hrun.
  invert_run Hrun.
  match goal with
  | H : get_component_status _ _ = (Ok _, _) |- _ =>
      rewrite Hload in H; injection H as <- <-
  end.
  destruct success;
    match goal with
    | H : mbind _ _ _ = (Ok _, _) |- _ => invert_run H
    end.
  - by chase_issues.
  - match goal with
    | H : append_issue _ _ = Ok _ |- _ =>
        apply append_issue_issues in H as (issues & Hold & Hnew)
    end.
    eexists issues, _, _. chase_issues.
    split; [|exact Hnew]. revert Hold. by chase_issues.
Qed.

Lemma record_test_run_issues (component : string) (success : bool)
    (results : option json) (w w0 w' : world) (status0 status : json) :
  get_component_status component w = (Ok status0, w0) →
  record_test_run component success results w = (Ok status, w') →
  if success then getitem status "issues" = getitem status0 "issues"
  else ∃ issues issue_id t,
         getitem status0 "issues" = Ok (JArr issues) ∧
         getitem status "issues"
         = Ok (JArr (issues ++ [new_issue issue_id "test_failure" component t
                                          "results" (test_payload results)])).
Proof.
  intros Hload Hrun.
  unfold record_test_run in Hrun.
  invert_run Hrun.
  match goal with
  | H : get_component_status _ _ = (Ok _, _) |- _ =>
      rewrite Hload in H; injection H as <- <-
  end.
  destruct success;
    match goal with
    | H : mbind _ _ _ = (Ok _, _) |- _ => invert_run H
    end.
  - by chase_issues.
  - match goal with
    | H : append_issue _ _ = Ok _ |- _ =>
        apply append_issue_issues in H as (issues & Hold & Hnew)
    end.
    eexists issues, _, _. chase_issues.
    split; [|exact Hnew]. revert Hold. by chase_issues.
Qed.

Lemma active_issues_all_open (issues : list json) :
  ∀ active,
    Forall (λ issue, ∃ m, issue = JObj m ∧ m !! "status" = Some (JStr "open")) issues →
    active_issues issues active = Ok (active ++ issues)%list.
Proof.
  induction issues as [|issue issues IH]; intros active Hopen.
  { simpl. by rewrite app_nil_r. }
  apply Forall_cons in Hopen as [(m & -> & Hm) Hopen].
  cbn [active_issues dict_get]. rewrite Hm. cbn [default from_option id mbind result_bind].
  cbn [eq_str]. rewrite bool_decide_eq_true_2 by done.
  rewrite (IH _ Hopen). by rewrite <- app_assoc.
Qed.

Lemma extract_active_issues_all_open (status : json) (issues : list json) :
  getitem status "issues" = Ok (JArr issues) →
  Forall (λ issue, ∃ m, issue = JObj m ∧ m !! "status" = Some (JStr "open")) issues →
  extract_active_issues status = Ok issues.
Proof.
  intros Hissues Hopen. unfold extract_active_issues, getitem in *.
  destruct status as [| | | | |m]; try discriminate.
  destruct (m !! "issues") as [v|] eqn:Hv; [|discriminate]. injection Hissues as ->.
  cbn [dict_get]. rewrite Hv. cbn [default from_option id mbind result_bind py_iter].
  by rewrite (active_issues_all_open issues []).
Qed.

Lemma new_issue_open (issue_id type component t key : string) (value : json) :
  ∃ m, new_issue issue_id type component t key value = JObj m ∧
       m !! "status" = Some (JStr "open").
Proof. eexists. split; reflexivity. Qed.

(** X22: the recorders never close an issue.  If every issue of the
    loaded record is an open one, then so is every issue of the record
    a recorder returns and stores; the old issues are a prefix of the
    new ones, and [extract_active_issues] returns them all. *)
Theorem issues_are_never_closed (component : string) (w w0 w' : world)
    (status0 status : json) :
  get_component_status component w = (Ok status0, w0) →
  issues_all_open status0 →
  (∃ success output,
     record_component_start component success output w = (Ok status, w')) ∨
  (∃ success results,
     record_test_run component success results w = (Ok status, w')) →
  issues_all_open status ∧
  status_file component w' = Some (FJson status) ∧
  ∃ before issues,
    getitem status0 "issues" = Ok (JArr before) ∧
    getitem status "issues" = Ok (JArr issues) ∧
    before `prefix_of` issues ∧
    extract_active_issues status = Ok issues.
Proof.
  intros Hload (before & Hbefore & Hopen) Hrun.
  assert (status_file component w' = Some (FJson status)) as Hfile.
  { destruct Hrun as [(success & output & Hrun) | (success & results & Hrun)].
    - by apply (saves_or_keeps_file component derived _ w w' status
                  (record_component_start_outcome component success output)).
    - by apply (saves_or_keeps_file component derived _ w w' status
                  (record_test_run_outcome component success results)). }
  assert (∃ issues, getitem status "issues" = Ok (JArr issues) ∧
            before `prefix_of` issues ∧
            Forall (λ issue, ∃ m, issue = JObj m ∧ m !! "status" = Some (JStr "open"))
                   issues) as (issues & Hissues & Hprefix & Hall).
  { destruct Hrun as [(success & output & Hrun) | (success & results & Hrun)].
    - pose proof (record_component_start_issues _ _ _ _ _ _ _ _ Hload Hrun) as H.
      destruct success.
      + exists before. by rewrite H.
      + destruct H as (l & issue_id & t & Hl & Hnew).
        rewrite Hbefore in Hl. injection Hl as <-.
        eexists. split; [exact Hnew|]. split; [by apply prefix_app_r|].
        apply Forall_app. split; [done|]. apply Forall_singleton, new_issue_open.
    - pose proof (record_test_run_issues _ _ _ _ _ _ _ _ Hload Hrun) as H.
      destruct success.
      + exists before. by rewrite H.
      + destruct H as (l & issue_id & t & Hl & Hnew).
        rewrite Hbefore in Hl. injection Hl as <-.
        eexists. split; [exact Hnew|]. split; [by apply prefix_app_r|].
        apply Forall_app. split; [done|]. apply Forall_singleton, new_issue_open. }
  split; [by exists issues|]. split; [exact Hfile|].
  exists before, issues. split; [done|]. split; [done|]. split; [done|].
  by apply extract_active_issues_all_open.
Qed.

Lemma default_status_issues_open (component t1 t2 : string) :
  issues_all_open (default_status component t1 t2).
Proof. exists []. split; [reflexivity | constructor]. Qed.

Lemma issues_are_never_closed_witness :
  let w := mkWorld (Some ∅) (Some ∅) (Some ∅) (λ _, "2025-01-01T00:00:00") 0
                   (λ _, "0123456789abcdef0123456789abcdef") 0 in
  ∃ status w' issues,
    record_component_start "HMS-API" false None w = (Ok status, w') ∧
    getitem status "issues" = Ok (JArr issues) ∧
    extract_active_issues status = Ok issues.
Proof.
  intros w.
  assert (Hdirs : directories_exist w).
  { split; [|split]; by eexists. }
  pose proof (get_component_status_absent "HMS-API" w (or_introl eq_refl)) as Hload.
  destruct (record_component_start_step "HMS-API" false None w _ _ Hdirs Hload
              (default_status_wf _ _ _)) as (status & w' & ts & Hrun & _).
  destruct (issues_are_never_closed "HMS-API" w _ w' _ status Hload
              (default_status_issues_open _ _ _)
              (or_introl (ex_intro _ false (ex_intro _ None Hrun))))
    as (_ & _ & before & issues & _ & Hissues & _ & Hactive).
  by exists status, w', issues.
Defined.

Lemma analysis_of_any_shape_witness :
  let context : gmap string json := <["tech_stack" := JNull]> ∅ in
  let body : gmap string json := <["context" := JObj context]> ∅ in
  let summary : gmap string json := <["body" := JObj body]> ∅ in
  let rd : gmap string json := <["summary" := JObj summary]> ∅ in
  extract_tech_stack (JObj rd) = Raise TypeError ∧
  extract_tech_stack (JObj (<["summary" := JNull]> ∅)) = Ok (JObj empty_tech_stack).
Proof.
  intros context body summary rd. split.
  - destruct (analysis_of_any_shape rd) as (_ & _ & Htech).
    destruct (Htech summary body context JNull) as [Hraise _];
      try apply lookup_insert_eq.
    by apply Hraise.
  - destruct (analysis_of_any_shape (<["summary" := JNull]> ∅)) as (_ & Hbad & _).
    apply Hbad. right. exists JNull. split; [apply lookup_insert_eq | reflexivity].
Defined.

(** * The components the tracker knows *)

Lemma prefix_summary_suffix (b : string) :
  String.prefix "_summary.json" (b ++ "_summary.json") = true →
  b = EmptyString ∨ ∃ rest, b = "_summary.json" ++ rest.
Proof.
  intros H. destruct b as [|c b]; [by left|]. right.
  cbn [String.append] in H. apply prefix_cons in H as [<- H].
  do 12 (destruct b as [|? b]; [vm_compute in H; discriminate H|];
         cbn [String.append] in H; apply prefix_cons in H as [<- H]).
  by exists b.
Qed.

Lemma split_first_app (c : string) :
  ¬ occurs_in "_summary.json" c →
  split_first (c ++ "_summary.json") "_summary.json" = c.
Proof.
  induction c as [|ch c IH]; intros Hno; [reflexivity|].
  change (String ch c ++ "_summary.json") with (String ch (c ++ "_summary.json")).
  cbn [split_first].
  destruct (String.prefix "_summary.json" (String ch (c ++ "_summary.json")))
    eqn:Hprefix.
  - exfalso.
    destruct (prefix_summary_suffix (String ch c) Hprefix) as [|(rest & Hrest)];
      [discriminate|].
    apply Hno. exists EmptyString, rest. exact Hrest.
  - f_equal. apply IH. intros (a & b & ->). apply Hno. by exists (String ch a), b.
Qed.

(** X23: the components the tracker offers.  Each of the known
    components is always among them, and without the directory of
    analysis logs they are the only ones.  Any other component comes
    from a summary file of the directory, as the text before the first
    [_summary.json] in its name, and its commit file exists.  A
    component whose name does not hold [_summary.json] is offered
    whenever both of its files are there. *)
Theorem available_components (repo_logs : option (list string)) :
  (∀ component, component ∈ all_known_components →
                component ∈ get_available_components repo_logs) ∧
  (repo_logs = None →
   get_available_components repo_logs = list_to_set all_known_components) ∧
  (∀ component, component ∈ get_available_components repo_logs →
     component ∈ all_known_components ∨
     ∃ entries file_name,
       repo_logs = Some entries ∧ file_name ∈ entries ∧
       endswith file_name "_summary.json" = true ∧
       component = split_first file_name "_summary.json" ∧
       component ++ "_last_commit.txt" ∈ entries) ∧
  (∀ entries component,
     repo_logs = Some entries →
     component ++ "_summary.json" ∈ entries →
     component ++ "_last_commit.txt" ∈ entries →
     ¬ occurs_in "_summary.json" component →
     component ∈ get_available_components repo_logs).
Proof.
  unfold get_available_components. split; [|split; [|split]].
  - intros component Hknown. apply elem_of_list_to_set, elem_of_app. by left.
  - intros ->. cbn [fmap option_fmap option_map default]. by rewrite app_nil_r.
  - intros component [Hknown | Hrepo]%elem_of_list_to_set%elem_of_app; [by left|].
    right. destruct repo_logs as [entries|]; [|by apply elem_of_nil in Hrepo].
    cbn in Hrepo. apply list_elem_of_omap in Hrepo as (file_name & Hfile & Hkeep).
    apply list_elem_of_filter in Hfile as [Hends Hfile].
    cbv zeta in Hkeep. case_bool_decide as Hcommit; [|discriminate].
    injection Hkeep as <-.
    by exists entries, file_name.
  - intros entries component -> Hsummary Hcommit Hno.
    cbn [fmap option_fmap option_map default].
    apply elem_of_list_to_set, elem_of_app. right.
    apply list_elem_of_omap. exists (component ++ "_summary.json"). split.
    + apply list_elem_of_filter. split; [apply endswith_app | done].
    + cbv zeta. rewrite (split_first_app component Hno).
      by rewrite bool_decide_eq_true_2.
Qed.

Lemma available_components_witness :
  "HMS-API" ∈ get_available_components None ∧
  "billing" ∈ get_available_components
                (Some ["billing_summary.json"; "billing_last_commit.txt"]).
Proof.
  split.
  - destruct (available_components None) as (Hknown & _).
    apply Hknown. unfold all_known_components.
    do 6 apply list_elem_of_further. apply list_elem_of_here.
  - destruct (available_components
                (Some ["billing_summary.json"; "billing_last_commit.txt"]))
      as (_ & _ & _ & Hfound).
    apply (Hfound _ "billing" eq_refl).
    + apply list_elem_of_here.
    + apply list_elem_of_further, list_elem_of_here.
    + intros (a & b & H). apply (f_equal String.length) in H.
      rewrite !string_length_app in H. simpl in H. lia.
Defined.

Lemma listed_tickets_pass_the_filters_witness :
  let ticket : gmap string json := <["status" := JStr "open"]> ∅ in
  let w := mkWorld None (Some (<["WRK-1.json" := FJson (JObj ticket)]> ∅)) None
                   (λ _, "2025-01-01T00:00:00") 0 (λ _, EmptyString) 0 in
  ∃ tickets,
    get_work_tickets ["WRK-1.json"] None None (Some "open") w = (Ok tickets, w) ∧
    ∀ t, t ∈ tickets → dict_get t "status" JNull = Ok (JStr "open").
Proof.
  intros ticket w.
  destruct (listed_tickets_pass_the_filters ["WRK-1.json"] None None (Some "open") w)
    as (tickets & Hrun & _ & Hall).
  exists tickets. split; [exact Hrun|].
  intros t Ht. destruct (Hall t Ht) as (_ & _ & _ & Hs). by apply Hs.
Defined.

